(* ===== verification/_CoqProject ===== *)
-Q . S2P
Prelude.v
JsString.v
NumberFormat.v
Parity.v
Host.v
StageCycle.v
MetricChart.v
Page.v
App.v
Composition.v
