(* ===== verification/Prelude.v ===== *)
(** * A verification library for the fajarwijaya portfolio page

    The repository is a single-page React site.  [src/App.tsx] keeps the
    navigation state ([scrolled], [menuOpen]), registers a window [scroll]
    listener in an effect, scrolls to sections under a fixed 80px header,
    and mounts three self-contained widgets of
    [src/components/Diagrams.tsx]:

    - [SurfaceCodeDiagram]: five toggleable nodes, four detectors and a
      fixed adjacency object; a detector alerts when an odd number of its
      adjacent nodes are activated (a parity check);
    - [TransformerDecoderDiagram]: a four-stage pipeline advanced by a
      [setInterval] timer that a [useEffect] registers and its cleanup clears;
    - [PerformanceMetricDiagram]: a before/after bar chart over a static
      table, bars scaled against [Math.max(before, after) * 1.2].

    The widgets never talk to each other: each is a leaf with local state.
    They meet only in the browser host, whose timer and listener tables the
    stage animator and the page use through effects with cleanup, and in
    [App]'s tree, which mounts them all at once.  Each component is
    modelled on its own (its state, operations, a step relation and its
    views) and the file [Composition] puts them together in one host and
    proves that the whole refines each stateful part.

    ** Files (in [_CoqProject] order) and what they model

    - [Prelude] (this file): the JavaScript built-ins the sources call on
      arrays ([includes], [filter], spread-append) and numbers ([%] as
      [Z.rem]); arrays used as sets ([same_members], a setoid with [Proper]
      instances); the reflexive-transitive closure [star] of a step relation
      with rule induction [star_invariant]; the [fw] hint databases and the
      tactics [fw_bool] and [decide_by_compute]; [star_simulation], the
      transfer of a stuttering simulation along runs.
    - [JsString]: [String(n)] for integers and [parseInt] without radix
      (white space, sign, [0x] prefix, longest digit prefix, [None] for
      [NaN]); the round trip [parseInt(String(n)) = n] on which the parity
      diagram's [Object.entries]/[parseInt] code relies.  [String(n)] is
      the canonical form only below [10^21]; its clients use it only up
      to [2^53].
    - [NumberFormat], Module [NumberToString]: ECMA-262's
      [Number::toString] on binary64 ([SpecFloat] values, [Prim2SF] of
      primitive floats): "the Number value for [r]" as an exact interval
      test [rounds_to], the decimal exponent, the shortest digit string
      that reads back ([candidate], [shortest], [digits_of]) and the four
      layouts ([format_decimal]); the mathematical value of a decimal
      literal ([decimal_literal_mv]).  Seventeen digits always suffice
      ([candidate_17]), printing then reading gives back every finite
      nonzero double ([number_to_string_reads_back]) and no shorter
      decimal reads back as it ([number_to_string_shortest]).  The parity
      diagram uses it for the property key of a numeric literal key
      beyond [2^53].
    - [Parity], Module [SurfaceCode]: the [errors] array, [toggleError], the
      [adjacency] object literal evaluated to an object with string keys
      ([object_literal]: [ToString] of each numeric key, a repeated key
      keeping its first position) and read through [Object.entries]
      (array-index keys in ascending order, then the others in creation
      order), the counting loop [errorCount], [activeStabilizers], the
      rendered detector and node views and the status line; clicks as the
      step relation [ui_step].  Theorems C1-C9, C26 and C28.
    - [Host]: the browser host as explicit state (clock, next timer id, a
      [gmap] of timers, a list of listeners) with [setInterval],
      [clearInterval], [add]/[removeEventListener] and [fire]; the
      typeclass [ScopedEffect], the interface between a [useEffect] and the
      host (setup acquires a resource, cleanup releases it, both keep the
      host well formed), with the instances [interval_effect] and
      [listener_effect]; [host_map], a client's view of a host shared
      with other clients, and the lemmas that the host operations commute
      with it.
    - [StageCycle], Module [Stage]: the animator's [step], mount (state and
      [setInterval]), unmount (the cleanup's [clearInterval]) and the host
      firing the timer as the step relation [stage_step] over widget and
      host; the host's catch-up of due timers as the deterministic runs
      [ticks] and [run_until] (modelled from the HTML event loop, not from
      the sources); the stage views.  Theorems C10-C14, C17 and C27.
    - [MetricChart], Module [Chart]: the table, [maxVal] and the two bar
      heights on IEEE-754 binary64 (Rocq's primitive floats, what
      JavaScript computes with; [Math.max] is [float_max]), and the
      selection buttons as a step relation.  Theorems C15-C16.
    - [Page], Module [Nav]: [App]'s state, the window (scroll position,
      section offsets, last [scrollTo] request, largest scroll position)
      and the listener table; the scroll listener effect, the menu button,
      [scrollToSection], the logo and the browser carrying out a
      [scrollTo] ([settle]: clamped to [[0, max_scroll]], and no [scroll]
      event when the position does not change, as CSSOM View aborts the
      scroll) as the step relation [page_step].  Theorems C18-C21.
    - [App], Module [Doc]: the JSX tree [App] renders for each state
      ([src/App.tsx] lines 11-19 and 48-333): navigation bar, mobile menu,
      hero, the seven sections, [SkillCard], footer, with ids, [href]s,
      click handlers, state-dependent classes, text and mounted widgets;
      [Empty] is the slot of a child that renders nothing, which React
      keeps; [dispatch] runs a click handler as the event of [Nav].
      Theorems C22-C25.
    - [Composition], Module [Site]: the whole page as one React root: the
      states of [App] and of the three widgets and one host shared by the
      stage's interval and [App]'s scroll listener; mount (effects children
      first), unmount (cleanups parent first), scroll, the rendered click
      handlers, node and button clicks, timer firings and the browser
      carrying out a requested [scrollTo] as the step relation [site_step];
      [stage_of], the animator's view of it, and [page_of], [App]'s.
      Theorems C29-C34.

    ** What the theorems show

    - Parity (C1-C9): [activeStabilizers] is the parity rule on every array;
      a toggle flips exactly the detectors adjacent to the node; toggling
      twice, permuting toggles, or reordering the array leave the alerts
      unchanged; reachable states have no duplicates and only node ids; a
      single activated node is always detected and identified; the four
      undetected patterns; the status line keys on [errors.length].
    - Stage (C10-C14, C17): a mounted animator owns exactly the host's one
      2000ms timer and is in stage 0..3, none remains after unmount; [k]
      firings give stage [k mod 4]; no timer fires after unmount (by the
      invariant, and for every world by the [ScopedEffect] laws); at time
      [t0 + d] the stage is [(d / 2000) mod 4]; one box and one dot lit.
    - Chart (C15-C16): on every pair of doubles the after bar is [NaN],
      the ratio when above 1, or exactly the 1% floor; only two of the
      three metrics are selectable.
    - Page (C18-C21): navigation targets [top - 80] clamped to the
      scrollable range and closes the menu; the scroll listener is scoped
      to the mount; [scrolled] follows every scroll event; it is not read
      at mount and stays stale until the window moves: a page mounted far
      down keeps the transparent bar through clicks and aborted scrolls.
    - Document (C22-C25): every in-page link's handler and [href] name the
      same section, which exists exactly once; a click on any of them, on
      a window laid out from the document, scrolls to that section under
      the 80px header; the page's links in each state (the mobile menu
      repeats the bar's links exactly while open; five [href="#"] links
      lead nowhere); the widgets keep their place in every state, so
      navigation never remounts them.
    - Round trip, termination and shape (C26-C28): [parseInt] of the keys
      [Object.entries] returns gives back the keys of any object literal
      with distinct integer keys up to [2^53], the array indices sorted
      first; the host's catch-up loop [run_until] stops after exactly
      [firings_due] firings from every reachable world, whatever larger
      fuel it gets; the rendered diagram's shape and its alert styling
      under the parity rule.
    - Whole page (C29-C34): the page refines the stage animator (each step
      is a step of the animator's view or no change), so the animator's
      invariant holds inside the page, and refines [App] up to
      [page_equiv], so [App]'s listener discipline holds inside it; the
      page owns exactly the interval and the scroll listener while mounted
      and nothing after unmount; a link click followed by the scroll it
      requests leaves the window under the header at the section (or at
      the end of the scrollable range, for a section too near the bottom),
      with [scrolled] updated by the scroll event the click caused, or
      unchanged when the window was already there; the parity diagram's
      and the chart's states exist exactly while mounted and are states
      each widget reaches on its own.

    ** Bounds and fuel

    [run_until] takes fuel, one unit per timer firing; [d / 2000 + 1] units
    reach time [t0 + d] (C13 states the run with that fuel, not only its
    partial correctness); C27 shows that [firings_due t w] units are
    enough from every reachable world and that more fuel changes nothing.
    [dec_digits] takes [log2 n + 1] units of fuel, enough for the decimal
    digits of [n] ([digit_fuel_enough]).  [Number::toString] searches the
    digit count [k] from 1 with fuel 17, enough for every double
    ([candidate_17]: at 17 digits the nearest decimal is within half a unit
    of the 17th digit, [10^(n-17) / 2], below half the gap to the
    neighbouring doubles since [2^53 < 10^16]); its exponent search starts
    from an estimate by bit lengths and checks it, falling back on a
    search from [10^-323] with fuel 700, past [10^309], which bounds every
    double.  Properties
    over all 2^5 activation patterns are reduced to the 32 subsets of the
    node ids ([same_on_nodes_enum]) and decided by evaluation.  Integers
    that the sources keep small (ids, stages, counts) are [Z] without
    width; JavaScript numbers are binary64 only where the program computes
    with fractions (the chart); pixel offsets of the page are modelled as
    integers.

    ** Not modelled

    The widgets' full markup (their views keep what depends on state);
    CSS classes that never change and icon sizes (the document keeps the
    classes that depend on state); framer-motion animations; the
    browser's smooth-scroll animation (a [scrollTo] is recorded as a
    request, which [Nav.settle] and [Site.settle_scroll] carry out at
    once, clamped to the scrollable range [[0, max_scroll]], with no
    [scroll] event when the position does not change); the three.js
    scenes of [./components/QuantumScene], which are not part of the
    sources.
    The texts the chart prints (its labels are numbers printed by
    [Number::toString]; the printing itself is modelled in [NumberFormat]
    and used for property keys).  In [NumberFormat], [-0] prints as [0]
    and reads back as [+0] (so the round trip is stated for finite
    nonzero doubles), and the reading side covers decimal literals, not
    white space, [Infinity] or the [0x]/[0b]/[0o] forms of [Number(s)].
    Object literals are modelled for integer keys, the only kind the
    sources write.
*)

From stdpp Require Export base list sets.
From Stdlib Require Export ZArith Lia Bool.

Declare Scope fw_scope.
Delimit Scope fw_scope with fw.
Open Scope fw_scope.

Create HintDb fw.
Create Rewrite HintDb fw_rw.

(** ** JavaScript array built-ins on arrays of numbers *)

Section JsArray.
Context {A : Type} `{EqDecision A}.

(** [arr.includes(x)]: SameValueZero, which is equality on the integers
    and strings the sources store. *)
Definition js_includes (x : A) (l : list A) : bool :=
  existsb (fun y => bool_decide (y = x)) l.

(** [arr.filter(e => e !== x)] *)
Definition js_filter_ne (x : A) (l : list A) : list A :=
  List.filter (fun e => negb (bool_decide (e = x))) l.

(** [[...arr, x]] *)
Definition js_push (l : list A) (x : A) : list A := l ++ [x].

Lemma js_includes_spec x l : js_includes x l = true <-> x ∈ l.
Proof.
  unfold js_includes. rewrite existsb_exists, list_elem_of_In.
  split; [intros (y & Hy & E); apply bool_decide_eq_true in E; subst; done|].
  intros H. exists x. split; [done|]. by apply bool_decide_eq_true.
Qed.

Lemma js_includes_false x l : js_includes x l = false <-> x ∉ l.
Proof. rewrite <- js_includes_spec. destruct (js_includes x l); naive_solver. Qed.

Lemma elem_of_js_filter_ne x y l : y ∈ js_filter_ne x l <-> y ∈ l /\ y <> x.
Proof.
  unfold js_filter_ne. rewrite !list_elem_of_In, filter_In, negb_true_iff.
  rewrite bool_decide_eq_false. done.
Qed.

Lemma elem_of_js_push x y l : y ∈ js_push l x <-> y ∈ l \/ y = x.
Proof. unfold js_push. rewrite elem_of_app, list_elem_of_singleton. done. Qed.

Lemma js_filter_ne_notin x l : x ∉ l -> js_filter_ne x l = l.
Proof.
  induction l as [|y l IH]; intros Hx; [done|]. cbn.
  rewrite elem_of_cons in Hx.
  rewrite bool_decide_false by naive_solver. cbn. f_equal. naive_solver.
Qed.

Lemma NoDup_js_filter_ne x l : NoDup l -> NoDup (js_filter_ne x l).
Proof.
  induction 1 as [|y l Hy Hl IH]; cbn; [constructor|].
  destruct (bool_decide (y = x)); cbn; [done|].
  constructor; [|done]. intros Hin. apply elem_of_js_filter_ne in Hin. naive_solver.
Qed.

Lemma NoDup_js_push x l : NoDup l -> x ∉ l -> NoDup (js_push l x).
Proof.
  intros H Hx. unfold js_push. apply NoDup_app. split; [done|]. split.
  - intros y Hy ->%list_elem_of_singleton. done.
  - apply NoDup_singleton.
Qed.
End JsArray.

#[export] Hint Rewrite @js_includes_spec @elem_of_js_filter_ne @elem_of_js_push : fw_rw.

(** ** Arrays used as sets: equal membership *)

Definition same_members {A} (l1 l2 : list A) : Prop := forall x, x ∈ l1 <-> x ∈ l2.
Infix "≡ₘ" := same_members (at level 70) : fw_scope.

#[export] Instance same_members_equiv {A} : Equivalence (@same_members A).
Proof.
  split; unfold same_members.
  - done.
  - intros l1 l2 H x. by rewrite H.
  - intros l1 l2 l3 H1 H2 x. by rewrite H1, H2.
Qed.

#[export] Instance elem_of_same_members_proper {A} (x : A) :
  Proper (same_members ==> iff) (elem_of x).
Proof. intros l1 l2 H. apply H. Qed.

#[export] Instance js_includes_proper {A} `{EqDecision A} (x : A) :
  Proper (same_members ==> eq) (js_includes x).
Proof.
  intros l1 l2 H. destruct (js_includes x l2) eqn:E.
  - apply js_includes_spec. apply H. by apply js_includes_spec.
  - apply js_includes_false. rewrite H. by apply js_includes_false.
Qed.

(** ** JavaScript integer remainder [a % b]: the sign follows the dividend *)

Definition js_rem (a b : Z) : Z := Z.rem a b.

Lemma js_rem_nonneg_mod (a b : Z) : (0 <= a)%Z -> (0 < b)%Z -> js_rem a b = (a mod b)%Z.
Proof. intros. unfold js_rem. apply Z.rem_mod_nonneg; lia. Qed.

Lemma Z_odd_of_nat (n : nat) : Z.odd (Z.of_nat n) = Nat.odd n.
Proof.
  induction n as [|n IH]; [done|].
  rewrite Nat2Z.inj_succ, Z.odd_succ, Nat.odd_succ, <- Z.negb_odd, <- Nat.negb_odd, IH. done.
Qed.

(** [n % 2 !== 0] on a count [n]. *)
Lemma js_rem_2_odd (n : nat) : negb (js_rem (Z.of_nat n) 2 =? 0)%Z = Nat.odd n.
Proof.
  rewrite js_rem_nonneg_mod by lia. rewrite Zmod_odd, Z_odd_of_nat.
  by destruct (Nat.odd n).
Qed.

(** ** Reflexive-transitive closure of a step relation *)

Section Star.
Context {S : Type} (R : S -> S -> Prop).

Inductive star : S -> S -> Prop :=
| star_refl s : star s s
| star_step s1 s2 s3 : R s1 s2 -> star s2 s3 -> star s1 s3.

Lemma star_one s1 s2 : R s1 s2 -> star s1 s2.
Proof. eauto using star. Qed.

Lemma star_trans s1 s2 s3 : star s1 s2 -> star s2 s3 -> star s1 s3.
Proof. induction 1; eauto using star. Qed.

(** Rule induction for an invariant. *)
Lemma star_invariant (P : S -> Prop) :
  (forall s s', P s -> R s s' -> P s') ->
  forall s s', star s s' -> P s -> P s'.
Proof. intros Hstep s s' H. induction H; eauto. Qed.
End Star.

(** Runs of a smaller step relation are runs of a larger one. *)
Lemma star_mono {S} (R R' : S -> S -> Prop) :
  (forall s s', R s s' -> R' s s') -> forall s s', star R s s' -> star R' s s'.
Proof. intros Hsub s s' H. induction H; eauto using star. Qed.

(** A stuttering simulation: when every step of [R] from a state satisfying
    the invariant [P] projects to a step of [R'] or to no change, every run
    of [R] projects to a run of [R']. *)
Section Simulation.
Context {S T : Type} (R : S -> S -> Prop) (R' : T -> T -> Prop) (P : S -> Prop) (proj : S -> T).
Hypothesis inv_step : forall s s', P s -> R s s' -> P s'.
Hypothesis sim_step : forall s s', P s -> R s s' -> R' (proj s) (proj s') \/ proj s = proj s'.

Lemma star_simulation s s' : P s -> star R s s' -> star R' (proj s) (proj s').
Proof.
  intros Hp H. induction H as [s|s1 s2 s3 H12 H23 IH]; [apply star_refl|].
  destruct (sim_step s1 s2 Hp H12) as [Hs| ->]; [|exact (IH (inv_step _ _ Hp H12))].
  eapply star_step; [exact Hs | exact (IH (inv_step _ _ Hp H12))].
Qed.
End Simulation.

#[export] Hint Resolve star_refl star_one : fw.

(** ** Tactics *)

(** Turn the boolean tests of the sources into propositions. *)
Ltac fw_bool :=
  repeat match goal with
  | H : js_includes _ _ = true |- _ => apply js_includes_spec in H
  | H : js_includes _ _ = false |- _ => apply js_includes_false in H
  | |- js_includes _ _ = true => apply js_includes_spec
  | |- js_includes _ _ = false => apply js_includes_false
  end.

(** Close a closed decidable goal by evaluating its decision procedure. *)
Ltac decide_by_compute := refine (bool_decide_unpack _ _); vm_compute; exact I.
