(* ===== verification/JsString.v ===== *)
(** * Numbers as strings: [String(n)] and [parseInt]

    The parity diagram reads its adjacency object through
    [Object.entries], whose keys are the decimal strings of the integer
    property names, and converts them back with [parseInt(dataId)]; its
    status line prints [activeStabilizers.length] in a template literal.
    This file models the two conversions on integers: [js_int_to_string]
    (the canonical decimal form ECMAScript gives an integral number) and
    [js_parseInt] (with the radix argument omitted: leading white space, an
    optional sign, an optional [0x] prefix, then the longest prefix of
    digits; [None] stands for [NaN]).  The main result is the round trip
    [parseInt(String(n)) = n]. *)

From S2P Require Import Prelude.
From stdpp Require Import strings.
From Stdlib Require Import Ascii.

Local Open Scope Z_scope.

(** ** Printing *)

Definition digit_char (d : Z) : ascii := ascii_of_nat (48 + Z.to_nat d).

(** The digits of [n > 0], most significant first, in front of [acc];
    [fuel] bounds the number of digits. *)
Fixpoint dec_digits (fuel : nat) (n : Z) (acc : string) : string :=
  match fuel with
  | O => acc
  | S fuel' =>
      let acc' := String (digit_char (n mod 10)) acc in
      if n / 10 =? 0 then acc' else dec_digits fuel' (n / 10) acc'
  end.

Definition digit_fuel (n : Z) : nat := S (Z.to_nat (Z.log2 n)).

Definition nat_digits (n : Z) : string :=
  if n =? 0 then "0"%string else dec_digits (digit_fuel n) n ""%string.

(** [String(n)] for an integral number [n]. *)
Definition js_int_to_string (n : Z) : string :=
  if n <? 0 then String "-" (nat_digits (- n)) else nat_digits n.

(** ** Parsing *)

Definition is_js_space (c : ascii) : bool :=
  match nat_of_ascii c with 9 | 10 | 11 | 12 | 13 | 32 => true | _ => false end%nat.

Definition digit_value (radix : Z) (c : ascii) : option Z :=
  let n := Z.of_nat (nat_of_ascii c) in
  let v := if (48 <=? n) && (n <=? 57) then Some (n - 48)
           else if (97 <=? n) && (n <=? 122) then Some (n - 87)
           else if (65 <=? n) && (n <=? 90) then Some (n - 55)
           else None in
  match v with Some d => if d <? radix then Some d else None | None => None end.

(** Longest prefix of digits, accumulated into [acc]; the boolean says
    whether at least one digit was read. *)
Fixpoint parse_digits (radix : Z) (s : string) (acc : Z) (seen : bool) : Z * bool :=
  match s with
  | EmptyString => (acc, seen)
  | String c s' =>
      match digit_value radix c with
      | Some d => parse_digits radix s' (acc * radix + d) true
      | None => (acc, seen)
      end
  end.

Fixpoint trim_start (s : string) : string :=
  match s with
  | String c s' => if is_js_space c then trim_start s' else s
  | EmptyString => EmptyString
  end.

(** A [0x] or [0X] prefix selects radix 16. *)
Definition hex_prefix (s : string) : option string :=
  match s with
  | String c0 (String c rest) =>
      if (c0 =? "0")%char && ((c =? "x")%char || (c =? "X")%char) then Some rest else None
  | _ => None
  end.

Definition parse_unsigned (s : string) : option Z :=
  let '(radix, body) := match hex_prefix s with Some rest => (16, rest) | None => (10, s) end in
  let '(v, seen) := parse_digits radix body 0 false in
  if seen then Some v else None.

(** [parseInt(s)] with no radix; [None] is [NaN]. *)
Definition js_parseInt (s : string) : option Z :=
  match trim_start s with
  | String c rest =>
      if (c =? "-")%char then option_map Z.opp (parse_unsigned rest)
      else if (c =? "+")%char then parse_unsigned rest
      else parse_unsigned (String c rest)
  | EmptyString => None
  end.

(** ** Lemmas *)

Lemma digit_value_char d : 0 <= d < 10 -> digit_value 10 (digit_char d) = Some d.
Proof.
  intros Hd. unfold digit_value, digit_char.
  rewrite nat_ascii_embedding by lia.
  replace (Z.of_nat (48 + Z.to_nat d)) with (d + 48) by lia.
  rewrite (proj2 (Z.leb_le 48 (d + 48))), (proj2 (Z.leb_le (d + 48) 57)) by lia.
  cbn [andb]. replace (d + 48 - 48) with d by lia.
  rewrite (proj2 (Z.ltb_lt d 10)) by lia. done.
Qed.

(** Printing [n] in front of [acc] and reading back adds [n] to the
    accumulator, shifted by the number of digits printed. *)
Lemma parse_dec_digits fuel n acc a seen :
  0 < n -> n < 10 ^ Z.of_nat fuel ->
  exists k, 0 < k /\
    parse_digits 10 (dec_digits fuel n acc) a seen =
    parse_digits 10 acc (a * 10 ^ k + n) true.
Proof.
  revert n acc a seen. induction fuel as [|fuel IH]; intros n acc a seen Hpos Hlt; [cbn in Hlt; lia|].
  cbn [dec_digits].
  assert (Hr : 0 <= n mod 10 < 10) by (apply Z.mod_pos_bound; lia).
  destruct (Z.eqb_spec (n / 10) 0) as [Hq|Hq].
  - exists 1. split; [lia|]. cbn [parse_digits]. rewrite digit_value_char by done.
    f_equal. pose proof (Z.div_mod n 10). lia.
  - destruct (IH (n / 10) (String (digit_char (n mod 10)) acc) a seen) as (k & Hk & ->).
    + pose proof (Z.div_pos n 10). lia.
    + rewrite Nat2Z.inj_succ, Z.pow_succ_r in Hlt by lia.
      apply Z.div_lt_upper_bound; lia.
    + exists (k + 1). split; [lia|]. cbn [parse_digits]. rewrite digit_value_char by done.
      f_equal. rewrite Z.pow_add_r by lia. pose proof (Z.div_mod n 10). lia.
Qed.

Lemma digit_fuel_enough n : 0 < n -> n < 10 ^ Z.of_nat (digit_fuel n).
Proof.
  intros Hn. unfold digit_fuel.
  rewrite Nat2Z.inj_succ, Z2Nat.id by (apply Z.log2_nonneg).
  pose proof (Z.log2_spec n Hn) as [_ H2].
  eapply Z.lt_le_trans; [exact H2|]. apply Z.pow_le_mono_l. lia.
Qed.

(** The most significant digit printed for [m > 0] is not zero. *)
Lemma dec_digits_head fuel m acc : 0 < m -> m < 10 ^ Z.of_nat (S fuel) ->
  exists d rest, dec_digits (S fuel) m acc = String (digit_char d) rest /\ 1 <= d <= 9.
Proof.
  revert m acc. induction fuel as [|fuel IH]; intros m acc Hm Hlt; cbn [dec_digits];
    destruct (Z.eqb_spec (m / 10) 0) as [Hq|Hq].
  all: pose proof (Z.div_mod m 10 ltac:(lia)); pose proof (Z.mod_pos_bound m 10 ltac:(lia)).
  1,3: eexists _, _; split; [reflexivity | lia].
  - cbn in Hlt. lia.
  - apply IH; [lia|]. rewrite Nat2Z.inj_succ, Z.pow_succ_r in Hlt by lia.
    apply Z.div_lt_upper_bound; lia.
Qed.

(** A non-zero digit is not white space, a sign, or the [0] of a [0x]. *)
Lemma digit_char_plain d : 1 <= d <= 9 ->
  is_js_space (digit_char d) = false /\ (digit_char d =? "-")%char = false /\
  (digit_char d =? "+")%char = false /\ (digit_char d =? "0")%char = false.
Proof.
  intros Hd. assert (d = 1 \/ d = 2 \/ d = 3 \/ d = 4 \/ d = 5 \/ d = 6 \/ d = 7 \/ d = 8 \/ d = 9)
    as Hcases by lia.
  destruct_or! Hcases; subst; vm_compute; repeat split.
Qed.

(** Printing a positive number and reading it back in radix 10. *)
Lemma parse_nat_digits m : 0 < m ->
  exists d rest, nat_digits m = String (digit_char d) rest /\ 1 <= d <= 9 /\
                 parse_unsigned (nat_digits m) = Some m.
Proof.
  intros Hm. unfold nat_digits. destruct (Z.eqb_spec m 0) as [|_]; [lia|].
  pose proof (digit_fuel_enough m Hm) as Hf.
  destruct (dec_digits_head (Z.to_nat (Z.log2 m)) m ""%string Hm Hf) as (d & rest & E & Hd).
  exists d, rest. unfold digit_fuel in *. rewrite E. repeat split; try lia.
  unfold parse_unsigned. destruct (digit_char_plain d Hd) as (_ & _ & _ & H0).
  assert (hex_prefix (String (digit_char d) rest) = None) as ->.
  { destruct rest; cbn; [done|]. by rewrite H0. }
  rewrite <- E. destruct (parse_dec_digits _ m ""%string 0 false Hm Hf) as (k & _ & ->). cbn. done.
Qed.

(** Text after a number that ends it: nothing, or a character that is not a
    decimal digit and not the [x] of a [0x] prefix. *)
Definition digit_stop (s : string) : bool :=
  match s with
  | EmptyString => true
  | String c _ =>
      match digit_value 10 c with
      | Some _ => false
      | None => negb ((c =? "x")%char || (c =? "X")%char)
      end
  end.

(** Text made of white space only. *)
Fixpoint all_space (s : string) : bool :=
  match s with
  | EmptyString => true
  | String c s' => is_js_space c && all_space s'
  end.

Lemma string_app_nil_r (s : string) : (s ++ "")%string = s.
Proof. induction s as [|c s IH]; [done|]. exact (f_equal (String c) IH). Qed.

Lemma dec_digits_app fuel n acc rest :
  (dec_digits fuel n acc ++ rest)%string = dec_digits fuel n (acc ++ rest).
Proof.
  revert n acc. induction fuel as [|fuel IH]; intros n acc; cbn [dec_digits]; [done|].
  destruct (n / 10 =? 0); [done|]. apply (IH _ (String _ acc)).
Qed.

Lemma parse_digits_stop rest v : digit_stop rest = true -> parse_digits 10 rest v true = (v, true).
Proof.
  destruct rest as [|c r]; [done|]. cbn [digit_stop parse_digits].
  by destruct (digit_value 10 c).
Qed.

(** Printing a positive number in front of text that ends it and reading
    back in radix 10. *)
Lemma parse_nat_digits_suffix m rest : 0 < m -> digit_stop rest = true ->
  exists d r, (nat_digits m ++ rest)%string = String (digit_char d) r /\ 1 <= d <= 9 /\
              parse_unsigned (nat_digits m ++ rest) = Some m.
Proof.
  intros Hm Hs. unfold nat_digits. destruct (Z.eqb_spec m 0) as [|_]; [lia|].
  pose proof (digit_fuel_enough m Hm) as Hf.
  destruct (dec_digits_head (Z.to_nat (Z.log2 m)) m ""%string Hm Hf) as (d & r & E & Hd).
  exists d, (r ++ rest)%string. unfold digit_fuel in *. rewrite E.
  split; [reflexivity|]. split; [done|].
  change (parse_unsigned (String (digit_char d) (r ++ rest)) = Some m).
  unfold parse_unsigned. destruct (digit_char_plain d Hd) as (_ & _ & _ & H0).
  assert (hex_prefix (String (digit_char d) (r ++ rest)) = None) as ->.
  { destruct (r ++ rest)%string; cbn; [done|]. by rewrite H0. }
  change (String (digit_char d) (r ++ rest)) with (String (digit_char d) r ++ rest)%string.
  rewrite <- E, dec_digits_app. change (("" ++ rest)%string) with rest.
  destruct (parse_dec_digits _ m rest 0 false Hm Hf) as (k & _ & ->).
  rewrite parse_digits_stop by done. cbn. done.
Qed.

(** [parseInt] reads [String(n)] back when the text after it ends the
    number. *)
Lemma js_parseInt_digits n rest : digit_stop rest = true -> js_parseInt (js_int_to_string n ++ rest) = Some n.
Proof.
  intros Hs. unfold js_int_to_string. destruct (Z.ltb_spec n 0) as [Hneg|Hnneg].
  - destruct (parse_nat_digits_suffix (- n) rest) as (d & r & E & Hd & Hp); [lia|done|].
    unfold js_parseInt.
    change ((String "-" (nat_digits (- n)) ++ rest)%string) with (String "-" (nat_digits (- n) ++ rest)).
    cbn [trim_start]. replace (is_js_space "-") with false by reflexivity.
    replace ("-" =? "-")%char with true by reflexivity. rewrite Hp. cbn. f_equal. lia.
  - destruct (Z.eqb_spec n 0) as [->|Hn0].
    + destruct rest as [|c r]; [reflexivity|]. cbn [digit_stop] in Hs.
      destruct (digit_value 10 c) eqn:Ed; [done|]. apply negb_true_iff in Hs.
      assert (Hx : hex_prefix (String "0" (String c r)) = None).
      { cbn [hex_prefix]. change ("0" =? "0")%char with true. by rewrite andb_true_l, Hs. }
      assert (Hd : parse_digits 10 (String "0" (String c r)) 0 false = (0, true)).
      { cbn [parse_digits]. change (digit_value 10 "0") with (Some 0). cbn [parse_digits]. by rewrite Ed. }
      unfold js_parseInt. change ((nat_digits 0 ++ String c r)%string) with (String "0" (String c r)).
      cbn [trim_start]. change (is_js_space "0") with false. change ("0" =? "-")%char with false.
      change ("0" =? "+")%char with false. cbn iota beta. unfold parse_unsigned. by rewrite Hx, Hd.
    + destruct (parse_nat_digits_suffix n rest) as (d & r & E & Hd & Hp); [lia|done|].
      destruct (digit_char_plain d Hd) as (Hsp & Hm & Hpl & _).
      unfold js_parseInt. rewrite <- Hp, E. cbn [trim_start]. rewrite Hsp, Hm, Hpl. done.
Qed.

Lemma js_parseInt_spaces ws s : all_space ws = true -> js_parseInt (ws ++ s) = js_parseInt s.
Proof.
  intros Hw. unfold js_parseInt. f_equal. induction ws as [|c ws IH]; [done|].
  change ((String c ws ++ s)%string) with (String c (ws ++ s)).
  cbn [trim_start all_space] in Hw |- *. apply andb_prop in Hw as [-> Hw]. by apply IH.
Qed.

(** [parseInt(String(n)) = n] for every integral [n]: the keys that
    [Object.entries] returns for an object literal with integer property
    names convert back to those integers. *)
Theorem js_parseInt_int_to_string n : js_parseInt (js_int_to_string n) = Some n.
Proof. rewrite <- (string_app_nil_r (js_int_to_string n)). by apply js_parseInt_digits. Qed.

(** Round trip of the number conversions with surrounding text: [parseInt] reads back
    [String(n)] for every integer [n], also after leading white space and
    before any text that ends the number (nothing, or a character that is
    neither a decimal digit nor the [x] that would make [0x] a hexadecimal
    prefix), as in [parseInt(" 42px")]. *)
Theorem js_parseInt_roundtrip ws n rest :
  all_space ws = true -> digit_stop rest = true ->
  js_parseInt (ws ++ js_int_to_string n ++ rest) = Some n.
Proof. intros Hw Hs. rewrite js_parseInt_spaces by done. by apply js_parseInt_digits. Qed.
