(* ===== verification/NumberFormat.v ===== *)
(** * Printing a binary64 number: [Number::toString]

    JavaScript converts a number to a string wherever the sources print
    one or use one as a property key: the numeric keys of the [adjacency]
    object literal ([Diagrams.tsx] lines 15-22, [SurfaceCode.property_key] of [Parity]
    beyond [2^53]) and the chart's labels and heights (lines 222-240, not
    modelled).  This is ECMA-262's [Number::toString(x)] (section
    6.1.6.1.20) on IEEE-754 binary64, modelled from the specification: for
    a finite [x > 0] take the integers [n], [k], [s] with [k >= 1],
    [10^(k-1) <= s < 10^k], "the Number value for [s * 10^(n-k)]" equal
    to [x] and [k] as small as possible (the nearer [s], the even one on a
    tie, as the specification recommends), then lay out the [k] digits of
    [s] in one of four forms.

    A number is a [spec_float] of Rocq's [SpecFloat] ([Prim2SF] of a
    primitive float); "the Number value for [r]" (round to nearest, ties to
    even) is [rounds_to], an exact comparison of [r] with the half-way
    points to the neighbouring doubles.  The reading side is the
    mathematical value of a [StrDecimalLiteral] (ECMA-262 7.1.4.1.1):
    sign, digits, an optional fraction and an optional exponent.

    The main results: 17 digits always suffice ([candidate_17]), so the
    search never runs out; printing then reading gives back the number
    ([number_to_string_reads_back]); and no decimal with fewer significant
    digits reads back as it ([number_to_string_shortest]), the
    specification's "[k] as small as possible". *)

From S2P Require Import Prelude JsString.
From Stdlib Require Import Floats QArith Qround Qpower Lqa Ascii.
From stdpp Require Import strings.

Module NumberToString.

Local Open Scope Q_scope.

(** ** Exact values *)

(** The magnitude [m * 2^e] of a finite double. *)
Definition bin_val (m : positive) (e : Z) : Q := inject_Z (Zpos m) * 2 ^ e.

(** The decimal [s * 10^t]. *)
Definition dec_val (s t : Z) : Q := inject_Z s * 10 ^ t.

(** The least exponent of a double, [emin] of [SpecFloat] for binary64. *)
Definition emin64 : Z := (-1074)%Z.

(** "The Number value for [r]" is the double [m * 2^e] ([r > 0]): [r] lies
    between the half-way points to the neighbouring doubles, a half-way
    point itself rounding to the one with the even mantissa.  The double
    above is [(m + 1) * 2^e] (or infinity, past the largest); the one below
    is half as far when [m * 2^e] is a normal power of two. *)
Definition rounds_to (r : Q) (m : positive) (e : Z) : bool :=
  let x := bin_val m e in
  let up := x + 2 ^ e / 2 in
  let down := x - (if (Zpos m =? 2 ^ 52)%Z && (emin64 <? e)%Z then 2 ^ e / 4 else 2 ^ e / 2) in
  if Z.even (Zpos m) then Qle_bool down r && Qle_bool r up
  else negb (Qle_bool r down) && negb (Qle_bool up r).

(** A decimal [r] read as the finite double [f]: the sign of [f] applied
    to the rounding of [|r|]; [0] reads as [+0]. *)
Definition reads_as (r : Q) (f : spec_float) : bool :=
  match f with
  | S754_finite false m e => rounds_to r m e
  | S754_finite true m e => rounds_to (- r) m e
  | S754_zero false => Qeq_bool r 0
  | _ => false
  end.

(** ** Choosing the digits *)

(** The decimal exponent [n] of [x > 0], [10^(n-1) <= x < 10^n], by an
    upward search; [p] is [10^n]. *)
Fixpoint dec_exponent (fuel : nat) (n : Z) (p x : Q) : Z :=
  match fuel with
  | O => n
  | S f => if Qle_bool p x then dec_exponent f (n + 1) (p * 10) x else n
  end.

(** An estimate of the exponent from the bit lengths ([1233 / 4096] is
    just under [log10 2]).  The search starts two below it and its result
    is kept when it passes the check; otherwise (never for a double, but
    not needed by the proofs) the search starts from [10^-323], below every
    double, and runs past [10^309], above every double. *)
Definition exponent_guess (x : Q) : Z :=
  ((Z.log2 (Qnum x) - Z.log2 (Zpos (Qden x))) * 1233 / 4096 + 1)%Z.

Definition is_exponent (x : Q) (n : Z) : bool :=
  Qle_bool (10 ^ (n - 1)) x && negb (Qle_bool (10 ^ n) x).

Definition exponent_of (x : Q) : Z :=
  let n0 := (exponent_guess x - 2)%Z in
  let n := dec_exponent 5 n0 (10 ^ n0) x in
  if is_exponent x n then n else dec_exponent 700 (-323) (10 ^ (-323)) x.

(** The [k]-digit [s] for [m * 2^e] with exponent [n]: of the two
    [k]-digit decimals either side of the number, one that reads back as
    it, the nearer if both do, the even one on a tie. *)
Definition candidate (m : positive) (e n k : Z) : option Z :=
  let x := bin_val m e in
  let lo := Qfloor (x / 10 ^ (n - k)) in
  let ok_lo := rounds_to (dec_val lo (n - k)) m e in
  let ok_hi := rounds_to (dec_val (lo + 1) (n - k)) m e in
  if ok_lo && ok_hi then
    let d_lo := x - dec_val lo (n - k) in
    let d_hi := dec_val (lo + 1) (n - k) - x in
    Some (if Qle_bool d_hi d_lo then (if Qeq_bool d_lo d_hi && Z.even lo then lo else lo + 1)
          else lo)%Z
  else if ok_lo then Some lo
  else if ok_hi then Some (lo + 1)%Z
  else None.

(** The least [k] from [k] on with a candidate. *)
Fixpoint shortest (fuel : nat) (m : positive) (e n k : Z) : option (Z * Z) :=
  match fuel with
  | O => None
  | S f =>
      match candidate m e n k with
      | Some s => Some (k, s)
      | None => shortest f m e n (k + 1)
      end
  end.

(** [(n, s)]: [s * 10^(n - k)] with [k] the number of digits of [s]; the
    candidate [10^k] is the one-digit [1] at exponent [n + 1]. *)
Definition digits_of (m : positive) (e : Z) : option (Z * Z) :=
  let n := exponent_of (bin_val m e) in
  match shortest 17 m e n 1 with
  | Some (k, s) => Some (if (s =? 10 ^ k)%Z then (n + 1, 1)%Z else (n, s))
  | None => None
  end.

(** ** Laying out the digits *)

Fixpoint zeros (z : nat) : string :=
  match z with O => EmptyString | S z' => String "0" (zeros z') end.

Fixpoint str_take (n : nat) (s : string) : string :=
  match n, s with
  | S n', String c s' => String c (str_take n' s')
  | _, _ => EmptyString
  end.

Fixpoint str_drop (n : nat) (s : string) : string :=
  match n, s with
  | S n', String _ s' => str_drop n' s'
  | _, _ => s
  end.

(** Steps 6-10 of [Number::toString] for the digits [ds] of [s] and the
    exponent [n]: an integer padded with zeros, a point inside the digits,
    [0.] and leading zeros, or the exponential form. *)
Definition format_decimal (n : Z) (ds : string) : string :=
  let k := Z.of_nat (String.length ds) in
  if (k <=? n)%Z && (n <=? 21)%Z then ds +:+ zeros (Z.to_nat (n - k))
  else if (0 <? n)%Z && (n <=? 21)%Z then str_take (Z.to_nat n) ds +:+ String "." (str_drop (Z.to_nat n) ds)
  else if (-6 <? n)%Z && (n <=? 0)%Z then "0." +:+ zeros (Z.to_nat (- n)) +:+ ds
  else
    let ex := String "e" (String (if (0 <=? n - 1)%Z then "+" else "-") (nat_digits (Z.abs (n - 1)))) in
    if (k =? 1)%Z then ds +:+ ex
    else str_take 1 ds +:+ String "." (str_drop 1 ds) +:+ ex.

(** [Number::toString(x)] for a double given by its [SpecFloat]. *)
Definition number_to_string (f : spec_float) : string :=
  match f with
  | S754_nan => "NaN"
  | S754_infinity false => "Infinity"
  | S754_infinity true => "-Infinity"
  | S754_zero _ => "0"
  | S754_finite sg m e =>
      let body := match digits_of m e with
                  | Some (n, s) => format_decimal n (nat_digits s)
                  | None => ""
                  end in
      if sg then String "-" body else body
  end.

(** On Rocq's primitive floats. *)
Definition js_number_to_string (x : float) : string := number_to_string (Prim2SF x).

(** A finite double other than zero. *)
Definition finite_nonzero (f : spec_float) : bool :=
  match f with S754_finite _ _ _ => true | _ => false end.

(** ** Reading a decimal literal *)

(** The longest prefix of decimal digits, accumulated onto [acc]: its
    value, the count of digits read after [len], and the rest. *)
Fixpoint scan_digits (s : string) (acc : Z) (len : nat) : Z * nat * string :=
  match s with
  | String c s' =>
      match digit_value 10 c with
      | Some d => scan_digits s' (acc * 10 + d) (S len)
      | None => (acc, len, s)
      end
  | EmptyString => (acc, len, EmptyString)
  end.

(** An optional sign: whether it is [-], and the rest. *)
Definition sign_part (s : string) : bool * string :=
  match s with
  | String c r => if (c =? "-")%char then (true, r) else if (c =? "+")%char then (false, r) else (false, s)
  | EmptyString => (false, s)
  end.

(** [ExponentPart] (or nothing) up to the end of the string. *)
Definition exponent_part (s : string) : option Z :=
  match s with
  | EmptyString => Some 0%Z
  | String c r =>
      if (c =? "e")%char || (c =? "E")%char then
        let '(neg, r') := sign_part r in
        match scan_digits r' 0 0 with
        | (v, S _, EmptyString) => Some (if neg then - v else v)%Z
        | _ => None
        end
      else None
  end.

(** The mathematical value of a [StrUnsignedDecimalLiteral] other than
    [Infinity]: digits, an optional [.] and digits (at least one digit in
    all), an optional exponent. *)
Definition unsigned_mv (s : string) : option Q :=
  let '(a, na, r1) := scan_digits s 0 0 in
  let '(f, nf, r2) := match r1 with
                      | String c r => if (c =? ".")%char then scan_digits r a 0 else (a, 0%nat, r1)
                      | EmptyString => (a, 0%nat, r1)
                      end in
  if (na + nf =? 0)%nat then None
  else option_map (fun x => dec_val f (x - Z.of_nat nf)) (exponent_part r2).

(** The mathematical value of a [StrDecimalLiteral]. *)
Definition decimal_literal_mv (s : string) : option Q :=
  let '(neg, r) := sign_part s in
  if neg then option_map Qopp (unsigned_mv r) else unsigned_mv r.

(** ** Digit strings

    Strings of decimal digits and their values, for the proofs. *)

Definition is_digit (c : ascii) : bool :=
  match digit_value 10 c with Some _ => true | None => false end.

Fixpoint all_digits (s : string) : bool :=
  match s with
  | String c s' => is_digit c && all_digits s'
  | EmptyString => true
  end.

Fixpoint digits_value (s : string) (acc : Z) : Z :=
  match s with
  | String c s' => digits_value s' (acc * 10 + default 0 (digit_value 10 c))%Z
  | EmptyString => acc
  end.

(** Whether a string starts with a digit. *)
Definition head_is_digit (s : string) : bool :=
  match s with String c _ => is_digit c | EmptyString => false end.

(** The text after a number: nothing, or a character that is not a digit. *)
Definition no_digit_head (s : string) : bool :=
  match s with String c _ => negb (is_digit c) | EmptyString => true end.

(** *** String lemmas *)

Lemma str_app_cons c (u v : string) : String c u +:+ v = String c (u +:+ v).
Proof. reflexivity. Qed.

Lemma str_app_nil_l (v : string) : "" +:+ v = v.
Proof. reflexivity. Qed.

Lemma str_app_assoc (u v w : string) : (u +:+ v) +:+ w = u +:+ (v +:+ w).
Proof. induction u as [|c u IH]; rewrite ?str_app_cons, ?str_app_nil_l; congruence. Qed.

Lemma str_app_nil_r (u : string) : u +:+ "" = u.
Proof. induction u as [|c u IH]; rewrite ?str_app_cons, ?str_app_nil_l; congruence. Qed.

Lemma str_length_app (u v : string) : String.length (u +:+ v) = (String.length u + String.length v)%nat.
Proof. induction u as [|c u IH]; rewrite ?str_app_cons, ?str_app_nil_l; cbn; congruence. Qed.

Lemma str_take_drop n u : str_take n u +:+ str_drop n u = u.
Proof. revert u; induction n as [|n IH]; intros [|c u]; cbn [str_take str_drop]; rewrite ?str_app_cons, ?str_app_nil_l; congruence. Qed.

Lemma all_digits_app u v : all_digits (u +:+ v) = all_digits u && all_digits v.
Proof. induction u as [|c u IH]; rewrite ?str_app_cons, ?str_app_nil_l; cbn; [done|by rewrite IH, andb_assoc]. Qed.

Lemma all_digits_take_drop n u : all_digits u = true ->
  all_digits (str_take n u) = true /\ all_digits (str_drop n u) = true.
Proof. rewrite <- (str_take_drop n u) at 1. rewrite all_digits_app. by intros [-> ->]%andb_prop. Qed.

Lemma length_take_drop n u : (n <= String.length u)%nat ->
  String.length (str_take n u) = n /\ String.length (str_drop n u) = (String.length u - n)%nat.
Proof.
  revert u; induction n as [|n IH]; intros [|c u] Hn; cbn in *; try lia.
  destruct (IH u) as [-> ->]; lia.
Qed.

Lemma digits_value_app u v a : digits_value (u +:+ v) a = digits_value v (digits_value u a).
Proof. revert a; induction u as [|c u IH]; intros a; rewrite ?str_app_cons, ?str_app_nil_l; cbn; [done|apply IH]. Qed.

Lemma digits_value_acc u a : digits_value u a = (a * 10 ^ Z.of_nat (String.length u) + digits_value u 0)%Z.
Proof.
  revert a; induction u as [|c u IH]; intros a; cbn [digits_value String.length]; [lia|].
  rewrite IH, (IH (0 * 10 + _)%Z), Nat2Z.inj_succ, Z.pow_succ_r by lia. lia.
Qed.

Lemma zeros_facts z a :
  all_digits (zeros z) = true /\ digits_value (zeros z) a = (a * 10 ^ Z.of_nat z)%Z /\
  String.length (zeros z) = z.
Proof.
  revert a; induction z as [|z IH]; intros a; [cbn; lia|].
  cbn [zeros all_digits digits_value String.length].
  change (default 0%Z (digit_value 10 "0")) with 0%Z. change (is_digit "0") with true.
  destruct (IH (a * 10 + 0)%Z) as (-> & -> & ->).
  rewrite Nat2Z.inj_succ, Z.pow_succ_r by lia. split_and!; [done|lia|done].
Qed.

Lemma scan_digits_app u r a l : all_digits u = true -> no_digit_head r = true ->
  scan_digits (u +:+ r) a l = (digits_value u a, (l + String.length u)%nat, r).
Proof.
  revert a l; induction u as [|c u IH]; intros a l Hu Hr; rewrite ?str_app_cons, ?str_app_nil_l.
  - rewrite Nat.add_0_r. destruct r as [|c r]; [done|]. cbn [scan_digits].
    unfold no_digit_head, is_digit in Hr. by destruct (digit_value 10 c).
  - cbn [all_digits] in Hu. apply andb_prop in Hu as [Hc Hu]. unfold is_digit in Hc.
    cbn [scan_digits digits_value]. destruct (digit_value 10 c) as [d|]; [|done].
    rewrite IH by done. cbn. by rewrite Nat.add_succ_r.
Qed.

(** *** The digits of an integer *)

Section Digits.
Local Open Scope Z_scope.


Lemma pow_succ_pred (b L : Z) : 1 <= L -> b ^ L = b * b ^ (L - 1).
Proof. intros HL. replace L with (Z.succ (L - 1)) at 1 by lia. apply Z.pow_succ_r. lia. Qed.

Lemma dec_digits_split fuel n acc : (0 < n)%Z -> (n < 10 ^ Z.of_nat fuel)%Z ->
  exists u, dec_digits fuel n acc = u +:+ acc /\ all_digits u = true /\ digits_value u 0 = n /\
    (0 < String.length u)%nat /\
    (10 ^ (Z.of_nat (String.length u) - 1) <= n < 10 ^ Z.of_nat (String.length u))%Z.
Proof.
  revert n acc. induction fuel as [|fuel IH]; intros n acc Hpos Hlt; [cbn in Hlt; lia|].
  cbn [dec_digits].
  assert (Hr : (0 <= n mod 10 < 10)%Z) by (apply Z.mod_pos_bound; lia).
  pose proof (Z.div_mod n 10 ltac:(lia)) as Hdm.
  assert (Hc : digit_value 10 (digit_char (n mod 10)) = Some (n mod 10)) by (apply digit_value_char; lia).
  destruct (Z.eqb_spec (n / 10) 0) as [Hq|Hq].
  - exists (String (digit_char (n mod 10)) ""). cbn. unfold is_digit. rewrite Hc. cbn.
    split_and!; try done; lia.
  - destruct (IH (n / 10) (String (digit_char (n mod 10)) acc)) as (u & -> & Hu & Hv & Hl & Hb).
    + pose proof (Z.div_pos n 10). lia.
    + rewrite Nat2Z.inj_succ, Z.pow_succ_r in Hlt by lia. apply Z.div_lt_upper_bound; lia.
    + exists (u +:+ String (digit_char (n mod 10)) ""). rewrite str_app_assoc. split; [done|].
      rewrite all_digits_app, digits_value_app, str_length_app, Hu, Hv. cbn. unfold is_digit. rewrite Hc.
      cbn [default from_option id]. rewrite Nat2Z.inj_add, Z.add_simpl_r. cbn [Z.of_nat Pos.of_succ_nat].
      rewrite Z.pow_add_r, Z.pow_1_r by lia. rewrite (pow_succ_pred 10 (Z.of_nat _)) in Hb |- * by lia.
      split_and!; try done; lia.
Qed.

Lemma nat_digits_pos s : (0 < s)%Z ->
  all_digits (nat_digits s) = true /\ digits_value (nat_digits s) 0 = s /\
  (0 < String.length (nat_digits s))%nat /\
  (10 ^ (Z.of_nat (String.length (nat_digits s)) - 1) <= s < 10 ^ Z.of_nat (String.length (nat_digits s)))%Z.
Proof.
  intros Hs. unfold nat_digits. destruct (Z.eqb_spec s 0) as [|_]; [lia|].
  destruct (dec_digits_split (digit_fuel s) s "" Hs (digit_fuel_enough s Hs)) as (u & -> & H).
  by rewrite str_app_nil_r.
Qed.

Lemma nat_digits_nonneg s : (0 <= s)%Z ->
  all_digits (nat_digits s) = true /\ digits_value (nat_digits s) 0 = s /\ (0 < String.length (nat_digits s))%nat.
Proof.
  intros Hs. destruct (Z.eq_dec s 0) as [->|Hs']; [vm_compute; done|].
  destruct (nat_digits_pos s) as (? & ? & ? & _); [lia|done].
Qed.

(** The number of digits is determined by the magnitude. *)
Lemma digit_count_unique (L k s : Z) : (1 <= L)%Z -> (1 <= k)%Z ->
  (10 ^ (L - 1) <= s < 10 ^ L)%Z -> (10 ^ (k - 1) <= s < 10 ^ k)%Z -> L = k.
Proof.
  intros HL Hk HsL Hsk. destruct (Z.lt_total L k) as [Hlt|[?|Hlt]]; [|done|].
  - assert (10 ^ L <= 10 ^ (k - 1))%Z by (apply Z.pow_le_mono_r; lia). lia.
  - assert (10 ^ k <= 10 ^ (L - 1))%Z by (apply Z.pow_le_mono_r; lia). lia.
Qed.

(** *** Reading the printed forms *)

Lemma is_digit_not_mark c : is_digit c = true ->
  (c =? "-")%char = false /\ (c =? "+")%char = false /\ (c =? ".")%char = false.
Proof. intros H. split_and!; apply Ascii.eqb_neq; intros ->; vm_compute in H; discriminate. Qed.

Lemma decimal_literal_mv_unsigned t : head_is_digit t = true -> decimal_literal_mv t = unsigned_mv t.
Proof.
  destruct t as [|c r]; [done|]. intros H. unfold decimal_literal_mv, sign_part.
  by destruct (is_digit_not_mark c H) as (-> & -> & _).
Qed.

Lemma head_is_digit_app u v : head_is_digit u = true -> head_is_digit (u +:+ v) = true.
Proof. by destruct u. Qed.

Lemma head_is_digit_take n u : (0 < n)%nat -> head_is_digit u = true -> head_is_digit (str_take n u) = true.
Proof. destruct n as [|n], u as [|c u]; cbn; by try lia. Qed.

Lemma head_is_digit_all u : all_digits u = true -> (0 < String.length u)%nat -> head_is_digit u = true.
Proof. destruct u as [|c u]; cbn; [lia|]. by intros [-> _]%andb_prop. Qed.

Lemma unsigned_mv_point u v ex x : all_digits u = true -> all_digits v = true ->
  (0 < String.length u + String.length v)%nat -> no_digit_head ex = true -> exponent_part ex = Some x ->
  unsigned_mv (u +:+ String "." (v +:+ ex)) =
    Some (dec_val (digits_value v (digits_value u 0)) (x - Z.of_nat (String.length v))).
Proof.
  intros Hu Hv Hl Hex Hx. unfold unsigned_mv.
  rewrite scan_digits_app by done. cbn -[scan_digits digits_value String.length exponent_part dec_val String.append].
  rewrite scan_digits_app by done. cbn -[digits_value String.length exponent_part dec_val].
  destruct (Nat.eqb_spec (String.length u + String.length v) 0); [lia|]. by rewrite Hx.
Qed.

Lemma unsigned_mv_int u ex x : all_digits u = true -> (0 < String.length u)%nat ->
  no_digit_head ex = true -> (forall c r, ex = String c r -> (c =? ".")%char = false) ->
  exponent_part ex = Some x ->
  unsigned_mv (u +:+ ex) = Some (dec_val (digits_value u 0) x).
Proof.
  intros Hu Hl Hex Hdot Hx. unfold unsigned_mv.
  rewrite scan_digits_app by done. cbn -[digits_value String.length exponent_part dec_val].
  destruct ex as [|c r].
  - cbn in Hx. injection Hx as <-. destruct (Nat.eqb_spec (String.length u + 0) 0); [lia|]. cbn. by rewrite Z.sub_0_r.
  - rewrite (Hdot c r eq_refl). destruct (Nat.eqb_spec (String.length u + 0) 0); [lia|].
    rewrite Hx. cbn. by rewrite Z.sub_0_r.
Qed.

Lemma exponent_part_print y :
  exponent_part (String "e" (String (if (0 <=? y)%Z then "+" else "-") (nat_digits (Z.abs y)))) = Some y.
Proof.
  destruct (nat_digits_nonneg (Z.abs y)) as (Hd & Hv & Hl); [lia|].
  pose proof (scan_digits_app _ "" 0 0 Hd eq_refl) as Hs. rewrite str_app_nil_r in Hs.
  unfold exponent_part. destruct (Z.leb_spec 0 y); cbn -[scan_digits nat_digits]; rewrite Hs, Hv;
    destruct (String.length (nat_digits _)); try lia; f_equal; lia.
Qed.

End Digits.

(** *** Exact values *)

Lemma Q10_nonzero : ~ (10 : Q) == 0.
Proof. discriminate. Qed.

Lemma dec_val_shift s j t : (0 <= j)%Z -> dec_val (s * 10 ^ j) t == dec_val s (t + j).
Proof.
  intros Hj. unfold dec_val. rewrite inject_Z_mult, Zpower_Qpower by done.
  rewrite Qpower_plus by apply Q10_nonzero. change (inject_Z 10) with 10. ring.
Qed.

Lemma dec_val_exp s t t' : t = t' -> dec_val s t == dec_val s t'.
Proof. by intros ->. Qed.

(** Every layout starts with a digit and reads back as [s * 10^(n - k)],
    [k] the number of digits. *)
Lemma format_decimal_mv n s : (0 < s)%Z ->
  head_is_digit (format_decimal n (nat_digits s)) = true /\
  exists r, unsigned_mv (format_decimal n (nat_digits s)) = Some r /\
            r == dec_val s (n - Z.of_nat (String.length (nat_digits s))).
Proof.
  intros Hs. destruct (nat_digits_pos s Hs) as (Hd & Hv & Hl & _).
  assert (Hh : head_is_digit (nat_digits s) = true) by (by apply head_is_digit_all).
  unfold format_decimal. set (ds := nat_digits s) in *. set (k := String.length ds) in *.
  destruct ((Z.of_nat k <=? n) && (n <=? 21))%Z eqn:E1; [|destruct ((0 <? n) && (n <=? 21))%Z eqn:E2;
    [|destruct ((-6 <? n) && (n <=? 0))%Z eqn:E3]]; rewrite ?andb_true_iff, ?andb_false_iff,
    ?Z.leb_le, ?Z.ltb_lt, ?Z.leb_gt, ?Z.ltb_ge in *.
  - destruct (zeros_facts (Z.to_nat (n - Z.of_nat k)) s) as (Hz & Hzv & _).
    split; [by apply head_is_digit_app|].
    rewrite <- (str_app_nil_r (ds +:+ _)).
    rewrite (unsigned_mv_int _ "" 0%Z); [|by rewrite all_digits_app, Hd, Hz|rewrite str_length_app; lia|done|done|done].
    eexists; split; [reflexivity|]. rewrite digits_value_app, Hv, Hzv, dec_val_shift by lia.
    apply dec_val_exp. lia.
  - destruct (length_take_drop (Z.to_nat n) ds) as [Ht Hdr]; [lia|].
    destruct (all_digits_take_drop (Z.to_nat n) ds Hd) as [Htd Hdd].
    split; [apply head_is_digit_app, head_is_digit_take; [lia|done]|].
    rewrite <- (str_app_nil_r (str_drop _ ds)).
    rewrite (unsigned_mv_point _ _ "" 0%Z); [|done|done|lia|done|done].
    eexists; split; [reflexivity|]. rewrite <- digits_value_app, str_take_drop, Hv.
    apply dec_val_exp. rewrite Hdr. lia.
  - destruct (zeros_facts (Z.to_nat (- n)) 0) as (Hz & Hzv & Hzl).
    change ("0." +:+ zeros (Z.to_nat (- n)) +:+ ds) with ("0" +:+ String "." (zeros (Z.to_nat (- n)) +:+ ds)).
    rewrite <- (str_app_nil_r (zeros _ +:+ ds)).
    split; [done|].
    rewrite (unsigned_mv_point _ _ "" 0%Z); [|done|by rewrite all_digits_app, Hz, Hd|cbn; lia|done|done].
    eexists; split; [reflexivity|]. change (digits_value "0" 0) with 0%Z.
    rewrite digits_value_app, Hzv, digits_value_acc, Hv, Z.mul_0_l, Z.add_0_l, str_length_app, Hzl.
    apply dec_val_exp. lia.
  - cbv zeta. set (ex := String "e" _).
    assert (Hx : exponent_part ex = Some (n - 1)%Z) by apply exponent_part_print.
    assert (Hxh : no_digit_head ex = true) by reflexivity.
    destruct (Z.eqb_spec (Z.of_nat k) 1) as [Hk|Hk].
    + split; [by apply head_is_digit_app|].
      rewrite (unsigned_mv_int _ ex (n - 1)); [|done|done|done|by intros ? ? [= <- _]|done].
      eexists; split; [reflexivity|]. rewrite Hv. apply dec_val_exp. lia.
    + destruct (length_take_drop 1 ds) as [Ht Hdr]; [lia|].
      destruct (all_digits_take_drop 1 ds Hd) as [Htd Hdd].
      split; [apply head_is_digit_app, head_is_digit_take; [lia|done]|].
      change (String "." (str_drop 1 ds) +:+ ex) with (String "." (str_drop 1 ds +:+ ex)).
      rewrite (unsigned_mv_point _ _ ex (n - 1)); [|done|done|lia|done|done].
      eexists; split; [reflexivity|]. rewrite <- digits_value_app, str_take_drop, Hv.
      apply dec_val_exp. rewrite Hdr. lia.
Qed.

(** *** Binary64 *)

Lemma digits2_pos_bounds m :
  (2 ^ (Zpos (digits2_pos m) - 1) <= Zpos m < 2 ^ Zpos (digits2_pos m))%Z.
Proof.
  induction m as [m IH|m IH|]; cbn [digits2_pos]; [| |vm_compute; split; [discriminate|reflexivity]].
  all: rewrite Pos2Z.inj_succ. 1: rewrite (Pos2Z.inj_xI m). 2: rewrite (Pos2Z.inj_xO m).
  all: revert IH; generalize (Pos2Z.is_pos (digits2_pos m)); generalize (Zpos (digits2_pos m)); intros d Hd IH.
  all: replace (Z.succ d - 1)%Z with d by lia; rewrite Z.pow_succ_r by lia.
  all: pose proof (pow_succ_pred 2 d ltac:(lia)) as Hp.
  all: revert IH Hp; generalize (2 ^ d)%Z (2 ^ (d - 1))%Z; intros; lia.
Qed.

(** A valid finite double [m * 2^e]: [-1074 <= e <= 971], [m < 2^53], and
    [m >= 2^52] unless [e] is the least exponent (a subnormal). *)
Lemma valid_finite sg m e : valid_binary (S754_finite sg m e) = true ->
  (emin64 <= e <= 971)%Z /\ (Zpos m < 2 ^ 53)%Z /\ ((emin64 < e)%Z -> (2 ^ 52 <= Zpos m)%Z).
Proof.
  cbn [valid_binary]. unfold bounded, canonical_mantissa, fexp, SpecFloat.emin, emin64.
  rewrite andb_true_iff, Z.eqb_eq, Z.leb_le. change prec with 53%Z. change emax with 1024%Z.
  pose proof (digits2_pos_bounds m) as Hb. set (d := Zpos (digits2_pos m)) in *.
  intros [Hc He]. cbn in He. destruct (Z.max_spec (d + e - 53) (3 - 1024 - 53)) as [[H1 H2]|[H1 H2]].
  - assert (d <= 53)%Z by lia. assert (2 ^ d <= 2 ^ 53)%Z by (apply Z.pow_le_mono_r; lia). split_and!; lia.
  - assert (d = 53)%Z by lia. subst d. rewrite H in Hb. split_and!; lia.
Qed.

Lemma bin_val_range sg m e : valid_binary (S754_finite sg m e) = true ->
  10 ^ (-324) <= bin_val m e /\ bin_val m e < 10 ^ 377.
Proof.
  intros Hv. destruct (valid_finite sg m e Hv) as (He & Hm & _). unfold bin_val, emin64 in *.
  assert (H2 : 0 < (2 : Q) ^ e) by (apply Qpower_0_lt; reflexivity).
  split.
  - assert (Hm1 : 1 <= inject_Z (Zpos m)) by (change 1 with (inject_Z 1); rewrite <- Zle_Qle; lia).
    apply (Qle_trans _ (1 * 2 ^ (-1074))); [vm_compute; discriminate|].
    apply Qmult_le_compat_nonneg; split; try lra.
    apply Qpower_le_compat_l; [lia|discriminate].
  - apply (Qlt_le_trans _ (inject_Z (2 ^ 53) * 2 ^ 971)); [|vm_compute; discriminate].
    apply (Qlt_le_trans _ (inject_Z (2 ^ 53) * 2 ^ e)).
    + apply Qmult_lt_compat_r; [done|]. rewrite <- Zlt_Qlt. lia.
    + apply Qmult_le_l; [reflexivity|]. apply Qpower_le_compat_l; [lia|discriminate].
Qed.

(** *** The decimal exponent *)

Lemma dec_exponent_spec fuel n p x : p == 10 ^ n -> 10 ^ (n - 1) <= x -> x < 10 ^ (n + Z.of_nat fuel) ->
  10 ^ (dec_exponent fuel n p x - 1) <= x /\ x < 10 ^ dec_exponent fuel n p x.
Proof.
  revert n p; induction fuel as [|f IH]; intros n p Hp Hlo Hhi; cbn [dec_exponent].
  - by rewrite Z.add_0_r in Hhi.
  - destruct (Qle_bool p x) eqn:E.
    + apply Qle_bool_iff in E. apply IH.
      * rewrite Hp, Qpower_plus by apply Q10_nonzero. reflexivity.
      * by rewrite Z.add_simpl_r, <- Hp.
      * by replace (n + 1 + Z.of_nat f)%Z with (n + Z.of_nat (S f))%Z by lia.
    + split; [done|]. rewrite <- Hp. apply Qnot_le_lt. intros H. apply Qle_bool_iff in H. congruence.
Qed.

Lemma exponent_of_spec x : 10 ^ (-324) <= x -> x < 10 ^ 377 ->
  10 ^ (exponent_of x - 1) <= x /\ x < 10 ^ exponent_of x.
Proof.
  intros Hlo Hhi. unfold exponent_of. cbv zeta.
  destruct (is_exponent x _) eqn:E.
  - unfold is_exponent in E. apply andb_prop in E as [E1 E2]. apply Qle_bool_iff in E1.
    split; [done|]. apply Qnot_le_lt. intros H. apply Qle_bool_iff in H. by rewrite H in E2.
  - by apply dec_exponent_spec.
Qed.

(** *** The candidates *)

#[export] Instance Qle_bool_proper : Proper (Qeq ==> Qeq ==> eq) Qle_bool.
Proof.
  intros a a' Ha b b' Hb. apply eq_bool_prop_intro. rewrite !Is_true_true, !Qle_bool_iff, Ha, Hb. done.
Qed.

(** Reading back is a property of the rational value, not of its
    representation. *)
#[export] Instance rounds_to_proper : Proper (Qeq ==> eq ==> eq ==> eq) rounds_to.
Proof. intros r r' Hr ? m -> ? e ->. unfold rounds_to. cbv zeta. destruct (Z.even _); by rewrite Hr. Qed.

(** A decimal strictly inside the half-way points reads back. *)
Lemma rounds_to_near r m e :
  bin_val m e - (if (Zpos m =? 2 ^ 52)%Z && (emin64 <? e)%Z then 2 ^ e / 4 else 2 ^ e / 2) < r ->
  r < bin_val m e + 2 ^ e / 2 -> rounds_to r m e = true.
Proof.
  intros H1 H2. unfold rounds_to. cbv zeta.
  destruct (Z.even _); rewrite andb_true_iff; split.
  1,2: apply Qle_bool_iff; lra.
  all: apply negb_true_iff, not_true_iff_false; rewrite Qle_bool_iff; lra.
Qed.

Lemma candidate_cases m e n k :
  let lo := Qfloor (bin_val m e / 10 ^ (n - k)) in
  (forall s, candidate m e n k = Some s -> rounds_to (dec_val s (n - k)) m e = true /\ (s = lo \/ s = lo + 1)%Z) /\
  (rounds_to (dec_val lo (n - k)) m e = true \/ rounds_to (dec_val (lo + 1) (n - k)) m e = true ->
   candidate m e n k <> None).
Proof.
  cbv zeta. unfold candidate. cbv zeta. set (lo := Qfloor _).
  destruct (rounds_to (dec_val lo (n - k)) m e) eqn:E1, (rounds_to (dec_val (lo + 1) (n - k)) m e) eqn:E2;
    cbn [andb]; split; try (intros _; discriminate); try (intros [H|H]; discriminate); try (intros ? [=]; fail).
  all: intros s' Hs'; injection Hs' as <-.
  all: try (destruct (Qle_bool _ _); [destruct (_ && _)|]).
  all: split; [assumption|by (left + right)].
Qed.

(** Seventeen digits always suffice: with [10^(n-1) <= x], one of the two
    17-digit decimals either side of [x] is within half a unit of the
    17th digit, less than the distance to the half-way points, since
    [10^(n-17) <= x / 10^16 < 2^53 * 2^e / 10^16 < 2^e]. *)
Lemma candidate_17 sg m e n : valid_binary (S754_finite sg m e) = true ->
  10 ^ (n - 1) <= bin_val m e -> candidate m e n 17 <> None.
Proof.
  intros Hv Hn. destruct (valid_finite sg m e Hv) as (_ & Hm & _).
  apply (proj2 (candidate_cases m e n 17)). cbv zeta.
  set (x := bin_val m e) in *. set (T := 10 ^ (n - 17)). set (P := 2 ^ e).
  set (lo := Qfloor (x / T)). set (L := inject_Z lo).
  assert (HT : 0 < T) by (apply Qpower_0_lt; reflexivity).
  assert (HP : 0 < P) by (apply Qpower_0_lt; reflexivity).
  assert (HTx : T * 10000000000000000 <= x).
  { eapply Qle_trans; [|exact Hn]. replace (n - 1)%Z with (n - 17 + 16)%Z by lia.
    rewrite Qpower_plus by apply Q10_nonzero. apply Qle_refl. }
  assert (Hx : x == inject_Z (Zpos m) * P) by reflexivity.
  assert (Hxq : x == T * (x / T)) by (field; lra).
  assert (Hfl : L <= x / T < L + 1).
  { split; [apply Qfloor_le|]. pose proof (Qlt_floor (x / T)) as H. by rewrite inject_Z_plus in H. }
  assert (HmP : inject_Z (Zpos m) * P <= 9007199254740991 * P).
  { apply Qmult_le_compat_r; [|lra]. change 9007199254740991 with (inject_Z (2 ^ 53 - 1)).
    rewrite <- Zle_Qle. lia. }
  assert (HP2 : T * (1 # 2) < P / 2) by (change (T * (1 # 2) < P * (1 # 2)); clear Hxq Hfl; lra).
  assert (Hg : T * (1 # 2) < (if (Zpos m =? 2 ^ 52)%Z && (emin64 <? e)%Z then P / 4 else P / 2)).
  { destruct (Z.eqb_spec (Zpos m) (2 ^ 52)) as [Hm52|_]; [destruct (emin64 <? e)%Z|]; cbn [andb]; try done.
    rewrite Hm52 in Hx. change (inject_Z (2 ^ 52)) with 4503599627370496 in Hx.
    change (T * (1 # 2) < P * (1 # 4)). clear Hxq Hfl; lra. }
  unfold dec_val. rewrite inject_Z_plus. change (inject_Z 1) with 1. fold T L P.
  destruct (Qlt_le_dec (x / T - L) (1 # 2)) as [Hh|Hh]; [left|right]; apply rounds_to_near; fold x P.
  - assert (0 <= T * (x / T - L)) by (apply Qmult_le_0_compat; lra).
    assert (T * (x / T - L) <= T * (1 # 2)) by (apply (Qmult_le_l _ _ T HT); lra). lra.
  - assert (0 <= T * (x / T - L)) by (apply Qmult_le_0_compat; lra).
    assert (T * (x / T - L) <= T * (1 # 2)) by (apply (Qmult_le_l _ _ T HT); lra). lra.
  - assert (0 <= T * (L + 1 - x / T)) by (apply Qmult_le_0_compat; lra). lra.
  - assert (T * (L + 1 - x / T) <= T * (1 # 2)) by (apply (Qmult_le_l _ _ T HT); lra). lra.
Qed.

(** The candidate has [k] digits, or is [10^k]. *)
Lemma candidate_range m e n k s : (1 <= k)%Z ->
  10 ^ (n - 1) <= bin_val m e -> bin_val m e < 10 ^ n ->
  candidate m e n k = Some s -> (10 ^ (k - 1) <= s <= 10 ^ k)%Z.
Proof.
  intros Hk Hlo Hhi Hc. destruct (proj1 (candidate_cases m e n k) s Hc) as [_ Hs]. cbv zeta in Hs.
  set (T := 10 ^ (n - k)) in *. set (x := bin_val m e) in *.
  assert (HT : 0 < T) by (apply Qpower_0_lt; reflexivity).
  assert (Hsplit : forall j, 10 ^ (j + (n - k)) == 10 ^ j * T) by (intros; apply Qpower_plus, Q10_nonzero).
  assert (H1 : inject_Z (10 ^ (k - 1)) <= x / T).
  { rewrite Zpower_Qpower by lia. apply Qle_shift_div_l; [done|].
    rewrite <- Hsplit. by replace (k - 1 + (n - k))%Z with (n - 1)%Z by lia. }
  assert (H2 : x / T < inject_Z (10 ^ k)).
  { rewrite Zpower_Qpower by lia. apply Qlt_shift_div_r; [done|].
    rewrite <- Hsplit. by replace (k + (n - k))%Z with n by lia. }
  apply Qfloor_resp_le in H1. rewrite Qfloor_Z in H1.
  assert (H3 : (Qfloor (x / T) < 10 ^ k)%Z) by (rewrite Zlt_Qlt; eapply Qle_lt_trans; [apply Qfloor_le|exact H2]).
  destruct Hs as [-> | ->]; lia.
Qed.

Lemma shortest_some fuel m e n k r : shortest fuel m e n k = Some r ->
  (k <= r.1)%Z /\ candidate m e n r.1 = Some r.2.
Proof.
  revert k; induction fuel as [|f IH]; intros k; cbn [shortest]; [done|].
  destruct (candidate m e n k) eqn:E; [intros [= <-]; cbn; split; [lia|done]|].
  intros H. destruct (IH (k + 1)%Z H). split; [lia|done].
Qed.

Lemma shortest_total fuel m e n k : (0 < fuel)%nat ->
  candidate m e n (k + Z.of_nat fuel - 1) <> None -> shortest fuel m e n k <> None.
Proof.
  revert k; induction fuel as [|f IH]; intros k Hf Hc; cbn [shortest]; [lia|].
  destruct (candidate m e n k) eqn:E; [done|].
  destruct f as [|f]; [by replace (k + Z.of_nat 1 - 1)%Z with k in Hc by lia|].
  apply IH; [lia|]. by replace (k + 1 + Z.of_nat (S f) - 1)%Z with (k + Z.of_nat (S (S f)) - 1)%Z by lia.
Qed.

(** The digits chosen for a valid positive double: a positive [s] and an
    exponent [n] such that [s * 10^(n - k)] reads back as the double. *)
Lemma digits_of_spec sg m e : valid_binary (S754_finite sg m e) = true ->
  exists n s, digits_of m e = Some (n, s) /\ (0 < s)%Z /\
    rounds_to (dec_val s (n - Z.of_nat (String.length (nat_digits s)))) m e = true.
Proof.
  intros Hv. destruct (bin_val_range sg m e Hv) as [Hl Hh].
  destruct (exponent_of_spec _ Hl Hh) as [Hlo Hhi].
  unfold digits_of. set (n := exponent_of (bin_val m e)) in *.
  destruct (shortest 17 m e n 1) as [[k s]|] eqn:Es;
    [|exfalso; refine (shortest_total 17 m e n 1 _ _ Es); [lia|exact (candidate_17 sg m e n Hv Hlo)]].
  destruct (shortest_some _ _ _ _ _ _ Es) as [Hk Hc]. cbn in Hk, Hc.
  destruct (proj1 (candidate_cases m e n k) s Hc) as [Hr _].
  pose proof (candidate_range m e n k s Hk Hlo Hhi Hc) as Hs.
  assert (H1 : (0 < 10 ^ (k - 1))%Z) by (apply Z.pow_pos_nonneg; lia).
  destruct (Z.eqb_spec s (10 ^ k)) as [Es'|Ns].
  - exists (n + 1)%Z, 1%Z. split_and!; [done|lia|].
    change (nat_digits 1) with "1". cbn [String.length Z.of_nat].
    rewrite <- Hr, Es', <- (Z.mul_1_l (10 ^ k)), dec_val_shift by lia.
    by replace (n + 1 - Z.of_nat 1)%Z with (n - k + k)%Z by lia.
  - exists n, s. split_and!; [done|lia|].
    destruct (nat_digits_pos s) as (_ & _ & Hl0 & Hb); [lia|].
    rewrite (digit_count_unique (Z.of_nat (String.length (nat_digits s))) k s); [done|lia|lia|done|lia].
Qed.

(** Printing a finite nonzero double and reading the text back as a
    decimal literal gives a value whose Number value is the double. *)
Theorem number_to_string_reads_back sg m e : valid_binary (S754_finite sg m e) = true ->
  exists r, decimal_literal_mv (number_to_string (S754_finite sg m e)) = Some r /\
            reads_as r (S754_finite sg m e) = true.
Proof.
  intros Hv. destruct (digits_of_spec sg m e Hv) as (n & s & Hd & Hs & Hr).
  destruct (format_decimal_mv n s Hs) as (Hh & r & Hu & Hrq).
  cbn [number_to_string]. rewrite Hd. destruct sg.
  - exists (- r). split.
    + change (option_map Qopp (unsigned_mv (format_decimal n (nat_digits s))) = Some (- r)). by rewrite Hu.
    + cbn [reads_as]. by rewrite Qopp_opp, Hrq.
  - exists r. split; [by rewrite decimal_literal_mv_unsigned|]. cbn [reads_as]. by rewrite Hrq.
Qed.

(** The same on primitive floats, for a finite nonzero [x] whose
    [SpecFloat] is valid (every [Prim2SF x] is; the hypothesis is checked
    by evaluation where the lemma is used). *)
Corollary js_number_to_string_reads_back x :
  valid_binary (Prim2SF x) = true -> finite_nonzero (Prim2SF x) = true ->
  exists r, decimal_literal_mv (js_number_to_string x) = Some r /\ reads_as r (Prim2SF x) = true.
Proof.
  unfold js_number_to_string. destruct (Prim2SF x) as [| | |sg m e]; try discriminate.
  intros Hv _. by apply number_to_string_reads_back.
Qed.

(** *** Shortest *)

(** The decimals that read back as a double form an interval. *)
Lemma rounds_to_convex a b c m e : rounds_to a m e = true -> rounds_to b m e = true ->
  a <= c -> c <= b -> rounds_to c m e = true.
Proof.
  unfold rounds_to. cbv zeta. destruct (Z.even _); rewrite !andb_true_iff, ?negb_true_iff, <- ?not_true_iff_false,
    ?Qle_bool_iff; intros [Ha1 Ha2] [Hb1 Hb2] Hac Hcb; split.
  1,2: lra.
  all: intros ?; lra.
Qed.

Lemma rounds_to_self m e : rounds_to (bin_val m e) m e = true.
Proof.
  assert (HP : 0 < (2 : Q) ^ e) by (apply Qpower_0_lt; reflexivity).
  apply rounds_to_near; [destruct (_ && _)|]; set (P := 2 ^ e) in *;
    [change (bin_val m e - P * (1 # 4) < bin_val m e)|change (bin_val m e - P * (1 # 2) < bin_val m e)|
     change (bin_val m e < bin_val m e + P * (1 # 2))]; lra.
Qed.

(** If some multiple of [10^(n-k)] reads back, so does one of the two
    next to the double: the candidate exists. *)
Lemma candidate_of_multiple m e n k j :
  rounds_to (dec_val j (n - k)) m e = true -> candidate m e n k <> None.
Proof.
  intros Hj. apply (proj2 (candidate_cases m e n k)). cbv zeta.
  set (x := bin_val m e). set (T := 10 ^ (n - k)). set (lo := Qfloor (x / T)).
  assert (HT : 0 < T) by (apply Qpower_0_lt; reflexivity).
  assert (Hxq : x == T * (x / T)) by (field; lra).
  assert (Hfl : inject_Z lo <= x / T < inject_Z lo + 1).
  { split; [apply Qfloor_le|]. pose proof (Qlt_floor (x / T)) as H. by rewrite inject_Z_plus in H. }
  pose proof (rounds_to_self m e) as Hx. fold x in Hx.
  unfold dec_val in *. fold T in Hj |- *. rewrite inject_Z_plus. change (inject_Z 1) with 1.
  destruct (Z.le_gt_cases j lo) as [Hle|Hgt]; [left|right].
  - apply (rounds_to_convex _ _ _ m e Hj Hx).
    + apply Qmult_le_compat_r; [by rewrite <- Zle_Qle|lra].
    + assert (inject_Z lo * T <= x / T * T) by (apply Qmult_le_compat_r; lra). lra.
  - apply (rounds_to_convex _ _ _ m e Hx Hj).
    + assert (x / T * T <= (inject_Z lo + 1) * T) by (apply Qmult_le_compat_r; lra). lra.
    + apply Qmult_le_compat_r; [|lra]. change 1 with (inject_Z 1). rewrite <- inject_Z_plus, <- Zle_Qle. lia.
Qed.

Lemma shortest_first fuel m e n k r : shortest fuel m e n k = Some r ->
  forall k', (k <= k' < r.1)%Z -> candidate m e n k' = None.
Proof.
  revert k; induction fuel as [|f IH]; intros k; cbn [shortest]; [done|].
  destruct (candidate m e n k) eqn:E; [intros [= <-] k'; cbn; lia|].
  intros H k' Hk'. destruct (Z.eq_dec k' k) as [->|]; [done|].
  apply (IH (k + 1)%Z H). lia.
Qed.

(** No decimal with fewer significant digits than the printed one reads
    back as the double: [k] is as small as possible, as ECMA-262 requires. *)
Theorem number_to_string_shortest sg m e n s : valid_binary (S754_finite sg m e) = true ->
  digits_of m e = Some (n, s) ->
  forall j s' n', (1 <= j < Z.of_nat (String.length (nat_digits s)))%Z -> (10 ^ (j - 1) <= s' < 10 ^ j)%Z ->
  rounds_to (dec_val s' (n' - j)) m e = false.
Proof.
  intros Hv Hd j s' n' Hj Hs'. apply not_true_iff_false. intros Hr.
  destruct (bin_val_range sg m e Hv) as [Hl Hh].
  destruct (exponent_of_spec _ Hl Hh) as [Hlo Hhi].
  unfold digits_of in Hd. set (n0 := exponent_of (bin_val m e)) in *.
  destruct (shortest 17 m e n0 1) as [[k s0]|] eqn:Es; [|done].
  destruct (shortest_some _ _ _ _ _ _ Es) as [Hk Hc]. cbn in Hk, Hc.
  pose proof (candidate_range m e n0 k s0 Hk Hlo Hhi Hc) as Hs0.
  assert (Hkj : (j < k)%Z).
  { destruct (Z.eqb_spec s0 (10 ^ k)); injection Hd as <- <-; [change (nat_digits 1) with "1" in Hj; cbn in Hj; lia|].
    assert (0 < 10 ^ (k - 1))%Z by (apply Z.pow_pos_nonneg; lia).
    destruct (nat_digits_pos s0) as (_ & _ & Hl0 & Hb); [lia|].
    rewrite (digit_count_unique (Z.of_nat (String.length (nat_digits s0))) k s0 ltac:(lia) ltac:(lia) Hb ltac:(lia)) in Hj.
    lia. }
  pose proof (shortest_first _ _ _ _ _ _ Es j ltac:(cbn; lia)) as Hnone.
  destruct (Z.le_gt_cases n0 n') as [Hn|Hn].
  - apply (candidate_of_multiple m e n0 j (s' * 10 ^ (n' - n0))); [|done].
    rewrite dec_val_shift by lia. by replace (n0 - j + (n' - n0))%Z with (n' - j)%Z by lia.
  - apply (candidate_of_multiple m e n0 j (10 ^ (j - 1))); [|done].
    apply (rounds_to_convex _ _ _ m e Hr (rounds_to_self m e)); [|].
    + unfold dec_val. rewrite Zpower_Qpower, <- Qpower_plus by (lia || apply Q10_nonzero).
      replace (j - 1 + (n0 - j))%Z with (n0 - 1)%Z by lia.
      apply (Qle_trans _ (10 ^ n')); [|apply Qpower_le_compat_l; [lia|discriminate]].
      apply (Qle_trans _ (inject_Z (10 ^ j) * 10 ^ (n' - j))).
      * apply Qmult_le_compat_r; [rewrite <- Zle_Qle; lia|apply Qpower_0_le; discriminate].
      * rewrite Zpower_Qpower, <- Qpower_plus by (lia || apply Q10_nonzero).
        replace (j + (n' - j))%Z with n' by lia. apply Qle_refl.
    + unfold dec_val. rewrite Zpower_Qpower, <- Qpower_plus by (lia || apply Q10_nonzero).
      by replace (j - 1 + (n0 - j))%Z with (n0 - 1)%Z by lia.
Qed.

End NumberToString.
