(* ===== verification/Parity.v ===== *)
(** * The network-status parity diagram ([SurfaceCodeDiagram])

    [src/components/Diagrams.tsx], lines 11-97.  The widget keeps one piece
    of state, the array [errors] of activated node ids ([useState<number[]>]).
    A click on a node button runs [toggleError(id)]; on every render the
    component recomputes [activeStabilizers] from [errors] and the constant
    [adjacency] object by counting, for each detector, the activated nodes
    whose adjacency list contains it, and keeping the detectors whose count
    is odd.

    Module [SurfaceCode] models the state, the handler, the derived value,
    the rendered detector and node views and the status line, and the
    clicks as a step relation from the initial empty array.  The theorems
    show: the parity rule of the spec on every array (duplicates included);
    that a toggle flips exactly the detectors adjacent to the node; that the
    alerts depend only on the membership of [errors], so that toggling twice
    and permuting toggles give the same alerts; the invariant of reachable
    states (no duplicates, only node ids); the error-detection capability of
    the fixed adjacency (each single node is detected and identified; the
    undetected patterns are exactly four); and that the status line reports
    load whenever [errors] is non-empty, also when no detector alerts. *)

From S2P Require Import Prelude JsString NumberFormat.
From stdpp Require Import strings sorting.

Local Open Scope Z_scope.

Module SurfaceCode.

(** ** Data *)

(** The [adjacency] object literal: node id to the detectors it feeds. *)
Definition adjacency : list (Z * list Z) :=
  [(0, [0; 1]); (1, [0; 2]); (2, [1; 3]); (3, [2; 3]); (4, [0; 1; 2; 3])].

(** A JavaScript object as its own properties in creation order: each a
    property key (a string) and its value. *)
Definition object := list (string * list Z).

(** The property key of a numeric literal key [k]: [ToString] of the
    number value of [k].  Up to [2^53] in magnitude the integer is a double
    and prints as its decimal digits; beyond, the literal denotes the
    nearest double (ties to even), printed by [Number::toString]. *)
Definition property_key (k : Z) : string :=
  if Z.abs k <=? 2 ^ 53 then js_int_to_string k
  else NumberToString.number_to_string (SpecFloat.binary_normalize 53 1024 k 0 false).

(** [[[DefineOwnProperty]]] while an object literal is evaluated: a new key
    is appended, a repeated key keeps its position and takes the new value. *)
Fixpoint define_property (o : object) (key : string) (v : list Z) : object :=
  match o with
  | [] => [(key, v)]
  | (key', v') :: o' => if String.eqb key' key then (key, v) :: o' else (key', v') :: define_property o' key v
  end.

(** The object an object literal [{k1: v1, k2: v2, ...}] with numeric keys
    evaluates to, the fields defined left to right. *)
Definition object_literal (fields : list (Z * list Z)) : object :=
  fold_left (fun o '(k, v) => define_property o (property_key k) v) fields [].

(** An array index: an integer in [[0, 2^32 - 2]]. *)
Definition is_array_index (n : Z) : bool := (0 <=? n) && (n <? 2 ^ 32 - 1).

(** The array index a property key denotes, if it is one: the key is the
    canonical decimal string of an integer in the index range. *)
Definition index_of (key : string) : option Z :=
  match js_parseInt key with
  | Some n => if is_array_index n && String.eqb (js_int_to_string n) key then Some n else None
  | None => None
  end.

Definition has_index (key : string) : bool :=
  match index_of key with Some _ => true | None => false end.

(** Order of two index properties by their index. *)
Definition index_le (a b : string * list Z) : Prop :=
  default 0 (index_of a.1) <= default 0 (index_of b.1).

#[export] Instance index_le_dec : RelDecision index_le.
Proof. intros a b. exact (Z_le_dec _ _). Defined.

(** [Object.entries(o)] ([[[OwnPropertyKeys]]], ECMA-262 10.1.11.1): the
    array-index keys in ascending numeric order, then the other string keys
    in creation order. *)
Definition object_entries (o : object) : list (string * list Z) :=
  merge_sort index_le (List.filter (fun e => has_index e.1) o) ++
  List.filter (fun e => negb (has_index e.1)) o.

(** The entry of an integer key as [Object.entries] returns it. *)
Definition int_entry (e : Z * list Z) : string * list Z := (js_int_to_string e.1, e.2).

(** The detectors ([stabilizers]) as rendered, with their positions. *)
Record stab := { stab_id : Z; stab_x : string; stab_y : string;
                 stab_label : string; stab_color : string }.

Definition stabilizers : list stab :=
  [ {| stab_id := 0; stab_x := "50%"; stab_y := "20%"; stab_label := "LB-1"; stab_color := "bg-blue-500" |};
    {| stab_id := 1; stab_x := "20%"; stab_y := "50%"; stab_label := "LB-2"; stab_color := "bg-indigo-500" |};
    {| stab_id := 2; stab_x := "80%"; stab_y := "50%"; stab_label := "LB-3"; stab_color := "bg-indigo-500" |};
    {| stab_id := 3; stab_x := "50%"; stab_y := "80%"; stab_label := "LB-4"; stab_color := "bg-blue-500" |} ]%string.

(** The node ([data qubit]) buttons as rendered, in their render order. *)
Record node := { node_id : Z; node_x : string; node_y : string }.

Definition nodes : list node :=
  [ {| node_id := 0; node_x := "20%"; node_y := "20%" |};
    {| node_id := 1; node_x := "80%"; node_y := "20%" |};
    {| node_id := 4; node_x := "50%"; node_y := "50%" |};
    {| node_id := 2; node_x := "20%"; node_y := "80%" |};
    {| node_id := 3; node_x := "80%"; node_y := "80%" |} ]%string.

Definition node_ids : list Z := map node_id nodes.

(** The detector ids filtered by [activeStabilizers]. *)
Definition stab_ids : list Z := [0; 1; 2; 3].

(** ** Operations *)

(** [toggleError(id)]: [setErrors(prev => prev.includes(id) ?
    prev.filter(e => e !== id) : [...prev, id])]. *)
Definition toggleError (id : Z) (prev : list Z) : list Z :=
  if js_includes id prev then js_filter_ne id prev else js_push prev id.

(** [errors.includes(parseInt(dataId))]; [NaN] is never included. *)
Definition includes_parsed (errors : list Z) (dataId : string) : bool :=
  match js_parseInt dataId with Some k => js_includes k errors | None => false end.

(** The [forEach] over [Object.entries(adjacency)] that counts, for one
    detector, the activated nodes adjacent to it. *)
Definition errorCount (errors : list Z) (stabId : Z) : Z :=
  fold_left (fun cnt '(dataId, stabs) =>
               if includes_parsed errors dataId && js_includes stabId stabs
               then cnt + 1 else cnt)
            (object_entries (object_literal adjacency)) 0.

(** [[0, 1, 2, 3].filter(stabId => errorCount % 2 !== 0)]. *)
Definition activeStabilizers (errors : list Z) : list Z :=
  List.filter (fun stabId => negb (js_rem (errorCount errors stabId) 2 =? 0)) stab_ids.

(** ** Views *)

(** A detector as rendered: whether it shows the alert style, and its text
    ([ALERT] or its label). *)
Record stab_view := { sv_id : Z; sv_alert : bool; sv_text : string }.

Definition render_stab (active : list Z) (s : stab) : stab_view :=
  if js_includes (stab_id s) active
  then {| sv_id := stab_id s; sv_alert := true; sv_text := "ALERT"%string |}
  else {| sv_id := stab_id s; sv_alert := false; sv_text := stab_label s |}.

(** A node button as rendered: whether it shows the activated style. *)
Record node_view := { nv_id : Z; nv_active : bool }.

Definition render_node (errors : list Z) (q : node) : node_view :=
  {| nv_id := node_id q; nv_active := js_includes (node_id q) errors |}.

(** The status line under the diagram. *)
Definition status_line (errors : list Z) : string :=
  if (length errors =? 0)%nat then "Sistem berjalan normal."%string
  else ("Terdeteksi beban tinggi pada " ++
        js_int_to_string (Z.of_nat (length (activeStabilizers errors))) ++
        " zona balancer.")%string.

Record view := { v_stabs : list stab_view; v_nodes : list node_view; v_status : string }.

(** What the render (lines 53-94) shows that depends on the state: the
    detectors, the node buttons and the status line; the grid and the
    legend are static. *)
Definition render (errors : list Z) : view :=
  let active := activeStabilizers errors in
  {| v_stabs := map (render_stab active) stabilizers;
     v_nodes := map (render_node errors) nodes;
     v_status := status_line errors |}.

(** ** User interaction *)

(** The only event is a click on a node button, which calls
    [toggleError] with that button's id. *)
Inductive ui_step : list Z -> list Z -> Prop :=
| ui_click q errors : q ∈ nodes -> ui_step errors (toggleError (node_id q) errors).

Definition reachable (errors : list Z) : Prop := star ui_step [] errors.

(** Applying a sequence of toggles, as a run of clicks does. *)
Definition toggle_all (ids : list Z) (errors : list Z) : list Z :=
  fold_left (fun e id => toggleError id e) ids errors.

(** ** Specification *)

(** The ids that key the adjacency object. *)
Definition adj_keys : list Z := map fst adjacency.

(** The parity rule of the spec: the number of activated nodes adjacent to
    detector [d]. *)
Definition adjacent_count (errors : list Z) (d : Z) : nat :=
  length (List.filter (fun '(k, stabs) => js_includes k errors && js_includes d stabs) adjacency).

(** Two arrays of node ids that activate the same nodes. *)
Definition same_on_nodes (e1 e2 : list Z) : Prop :=
  forall k, k ∈ adj_keys -> (k ∈ e1 <-> k ∈ e2).

(** The activated nodes, in key order: one of the 32 subsets of nodes. *)
Definition node_mask (errors : list Z) : list Z :=
  List.filter (fun k => js_includes k errors) adj_keys.

(** All subsets of a list, in order. *)
Fixpoint sublists {A} (l : list A) : list (list A) :=
  match l with
  | [] => [[]]
  | x :: l' => let r := sublists l' in map (cons x) r ++ r
  end.

(** ** Lemmas *)

Lemma includes_parsed_key errors k : includes_parsed errors (js_int_to_string k) = js_includes k errors.
Proof. unfold includes_parsed. by rewrite js_parseInt_int_to_string. Qed.

(** The [forEach] loop counts the adjacent activated nodes. *)
Lemma errorCount_fold (errors : list Z) (d : Z) (o : list (Z * list Z)) (c : Z) :
  fold_left (fun cnt '(dataId, stabs) =>
               if includes_parsed errors dataId && js_includes d stabs then cnt + 1 else cnt)
            (map int_entry o) c =
  c + Z.of_nat (length (List.filter (fun '(k, stabs) => js_includes k errors && js_includes d stabs) o)).
Proof.
  revert c. induction o as [|[k stabs] o IH]; intros c; cbn [fold_left map int_entry fst snd List.filter length]; [lia|].
  rewrite includes_parsed_key, IH.
  destruct (js_includes k errors && js_includes d stabs); cbn [length]; lia.
Qed.

(** [Object.entries(adjacency)] lists the node ids in ascending order. *)
Lemma adjacency_entries : object_entries (object_literal adjacency) = map int_entry adjacency.
Proof. vm_compute. reflexivity. Qed.

Lemma errorCount_spec errors d : errorCount errors d = Z.of_nat (adjacent_count errors d).
Proof. unfold errorCount. rewrite adjacency_entries, errorCount_fold. done. Qed.

(** The code's [activeStabilizers] is the parity rule. *)
Lemma activeStabilizers_filter errors :
  activeStabilizers errors = List.filter (fun d => Nat.odd (adjacent_count errors d)) stab_ids.
Proof.
  unfold activeStabilizers. apply filter_ext. intros d. by rewrite errorCount_spec, js_rem_2_odd.
Qed.

(** The detectors node [n] feeds according to [adjacency] ([[]] for an
    unknown id): a specification helper, the code never indexes the object. *)
Definition adjacency_of (n : Z) : list Z :=
  match List.find (fun '(k, _) => k =? n) adjacency with Some (_, s) => s | None => [] end.

(** *** Object literals and [Object.entries] *)











#[export] Instance index_le_trans : Transitive index_le.
Proof. unfold index_le. intros ???; lia. Qed.

#[export] Instance index_le_total : Total index_le.
Proof. unfold index_le. intros ??; lia. Qed.



(** *** Membership after a toggle *)

Lemma toggleError_elem_same n e : n ∈ toggleError n e <-> n ∉ e.
Proof.
  unfold toggleError. destruct (js_includes n e) eqn:E; fw_bool.
  - rewrite elem_of_js_filter_ne. naive_solver.
  - rewrite elem_of_js_push. naive_solver.
Qed.

Lemma toggleError_elem_other k n e : k <> n -> (k ∈ toggleError n e <-> k ∈ e).
Proof.
  intros Hk. unfold toggleError. destruct (js_includes n e); fw_bool.
  - rewrite elem_of_js_filter_ne. naive_solver.
  - rewrite elem_of_js_push. naive_solver.
Qed.

Lemma toggleError_NoDup n e : NoDup e -> NoDup (toggleError n e).
Proof.
  intros H. unfold toggleError. destruct (js_includes n e) eqn:E; fw_bool.
  - by apply NoDup_js_filter_ne.
  - by apply NoDup_js_push.
Qed.

(** *** Arrays that activate the same nodes *)

#[export] Instance same_on_nodes_equiv : Equivalence same_on_nodes.
Proof.
  split; unfold same_on_nodes.
  - done.
  - intros e1 e2 H k Hk. symmetry. by apply H.
  - intros e1 e2 e3 H1 H2 k Hk. by rewrite H1, H2.
Qed.

#[export] Instance same_members_on_nodes : subrelation same_members same_on_nodes.
Proof. intros e1 e2 H k _. apply H. Qed.

Lemma same_on_nodes_includes e1 e2 k :
  same_on_nodes e1 e2 -> k ∈ adj_keys -> js_includes k e1 = js_includes k e2.
Proof.
  intros H Hk. destruct (js_includes k e2) eqn:E; fw_bool; [apply (H k Hk) | rewrite (H k Hk)]; done.
Qed.

#[export] Instance adjacent_count_proper : Proper (same_on_nodes ==> eq ==> eq) adjacent_count.
Proof.
  intros e1 e2 H d ? <-. unfold adjacent_count. f_equal. apply List.filter_ext_in.
  intros [k stabs] Hin. rewrite (same_on_nodes_includes e1 e2 k H); [done|].
  unfold adj_keys. rewrite list_elem_of_In, in_map_iff. exists (k, stabs).
  split; [done|]. exact Hin.
Qed.

#[export] Instance activeStabilizers_proper : Proper (same_on_nodes ==> eq) activeStabilizers.
Proof.
  intros e1 e2 H. rewrite !activeStabilizers_filter. apply filter_ext. intros d. by rewrite H.
Qed.

#[export] Instance toggleError_proper n : Proper (same_on_nodes ==> same_on_nodes) (toggleError n).
Proof.
  intros e1 e2 H k Hk. destruct (decide (k = n)) as [->|Hne].
  - rewrite !toggleError_elem_same, (H n Hk). done.
  - rewrite !toggleError_elem_other by done. by apply H.
Qed.

#[export] Instance node_mask_proper : Proper (same_on_nodes ==> eq) node_mask.
Proof.
  intros e1 e2 H. unfold node_mask. apply List.filter_ext_in. intros k Hk.
  apply same_on_nodes_includes; [done|]. by apply list_elem_of_In.
Qed.

(** An id that keys no node does not change which nodes are active. *)
Lemma toggleError_unknown n e : n ∉ adj_keys -> same_on_nodes (toggleError n e) e.
Proof.
  intros Hn k Hk. apply toggleError_elem_other. intros ->. done.
Qed.

(** *** Enumerating the 32 activation patterns *)

Lemma node_mask_same e : same_on_nodes (node_mask e) e.
Proof.
  intros k Hk. unfold node_mask. rewrite list_elem_of_In, filter_In, <- list_elem_of_In.
  rewrite js_includes_spec. naive_solver.
Qed.

Lemma filter_sublists {A} (p : A -> bool) (l : list A) : List.filter p l ∈ sublists l.
Proof.
  induction l as [|x l IH]; cbn; [by left|]. rewrite elem_of_app.
  destruct (p x); [left; by apply list_elem_of_fmap_2|by right].
Qed.

(** A property of [errors] that only depends on which nodes are active
    holds of every array once it holds of the 32 subsets of the nodes. *)
Lemma same_on_nodes_enum (Q : list Z -> Prop) :
  (forall e1 e2, same_on_nodes e1 e2 -> Q e1 -> Q e2) ->
  Forall Q (sublists adj_keys) -> forall e, Q e.
Proof.
  intros HQ Hall e. apply (HQ (node_mask e)); [apply node_mask_same|].
  rewrite Forall_forall in Hall. apply Hall, filter_sublists.
Qed.

Lemma adjacency_of_unknown n : n ∉ adj_keys -> adjacency_of n = [].
Proof.
  intros Hn. unfold adjacency_of, adjacency. cbn [List.find].
  repeat match goal with
  | |- context [?k =? n] => destruct (Z.eqb_spec k n) as [<-|_]; [cbn in Hn; set_solver|]
  end.
  done.
Qed.

Lemma js_includes_filter (g : Z -> bool) d (l : list Z) :
  js_includes d (List.filter g l) = js_includes d l && g d.
Proof.
  apply Bool.eq_iff_eq_true. rewrite andb_true_iff, !js_includes_spec.
  rewrite list_elem_of_In, filter_In, <- list_elem_of_In. done.
Qed.

(** The detectors named by [adjacency_of] and by [activeStabilizers] are
    detector ids. *)
Lemma adjacency_of_stab_ids n : Forall (fun d => d ∈ stab_ids) (adjacency_of n).
Proof.
  destruct (decide (n ∈ adj_keys)) as [Hn|Hn]; [|by rewrite adjacency_of_unknown].
  revert n Hn. apply Forall_forall. decide_by_compute.
Qed.

Lemma activeStabilizers_stab_ids e d :
  js_includes d (activeStabilizers e) = true -> js_includes d stab_ids = true.
Proof. unfold activeStabilizers. rewrite js_includes_filter. by intros [? _]%andb_prop. Qed.

(** A toggle of node [n] recomputes the alerts as the old alerts with the
    detectors adjacent to [n] flipped. *)
Lemma activeStabilizers_toggle e n :
  activeStabilizers (toggleError n e) =
  List.filter (fun d => xorb (js_includes d (activeStabilizers e)) (js_includes d (adjacency_of n))) stab_ids.
Proof.
  destruct (decide (n ∈ adj_keys)) as [Hn|Hn].
  - revert e. apply same_on_nodes_enum.
    + intros e1 e2 H E. rewrite <- (activeStabilizers_proper _ _ H).
      by rewrite <- (activeStabilizers_proper _ _ (toggleError_proper n _ _ H)).
    + revert n Hn. apply Forall_forall. decide_by_compute.
  - rewrite (activeStabilizers_proper _ _ (toggleError_unknown n e Hn)), adjacency_of_unknown by done.
    rewrite activeStabilizers_filter.
    generalize (fun d => Nat.odd (adjacent_count e d)) as f. intros f.
    unfold stab_ids. cbn. destruct (f 0), (f 1), (f 2), (f 3); reflexivity.
Qed.

(** [toggle_all] flips each node once per occurrence in the sequence. *)
Lemma toggle_all_includes ids e k :
  js_includes k (toggle_all ids e) = xorb (js_includes k e) (Nat.odd (count_occ Z.eq_dec ids k)).
Proof.
  revert e. unfold toggle_all.
  induction ids as [|x ids IH]; intros e; cbn [fold_left count_occ]; [by rewrite xorb_false_r|].
  rewrite IH. destruct (Z.eq_dec x k) as [->|Hne].
  - rewrite Nat.odd_succ, <- Nat.negb_odd.
    destruct (js_includes k e) eqn:E, (js_includes k (toggleError k e)) eqn:T; fw_bool;
      rewrite ?toggleError_elem_same in *; try done; destruct (Nat.odd _); done.
  - f_equal. destruct (js_includes k e) eqn:E; fw_bool; by rewrite toggleError_elem_other.
Qed.

(** Clicking the node buttons in sequence from the initial state. *)
Lemma reachable_toggle_all ids e :
  reachable e -> Forall (fun id => id ∈ node_ids) ids -> reachable (toggle_all ids e).
Proof.
  intros He Hids. revert e He. induction Hids as [|id ids Hid _ IH]; intros e He; [done|].
  apply IH. eapply star_trans; [exact He|]. apply star_one.
  unfold node_ids in Hid. apply list_elem_of_fmap in Hid as (q & -> & Hq). by constructor.
Qed.

(** A detector's view shows its own id and alerts exactly under the parity
    rule. *)
Lemma render_stab_parity errors s :
  stab_id s ∈ stab_ids ->
  sv_id (render_stab (activeStabilizers errors) s) = stab_id s /\
  sv_alert (render_stab (activeStabilizers errors) s) = Nat.odd (adjacent_count errors (stab_id s)).
Proof.
  intros Hs%js_includes_spec. unfold render_stab.
  rewrite activeStabilizers_filter, js_includes_filter, Hs. by destruct (Nat.odd _).
Qed.

(** The text of a detector reads [ALERT] exactly when it alerts: no label
    is [ALERT]. *)
Lemma render_stab_text active s :
  s ∈ stabilizers -> sv_text (render_stab active s) = "ALERT"%string <-> sv_alert (render_stab active s) = true.
Proof.
  intros Hs. unfold render_stab. destruct (js_includes (stab_id s) active); cbn; [done|].
  repeat (apply elem_of_cons in Hs as [->|Hs]); [..|by apply elem_of_nil in Hs].
  all: split; intros H; discriminate H.
Qed.

(** ** Theorems *)

(** C1. The parity rule: for every array [errors] (duplicates and unknown
    ids included), a detector is in [activeStabilizers errors] exactly when
    it is one of the four detector ids and an odd number of the nodes that
    [errors] activates are adjacent to it.  This covers the string round trip
    of [Object.entries] and [parseInt] and the [% 2 !== 0] test. *)
Theorem activeStabilizers_parity errors d :
  d ∈ activeStabilizers errors <-> d ∈ stab_ids /\ Nat.odd (adjacent_count errors d) = true.
Proof.
  rewrite activeStabilizers_filter, list_elem_of_In, filter_In, <- list_elem_of_In. done.
Qed.

(** C2. [toggleError n] flips exactly the detectors adjacent to [n]: a
    detector alerts after the toggle iff it alerted before xor it is in
    [adjacency[n]], for every state, every id [n] and every detector [d]. *)
Theorem activeStabilizers_toggle_flip errors n d :
  js_includes d (activeStabilizers (toggleError n errors)) =
  xorb (js_includes d (activeStabilizers errors)) (js_includes d (adjacency_of n)).
Proof.
  rewrite activeStabilizers_toggle, js_includes_filter.
  destruct (js_includes d stab_ids) eqn:Hd; [done|].
  assert (Ha : js_includes d (activeStabilizers errors) = false).
  { unfold activeStabilizers. by rewrite js_includes_filter, Hd. }
  assert (Hb : js_includes d (adjacency_of n) = false).
  { fw_bool. intros Hin. pose proof (adjacency_of_stab_ids n) as HF.
    rewrite Forall_forall in HF. apply HF in Hin. exact (Hd Hin). }
  by rewrite Ha, Hb.
Qed.

(** C3. Toggling the same node twice returns to the same set of activated
    nodes (the array may be reordered) and so to the same alerts. *)
Theorem toggleError_involutive errors n :
  toggleError n (toggleError n errors) ≡ₘ errors /\
  activeStabilizers (toggleError n (toggleError n errors)) = activeStabilizers errors.
Proof.
  assert (H : toggleError n (toggleError n errors) ≡ₘ errors).
  { intros k. destruct (decide (k = n)) as [->|Hne].
    - rewrite !toggleError_elem_same. destruct (decide (n ∈ errors)); naive_solver.
    - by rewrite !toggleError_elem_other. }
  split; [done|]. by rewrite H.
Qed.

(** C4. Order independence: two sequences of clicks that are permutations
    of each other lead from the same state to arrays with the same members,
    hence to the same alerts. *)
Theorem toggle_all_permutation ids1 ids2 errors :
  Permutation ids1 ids2 ->
  toggle_all ids1 errors ≡ₘ toggle_all ids2 errors /\
  activeStabilizers (toggle_all ids1 errors) = activeStabilizers (toggle_all ids2 errors).
Proof.
  intros Hp. assert (H : toggle_all ids1 errors ≡ₘ toggle_all ids2 errors).
  { intros k. rewrite <- !js_includes_spec, !toggle_all_includes.
    by rewrite (proj1 (Permutation_count_occ Z.eq_dec ids1 ids2) Hp k). }
  split; [done|]. by rewrite H.
Qed.

Lemma toggle_all_permutation_witness :
  Permutation [0; 4; 0; 1] [1; 0; 0; 4] /\
  activeStabilizers (toggle_all [0; 4; 0; 1] []) = activeStabilizers (toggle_all [1; 0; 0; 4] []).
Proof.
  assert (Hp : Permutation [0; 4; 0; 1] [1; 0; 0; 4]) by decide_by_compute.
  split; [exact Hp|]. exact (proj2 (toggle_all_permutation _ _ [] Hp)).
Defined.

(** C5. Determinism: the alerts are a function of the set of activated
    nodes, not of the array that holds it (order, duplicates) nor of the
    history that built it. *)
Theorem activeStabilizers_same_members e1 e2 :
  e1 ≡ₘ e2 -> activeStabilizers e1 = activeStabilizers e2.
Proof. intros H. by rewrite H. Qed.

Lemma activeStabilizers_same_members_witness :
  [4; 1; 4] ≡ₘ [1; 4] /\ activeStabilizers [4; 1; 4] = activeStabilizers [1; 4].
Proof.
  assert (H : [4; 1; 4] ≡ₘ [1; 4]) by (intros x; rewrite !elem_of_cons; naive_solver).
  split; [exact H|]. exact (activeStabilizers_same_members _ _ H).
Defined.

(** C6. Invariant of the widget: every state reachable by clicks from the
    initial empty array has no duplicates and holds only rendered node ids. *)
Theorem reachable_invariant errors :
  reachable errors -> NoDup errors /\ Forall (fun id => id ∈ node_ids) errors.
Proof.
  intros H. refine (star_invariant ui_step (fun e => NoDup e /\ Forall (fun id => id ∈ node_ids) e) _ [] errors H _).
  - intros e e' [Hnd Hf] Hstep. destruct Hstep as [q e Hq].
    split; [by apply toggleError_NoDup|].
    rewrite Forall_forall in *. intros k Hk. destruct (decide (k = node_id q)) as [->|Hne].
    + by apply list_elem_of_fmap_2.
    + apply Hf. by rewrite <- toggleError_elem_other.
  - split; constructor.
Qed.

Lemma reachable_invariant_witness : reachable [0; 3; 4] /\ NoDup [0; 3; 4].
Proof.
  assert (H : reachable [0; 3; 4]).
  { change [0; 3; 4] with (toggle_all [0; 3; 4] []).
    apply reachable_toggle_all; [apply star_refl|]. decide_by_compute. }
  split; [exact H|]. exact (proj1 (reachable_invariant _ H)).
Defined.

(** C7. Error detection of the fixed adjacency: activating a single node
    always raises at least one alert, and two different single nodes raise
    different alert sets, so a single activated node is identified by the
    alerts. *)
Theorem single_node_identified n m :
  n ∈ node_ids -> m ∈ node_ids ->
  activeStabilizers [n] <> [] /\ (activeStabilizers [n] = activeStabilizers [m] -> n = m).
Proof.
  intros Hn Hm. revert m Hm. apply Forall_forall. revert n Hn. apply Forall_forall.
  decide_by_compute.
Qed.

Lemma single_node_identified_witness :
  4 ∈ node_ids /\ activeStabilizers [4] <> [].
Proof.
  assert (H : 4 ∈ node_ids) by decide_by_compute.
  split; [exact H|]. exact (proj1 (single_node_identified 4 4 H H)).
Defined.

(** C8. The undetected activation patterns: no detector alerts exactly when
    the activated nodes are none, [{0,1,2,3}], [{0,3,4}] or [{1,2,4}]. *)
Theorem no_alert_patterns errors :
  activeStabilizers errors = [] <->
  node_mask errors ∈ [[]; [0; 1; 2; 3]; [0; 3; 4]; [1; 2; 4]].
Proof.
  revert errors. apply same_on_nodes_enum.
  - intros e1 e2 H. by rewrite (activeStabilizers_proper _ _ H), (node_mask_proper _ _ H).
  - decide_by_compute.
Qed.

(** C9. The status line tests [errors.length], not the alerts: it reads
    "Sistem berjalan normal." exactly when no node is activated, so the
    reachable state [[0, 3, 4]], where no detector alerts, is reported as
    "high load detected in 0 balancer zones". *)
Theorem status_line_reports_length errors :
  (status_line errors = "Sistem berjalan normal."%string <-> errors = []) /\
  (reachable [0; 3; 4] /\ activeStabilizers [0; 3; 4] = [] /\
   status_line [0; 3; 4] = "Terdeteksi beban tinggi pada 0 zona balancer."%string).
Proof.
  split.
  - unfold status_line. destruct errors as [|x e]; cbn; [done|]. split; [|done].
    intros H. inversion H.
  - split; [|split; reflexivity].
    change [0; 3; 4] with (toggle_all [0; 3; 4] []).
    apply reachable_toggle_all; [apply star_refl|]. decide_by_compute.
Qed.



(** C28. Shape of the rendered diagram, for every state: four detector
    views with the ids 0..3 in order and five node buttons in the order
    0, 1, 4, 2, 3; a detector is drawn in the alert style exactly when an
    odd number of its adjacent nodes are activated, and its text reads
    [ALERT] exactly then (its label otherwise); a node button is drawn
    activated exactly when its id is in [errors]. *)
Theorem render_shape errors :
  map sv_id (v_stabs (render errors)) = [0; 1; 2; 3] /\
  map nv_id (v_nodes (render errors)) = [0; 1; 4; 2; 3] /\
  (forall sv, sv ∈ v_stabs (render errors) ->
     sv_alert sv = Nat.odd (adjacent_count errors (sv_id sv)) /\
     (sv_text sv = "ALERT"%string <-> sv_alert sv = true)) /\
  (forall nv, nv ∈ v_nodes (render errors) -> nv_active nv = true <-> nv_id nv ∈ errors).
Proof.
  assert (Hids : forall s, s ∈ stabilizers -> stab_id s ∈ stab_ids)
    by (apply Forall_forall; decide_by_compute).
  unfold render. cbn [v_stabs v_nodes]. split; [|split; [|split]].
  - rewrite map_map, (map_ext_in _ stab_id stabilizers); [reflexivity|].
    intros s Hs%list_elem_of_In. exact (proj1 (render_stab_parity errors s (Hids s Hs))).
  - by rewrite map_map.
  - intros sv (s & -> & Hs)%list_elem_of_fmap.
    destruct (render_stab_parity errors s (Hids s Hs)) as [Hid Hal].
    split; [by rewrite Hal, Hid | by apply render_stab_text].
  - intros nv (q & -> & _)%list_elem_of_fmap. cbn. apply js_includes_spec.
Qed.

End SurfaceCode.
