(* ===== verification/Host.v ===== *)
(** * The browser host: timers and listeners

    The widgets reach the browser only through [setInterval] /
    [clearInterval] ([TransformerDecoderDiagram]) and [addEventListener] /
    [removeEventListener] ([App]), each called from a React [useEffect]
    whose cleanup function releases what the effect acquired.  This file
    models the part of the host those calls touch, as explicit state: the
    clock, the next timer id, the table of active timers (a [gmap] from id to
    period, due time and callback) and the list of registered listeners.
    The callback type [C] is a parameter: each client names its callbacks.

    [fire] runs a due timer and hands its callback back to the caller,
    which applies it to the page state; [host_wf] is the invariant that
    timer ids are fresh.

    [ScopedEffect] is the interface between a component's [useEffect] and
    the host: given the effect's setup (which returns what the cleanup
    closure captures) and its cleanup, it names the resource a token owns
    and states that setup acquires it, that cleanup releases it, and that
    both keep the host well formed.  The interval of the stage animator and
    the scroll listener of the page are its two instances; the theorem that
    a released timer can never fire again is proved once against it.
    [host_map] is a client's view of a host shared with other clients,
    with the lemmas that the host operations commute with it; the
    composition of the page uses it. *)

From S2P Require Import Prelude.
From stdpp Require Import gmap strings.

Local Open Scope Z_scope.

Section Host.
Context {C : Type}.

Record timer := { t_delay : Z; t_due : Z; t_cb : C }.

Record host := {
  h_now : Z;
  h_next_id : Z;
  h_timers : gmap Z timer;
  h_listeners : list (string * C)
}.

Definition empty_host (t0 : Z) : host :=
  {| h_now := t0; h_next_id := 1; h_timers := ∅; h_listeners := [] |}.

(** [setInterval(cb, delay)]: a fresh positive id, first due one period
    from now (negative delays count as 0). *)
Definition setInterval (cb : C) (delay : Z) (h : host) : Z * host :=
  let id := h_next_id h in
  let d := Z.max delay 0 in
  (id, {| h_now := h_now h; h_next_id := id + 1;
          h_timers := <[id := {| t_delay := d; t_due := h_now h + d; t_cb := cb |}]> (h_timers h);
          h_listeners := h_listeners h |}).

(** [clearInterval(id)]: removes the timer; an unknown id is ignored. *)
Definition clearInterval (id : Z) (h : host) : host :=
  {| h_now := h_now h; h_next_id := h_next_id h;
     h_timers := delete id (h_timers h); h_listeners := h_listeners h |}.

Context `{EqDecision C}.

(** [addEventListener(type, cb)]: registering the same pair twice has no
    effect. *)
Definition addEventListener (ty : string) (cb : C) (h : host) : host :=
  {| h_now := h_now h; h_next_id := h_next_id h; h_timers := h_timers h;
     h_listeners := if js_includes (ty, cb) (h_listeners h) then h_listeners h
                    else js_push (h_listeners h) (ty, cb) |}.

(** [removeEventListener(type, cb)] *)
Definition removeEventListener (ty : string) (cb : C) (h : host) : host :=
  {| h_now := h_now h; h_next_id := h_next_id h; h_timers := h_timers h;
     h_listeners := js_filter_ne (ty, cb) (h_listeners h) |}.

(** The listeners a dispatched event of type [ty] calls, in order. *)
Definition listeners_for (ty : string) (h : host) : list C :=
  map snd (List.filter (fun '(t, _) => bool_decide (t = ty)) (h_listeners h)).

(** Running a due timer: the clock moves to its due time and the timer is
    rescheduled one period later.  The callback is returned to the
    caller, which runs it on the page state. *)
Definition fire (id : Z) (h : host) : option (C * host) :=
  match h_timers h !! id with
  | Some t =>
      Some (t_cb t, {| h_now := Z.max (h_now h) (t_due t); h_next_id := h_next_id h;
                       h_timers := <[id := {| t_delay := t_delay t; t_due := t_due t + t_delay t;
                                             t_cb := t_cb t |}]> (h_timers h);
                       h_listeners := h_listeners h |})
  | None => None
  end.

(** Well-formed hosts: timer ids are positive and below the next id. *)
Definition host_wf (h : host) : Prop :=
  0 < h_next_id h /\ forall id, is_Some (h_timers h !! id) -> 0 < id < h_next_id h.

(** *** Lemmas *)

Lemma setInterval_fresh cb d h :
  host_wf h -> h_timers h !! fst (setInterval cb d h) = None.
Proof.
  intros [_ Hwf]. cbn. destruct (h_timers h !! h_next_id h) eqn:E; [|done].
  destruct (Hwf (h_next_id h)) as [_ Hlt]; [by eexists|]. lia.
Qed.

Lemma setInterval_wf cb d h : host_wf h -> host_wf (snd (setInterval cb d h)).
Proof.
  intros [Hpos Hwf]. split; cbn; [lia|]. intros id Hid.
  destruct (decide (id = h_next_id h)) as [->|Hne]; [lia|].
  rewrite lookup_insert_ne in Hid by done. specialize (Hwf id Hid). lia.
Qed.

Lemma clearInterval_wf id h : host_wf h -> host_wf (clearInterval id h).
Proof.
  intros [Hpos Hwf]. split; cbn; [done|]. intros i Hi.
  destruct (decide (i = id)) as [->|Hne]; [by rewrite lookup_delete_eq in Hi; destruct Hi|].
  rewrite lookup_delete_ne in Hi by done. by apply Hwf.
Qed.

Lemma fire_wf id h cb h' : host_wf h -> fire id h = Some (cb, h') -> host_wf h'.
Proof.
  intros [Hpos Hwf] Hf. unfold fire in Hf. destruct (h_timers h !! id) as [t|] eqn:E; [|done].
  injection Hf as <- <-. split; cbn; [done|]. intros i Hi.
  destruct (decide (i = id)) as [->|Hne]; [apply Hwf; by eexists|].
  rewrite lookup_insert_ne in Hi by done. by apply Hwf.
Qed.

(** Clearing the interval that [setInterval] just created gives back the
    timer table of before. *)
Lemma clearInterval_setInterval cb d h :
  host_wf h ->
  h_timers (clearInterval (fst (setInterval cb d h)) (snd (setInterval cb d h))) = h_timers h.
Proof.
  intros Hwf. pose proof (setInterval_fresh cb d h Hwf) as Hf. cbn in *.
  by rewrite delete_insert_id.
Qed.
End Host.

Arguments host : clear implicits.
Arguments timer : clear implicits.

(** ** Effects with cleanup *)

Class ScopedEffect {C Tok : Type} (setup : host C -> Tok * host C) (cleanup : Tok -> host C -> host C) := {
  eff_owned : Tok -> host C -> Prop;
  eff_setup_owns h : host_wf h -> eff_owned (fst (setup h)) (snd (setup h));
  eff_cleanup_releases tok h : ~ eff_owned tok (cleanup tok h);
  eff_setup_wf h : host_wf h -> host_wf (snd (setup h));
  eff_cleanup_wf tok h : host_wf h -> host_wf (cleanup tok h)
}.

Arguments eff_owned {C Tok setup cleanup _} tok h.

(** [useEffect(() => { const id = setInterval(cb, d); return () => clearInterval(id); }, [])] *)
#[export, refine] Instance interval_effect {C} (cb : C) (d : Z) :
  ScopedEffect (setInterval cb d) clearInterval := {
  eff_owned id h := is_Some (h_timers h !! id)
}.
Proof.
  - intros h _. cbn. rewrite lookup_insert_eq. by eexists.
  - intros id h. cbn. rewrite lookup_delete_eq. by intros [? ?].
  - apply setInterval_wf.
  - apply clearInterval_wf.
Defined.

(** [useEffect(() => { add(ty, cb); return () => remove(ty, cb); }, [])] *)
#[export, refine] Instance listener_effect {C} `{EqDecision C} (ty : string) (cb : C) :
  ScopedEffect (fun h => (tt, addEventListener ty cb h)) (fun _ => removeEventListener ty cb) := {
  eff_owned _ h := (ty, cb) ∈ h_listeners h
}.
Proof.
  - intros h _. cbn. destruct (js_includes (ty, cb) (h_listeners h)) eqn:E.
    + by apply js_includes_spec.
    + apply elem_of_js_push. by right.
  - intros _ h. cbn. rewrite elem_of_js_filter_ne. naive_solver.
  - intros h Hw. exact Hw.
  - intros _ h Hw. exact Hw.
Defined.

(** A timer whose interval effect was cleaned up never fires again. *)
Lemma released_timer_silent {C} (cb : C) (d id : Z) (h : host C) :
  ~ eff_owned (ScopedEffect := interval_effect cb d) id h -> fire id h = None.
Proof.
  intros Hn. unfold fire. destruct (h_timers h !! id) eqn:E; [|done].
  exfalso. apply Hn. change (is_Some (h_timers h !! id)). rewrite E. by eexists.
Qed.

(** ** One host, several clients

    In the page the interval of the stage animator and the scroll listener
    of [App] live in the same browser host.  [host_map f] is the part of a
    host a client sees: [f] recognises the client's callbacks among all of
    them; the timers and listeners of other clients are dropped, the clock
    and the id counter are shared.  The lemmas say that the host operations
    a client performs commute with its view, and that registering or
    removing another client's listener does not change it. *)

Section HostMap.
Context {C D : Type} (f : C -> option D).

Definition retag_timer (t : timer C) : option (timer D) :=
  (fun d => {| t_delay := t_delay t; t_due := t_due t; t_cb := d |}) <$> f (t_cb t).

Definition retag_listener (l : string * C) : option (string * D) :=
  (fun d => (l.1, d)) <$> f l.2.

Definition host_map (h : host C) : host D :=
  {| h_now := h_now h; h_next_id := h_next_id h;
     h_timers := omap retag_timer (h_timers h);
     h_listeners := omap retag_listener (h_listeners h) |}.

Lemma host_map_setInterval cb d delay h :
  f cb = Some d ->
  setInterval d delay (host_map h) = (fst (setInterval cb delay h), host_map (snd (setInterval cb delay h))).
Proof.
  intros Hf. unfold setInterval, host_map. cbn [h_now h_next_id h_timers h_listeners fst snd].
  rewrite (omap_insert_Some _ _ _ _ {| t_delay := Z.max delay 0; t_due := h_now h + Z.max delay 0; t_cb := d |});
    [done|]. unfold retag_timer. cbn. by rewrite Hf.
Qed.

Lemma host_map_clearInterval id h : host_map (clearInterval id h) = clearInterval id (host_map h).
Proof. unfold clearInterval, host_map. cbn [h_now h_next_id h_timers h_listeners]. by rewrite omap_delete. Qed.

Lemma host_map_fire id h c h' d :
  fire id h = Some (c, h') -> f c = Some d -> fire id (host_map h) = Some (d, host_map h').
Proof.
  unfold fire. destruct (h_timers h !! id) as [t|] eqn:E; [|done]. intros [= <- <-] Hf.
  unfold host_map at 1. cbn [h_timers]. rewrite lookup_omap, E. cbn [mbind option_bind].
  unfold retag_timer at 1. rewrite Hf. cbn. unfold host_map. cbn [h_now h_next_id h_timers h_listeners].
  rewrite (omap_insert_Some _ _ _ _ {| t_delay := t_delay t; t_due := t_due t + t_delay t; t_cb := d |}); [done|].
  unfold retag_timer. cbn. by rewrite Hf.
Qed.

Lemma omap_retag_listener_cons x l :
  omap retag_listener (x :: l) =
  match retag_listener x with Some y => y :: omap retag_listener l | None => omap retag_listener l end.
Proof. reflexivity. Qed.

Context `{EqDecision C}.

Lemma host_map_addEventListener_other ty c h :
  f c = None -> host_map (addEventListener ty c h) = host_map h.
Proof.
  intros Hf. unfold addEventListener, host_map. cbn [h_now h_next_id h_timers h_listeners].
  destruct (js_includes (ty, c) (h_listeners h)); [done|]. unfold js_push.
  rewrite omap_app, omap_retag_listener_cons. unfold retag_listener at 2. cbn. rewrite Hf. cbn. by rewrite app_nil_r.
Qed.

Lemma host_map_removeEventListener_other ty c h :
  f c = None -> host_map (removeEventListener ty c h) = host_map h.
Proof.
  intros Hf. unfold removeEventListener, host_map. cbn [h_now h_next_id h_timers h_listeners]. f_equal.
  unfold js_filter_ne. induction (h_listeners h) as [|[ty' c'] l IH]; [done|]. cbn [List.filter].
  case_bool_decide as E; cbn [negb]; rewrite !omap_retag_listener_cons, ?IH; [|done].
  injection E as -> ->. unfold retag_listener. cbn. rewrite Hf. reflexivity.
Qed.
End HostMap.
