(* ===== verification/StageCycle.v ===== *)
(** * The pipeline stage animator ([TransformerDecoderDiagram])

    [src/components/Diagrams.tsx], lines 100-164.  The widget keeps
    [step] ([useState(0)]); an effect with an empty dependency list calls
    [setInterval(() => setStep(s => (s + 1) % 4), 2000)] and returns
    [() => clearInterval(interval)] as its cleanup.  The render highlights
    one of three boxes, two arrows and four progress dots from [step].

    Module [Stage] models the widget together with the host it registers
    its timer in: a world is the mounted widget (its [step] and the interval
    id its cleanup captured) or nothing, and the host of [Host].  Mounting,
    unmounting and the host firing a timer are the steps of [stage_step].
    The theorems show the invariant of reachable worlds (the widget owns
    exactly one 2000ms timer while mounted and the table is empty once it is
    unmounted; [step] stays in [0, 3]), the cyclic transition, that [k]
    firings leave [step = k mod 4], that no timer fires after unmount, that
    the host clock reaches [t0 + d] with [step = (d / 2000) mod 4], and the
    visual treatment of each stage. *)

From S2P Require Import Prelude Host.
From stdpp Require Import gmap strings.

Local Open Scope Z_scope.

Module Stage.

(** The only callback this widget registers: the interval's arrow function. *)
Inductive stage_cb := StageTick.

#[export] Instance stage_cb_eq_dec : EqDecision stage_cb.
Proof. solve_decision. Qed.

(** The period passed to [setInterval]. *)
Definition period : Z := 2000.

(** [s => (s + 1) % 4] *)
Definition next_step (s : Z) : Z := js_rem (s + 1) 4.

(** The mounted widget: its [step] and the id its cleanup closure holds. *)
Record widget := { step : Z; interval : Z }.

Record world := { w_widget : option widget; w_host : host stage_cb }.

Definition initial_world (t0 : Z) : world := {| w_widget := None; w_host := empty_host t0 |}.

(** Mounting: [useState(0)] and the effect's [setInterval]. *)
Definition mount (w : world) : world :=
  let '(id, h) := setInterval StageTick period (w_host w) in
  {| w_widget := Some {| step := 0; interval := id |}; w_host := h |}.

(** Unmounting: the cleanup [clearInterval(interval)]; the state is gone. *)
Definition unmount (w : world) : world :=
  match w_widget w with
  | Some ws => {| w_widget := None; w_host := clearInterval (interval ws) (w_host w) |}
  | None => w
  end.

(** Running the callback: [setStep(s => (s + 1) % 4)]; React ignores a
    state update on an unmounted component. *)
Definition run_callback (cb : stage_cb) (ws : option widget) : option widget :=
  match cb, ws with
  | StageTick, Some ws => Some {| step := next_step (step ws); interval := interval ws |}
  | StageTick, None => None
  end.

(** The host fires timer [id]. *)
Definition tick (id : Z) (w : world) : option world :=
  match fire id (w_host w) with
  | Some (cb, h) => Some {| w_widget := run_callback cb (w_widget w); w_host := h |}
  | None => None
  end.

Inductive stage_step : world -> world -> Prop :=
| st_mount w : w_widget w = None -> stage_step w (mount w)
| st_unmount w : is_Some (w_widget w) -> stage_step w (unmount w)
| st_fire w id w' : tick id w = Some w' -> stage_step w w'.

Definition reachable (t0 : Z) (w : world) : Prop := star stage_step (initial_world t0) w.

(** The host fires the widget's timer [k] times (host scheduling, from the
    HTML timer task model; each firing runs the source's callback). *)
Fixpoint ticks (k : nat) (w : world) : world :=
  match k with
  | O => w
  | S k' =>
      match w_widget w with
      | Some ws => match tick (interval ws) w with Some w' => ticks k' w' | None => w end
      | None => w
      end
  end.

(** The host runs every timer due by time [t], earliest first; [fuel]
    bounds the number of firings (host scheduling, from the HTML timer
    task model; each firing runs the source's callback). *)
Fixpoint run_until (fuel : nat) (t : Z) (w : world) : world :=
  match fuel with
  | O => w
  | S fuel' =>
      match w_widget w with
      | Some ws =>
          match h_timers (w_host w) !! interval ws with
          | Some tm =>
              if t_due tm <=? t then
                match tick (interval ws) w with Some w' => run_until fuel' t w' | None => w end
              else w
          | None => w
          end
      | None => w
      end
  end.

(** How many times the widget's interval is due by time [t]: at its due
    time and every period after it. *)
Definition firings_due (t : Z) (w : world) : nat :=
  match w_widget w with
  | Some ws =>
      match h_timers (w_host w) !! interval ws with
      | Some tm => if t_due tm <=? t then Z.to_nat ((t - t_due tm) / period + 1) else O
      | None => O
      end
  | None => O
  end.

(** The exit condition of [run_until]: the interval is not due by [t]. *)
Definition caught_up (t : Z) (w : world) : Prop :=
  match w_widget w with
  | Some ws => forall tm, h_timers (w_host w) !! interval ws = Some tm -> t < t_due tm
  | None => True
  end.

(** ** Views *)

(** The three boxes: [step === 0], [step === 1 || step === 2],
    [step === 3]. *)
Definition input_active (s : Z) : bool := s =? 0.
Definition core_active (s : Z) : bool := (s =? 1) || (s =? 2).
Definition output_active (s : Z) : bool := s =? 3.

(** The label under the core box. *)
Definition core_label (s : Z) : option string :=
  if s =? 1 then Some "Processing"%string
  else if s =? 2 then Some "Optimizing"%string else None.

(** The arrows: lit when [step >= 1] and [step >= 3]. *)
Definition arrow1_lit (s : Z) : bool := 1 <=? s.
Definition arrow2_lit (s : Z) : bool := 3 <=? s.

(** The progress dots [[0, 1, 2, 3].map(s => step === s)]. *)
Definition dots (s : Z) : list bool := map (fun d => s =? d) [0; 1; 2; 3].

(** ** Invariant *)

(** While mounted the widget owns exactly one timer, its interval, with the
    period [2000] and the arrow function as callback, due no earlier than
    the clock; [step] is one of the four stages.  Unmounted, the table is
    empty. *)
Definition stage_inv (w : world) : Prop :=
  host_wf (w_host w) /\
  match w_widget w with
  | Some ws =>
      0 <= step ws < 4 /\
      exists due, h_now (w_host w) <= due /\
        h_timers (w_host w) = {[interval ws := {| t_delay := period; t_due := due; t_cb := StageTick |}]}
  | None => h_timers (w_host w) = ∅
  end.

(** ** Lemmas *)

Lemma next_step_mod (s : Z) : 0 <= s -> next_step (s mod 4) = (s + 1) mod 4.
Proof.
  intros Hs. unfold next_step. rewrite js_rem_nonneg_mod.
  - by rewrite Zplus_mod_idemp_l.
  - pose proof (Z.mod_pos_bound s 4). lia.
  - lia.
Qed.

Lemma next_step_bound (s : Z) : 0 <= s < 4 -> 0 <= next_step s < 4.
Proof. intros Hs. rewrite <- (Z.mod_small s 4) by lia. rewrite next_step_mod by lia. apply Z.mod_pos_bound. lia. Qed.

(** Firing the owned timer advances [step] and reschedules the timer. *)
Lemma tick_owned w ws due :
  w_widget w = Some ws ->
  h_timers (w_host w) = {[interval ws := {| t_delay := period; t_due := due; t_cb := StageTick |}]} ->
  tick (interval ws) w =
  Some {| w_widget := Some {| step := next_step (step ws); interval := interval ws |};
          w_host := {| h_now := Z.max (h_now (w_host w)) due; h_next_id := h_next_id (w_host w);
                       h_timers := {[interval ws := {| t_delay := period; t_due := due + period;
                                                       t_cb := StageTick |}]};
                       h_listeners := h_listeners (w_host w) |} |}.
Proof.
  intros Hw Ht. unfold tick, fire. rewrite Ht, lookup_singleton_eq, insert_singleton_eq, Hw.
  reflexivity.
Qed.

Lemma tick_unmounted w id : stage_inv w -> w_widget w = None -> tick id w = None.
Proof.
  intros [_ Hinv] Hw. rewrite Hw in Hinv. unfold tick, fire. by rewrite Hinv, lookup_empty.
Qed.

Lemma stage_inv_initial t0 : stage_inv (initial_world t0).
Proof. split; [split; cbn; [lia | intros id [? H]; done] | done]. Qed.

Lemma stage_inv_step w w' : stage_inv w -> stage_step w w' -> stage_inv w'.
Proof.
  intros Hi Hstep. pose proof Hi as [Hwf Hinv].
  destruct Hstep as [w Hw | w [ws Hw] | w id w' Ht].
  - rewrite Hw in Hinv. unfold mount. cbn. split; [by apply (setInterval_wf StageTick period)|].
    cbn. split; [lia|]. exists (h_now (w_host w) + period). split; [unfold period; lia|].
    rewrite Hinv. reflexivity.
  - rewrite Hw in Hinv. destruct Hinv as (_ & due & _ & Ht). unfold unmount. rewrite Hw.
    split; [by apply clearInterval_wf|]. cbn. rewrite Ht. apply delete_singleton_eq.
  - destruct (w_widget w) as [ws|] eqn:Hw; [|by rewrite (tick_unmounted w id Hi Hw) in Ht].
    destruct Hinv as (Hs & due & Hnow & Htm).
    assert (id = interval ws) as ->.
    { unfold tick, fire in Ht. rewrite Htm in Ht.
      destruct (decide (id = interval ws)) as [|Hne]; [done|].
      by rewrite lookup_singleton_ne in Ht. }
    rewrite (tick_owned w ws due Hw Htm) in Ht. injection Ht as <-.
    destruct Hwf as [Hpos Hids]. split.
    + split; [exact Hpos|]. intros i Hin. apply Hids. rewrite Htm.
      destruct (decide (i = interval ws)) as [->|Hne].
      * rewrite lookup_singleton_eq. by eexists.
      * cbn in Hin. by rewrite lookup_singleton_ne in Hin.
    + cbn. split; [by apply next_step_bound|]. exists (due + period). split; [unfold period; lia|done].
Qed.

Lemma stage_inv_reachable t0 w : reachable t0 w -> stage_inv w.
Proof. intros H. eapply star_invariant; [exact stage_inv_step | exact H | apply stage_inv_initial]. Qed.

(** The world [j] firings after mounting at [t0] into an empty host. *)
Definition world_after (t0 : Z) (j : nat) : world :=
  {| w_widget := Some {| step := Z.of_nat j mod 4; interval := 1 |};
     w_host := {| h_now := t0 + Z.of_nat j * period; h_next_id := 2;
                  h_timers := {[1 := {| t_delay := period; t_due := t0 + (Z.of_nat j + 1) * period;
                                       t_cb := StageTick |}]};
                  h_listeners := [] |} |}.

Lemma mount_initial t0 : mount (initial_world t0) = world_after t0 0.
Proof. unfold world_after. cbn. repeat f_equal; lia. Qed.

Lemma tick_world_after t0 j : tick 1 (world_after t0 j) = Some (world_after t0 (S j)).
Proof.
  pose proof (tick_owned (world_after t0 j) {| step := Z.of_nat j mod 4; interval := 1 |}
                (t0 + (Z.of_nat j + 1) * period) eq_refl eq_refl) as E.
  cbn [interval] in E. rewrite E.
  unfold world_after. cbn [step interval w_host h_now h_next_id h_listeners].
  rewrite next_step_mod by lia.
  replace (Z.max (t0 + Z.of_nat j * period) (t0 + (Z.of_nat j + 1) * period))
    with (t0 + Z.of_nat (S j) * period) by (unfold period; lia).
  replace (t0 + (Z.of_nat j + 1) * period + period)
    with (t0 + (Z.of_nat (S j) + 1) * period) by lia.
  replace (Z.of_nat j + 1) with (Z.of_nat (S j)) by lia. reflexivity.
Qed.

Lemma ticks_world_after t0 j k : ticks k (world_after t0 j) = world_after t0 (j + k).
Proof.
  revert j. induction k as [|k IH]; intros j; [by rewrite Nat.add_0_r|].
  cbn [ticks w_widget world_after interval]. rewrite tick_world_after, IH. f_equal. lia.
Qed.

(** [run_until] fires the interval once per elapsed period. *)
Lemma run_until_world_after t0 d j fuel :
  0 <= d -> (j <= Z.to_nat (d / period))%nat -> (Z.to_nat (d / period) - j < fuel)%nat ->
  run_until fuel (t0 + d) (world_after t0 j) = world_after t0 (Z.to_nat (d / period)).
Proof.
  intros Hd. revert j. induction fuel as [|fuel IH]; intros j Hj Hf; [lia|].
  assert (Hq : (d / period) * period <= d) by (unfold period; pose proof (Z.mul_div_le d 2000); lia).
  cbn [run_until world_after w_widget w_host h_timers interval]. rewrite lookup_singleton_eq.
  cbn [t_due]. destruct (Z.leb_spec (t0 + (Z.of_nat j + 1) * period) (t0 + d)) as [Hle|Hgt].
  - assert (Hlt : (j < Z.to_nat (d / period))%nat).
    { destruct (decide (j = Z.to_nat (d / period))) as [->|]; [|lia].
      exfalso. rewrite Z2Nat.id in Hle by (apply Z.div_pos; unfold period; lia).
      assert (d < (d / period + 1) * period)
        by (unfold period; pose proof (Z.mod_pos_bound d 2000); pose proof (Z.div_mod d 2000); lia).
      lia. }
    fold (world_after t0 j). rewrite tick_world_after. apply IH; lia.
  - assert (j = Z.to_nat (d / period)) as ->; [|done].
    apply Nat.le_antisymm; [done|]. apply Nat2Z.inj_le.
    rewrite Z2Nat.id by (apply Z.div_pos; unfold period; lia). nia.
Qed.

Lemma reachable_world_after t0 j : reachable t0 (world_after t0 j).
Proof.
  induction j as [|j IH].
  - rewrite <- mount_initial. apply star_one. by constructor.
  - eapply star_trans; [exact IH|]. apply star_one. apply (st_fire _ 1). apply tick_world_after.
Qed.

(** One firing of a due interval leaves one firing fewer due. *)
Lemma firings_due_tick w ws due t :
  w_widget w = Some ws ->
  h_timers (w_host w) = {[interval ws := {| t_delay := period; t_due := due; t_cb := StageTick |}]} ->
  due <= t ->
  exists w', tick (interval ws) w = Some w' /\ firings_due t w = S (firings_due t w').
Proof.
  intros Hw Ht Hle. eexists. split; [exact (tick_owned w ws due Hw Ht)|].
  unfold firings_due. rewrite Hw, Ht. cbn [w_widget w_host h_timers interval t_due].
  rewrite !lookup_singleton_eq. cbn [t_due]. rewrite (proj2 (Z.leb_le due t) Hle).
  assert (Hq : 0 <= (t - due) / period) by (apply Z.div_pos; unfold period; lia).
  destruct (Z.leb_spec (due + period) t) as [Hle'|Hgt].
  - replace (t - (due + period)) with (t - due + (-1) * period) by lia.
    rewrite Z.div_add by (unfold period; lia).
    assert (1 <= (t - due) / period) by (apply Z.div_le_lower_bound; unfold period in *; lia).
    rewrite <- Z2Nat.inj_succ by lia. f_equal. lia.
  - rewrite Z.div_small by (unfold period in *; lia). reflexivity.
Qed.

(** With no firing due, [run_until] stops at once, caught up. *)
Lemma run_until_none_due fuel t w :
  stage_inv w -> firings_due t w = O -> run_until fuel t w = w /\ caught_up t w.
Proof.
  intros [_ Hinv] H0. unfold firings_due, caught_up in *.
  destruct (w_widget w) as [ws|] eqn:Hw.
  2: (split; [destruct fuel; cbn [run_until]; rewrite ?Hw; done | done]).
  destruct Hinv as (_ & due & _ & Ht). rewrite Ht, lookup_singleton_eq in H0 |- *. cbn [t_due] in H0 |- *.
  destruct (Z.leb_spec due t) as [Hle|Hgt].
  { assert (0 <= (t - due) / period) by (apply Z.div_pos; unfold period; lia). lia. }
  split; [|intros tm [= <-]; cbn; lia].
  destruct fuel; cbn [run_until]; [done|]. rewrite Hw, Ht, lookup_singleton_eq. cbn [t_due].
  by rewrite (proj2 (Z.leb_gt _ _) Hgt).
Qed.

(** [run_until] stops after exactly [firings_due] firings: with at least
    that much fuel it returns the same world, in which nothing is due, and
    keeps the invariant. *)
Lemma run_until_enough fuel t w :
  stage_inv w -> (firings_due t w <= fuel)%nat ->
  stage_inv (run_until fuel t w) /\ caught_up t (run_until fuel t w) /\
  run_until fuel t w = run_until (firings_due t w) t w.
Proof.
  revert w. induction fuel as [|fuel IH]; intros w Hi Hf.
  - assert (H0 : firings_due t w = O) by lia. rewrite H0.
    destruct (run_until_none_due 0 t w Hi H0) as [-> Hc]. done.
  - destruct (firings_due t w) as [|n] eqn:En.
    + destruct (run_until_none_due (S fuel) t w Hi En) as [-> Hc]. done.
    + pose proof Hi as [_ Hinv]. unfold firings_due in En.
      destruct (w_widget w) as [ws|] eqn:Hw; [|done].
      destruct Hinv as (_ & due & _ & Ht). rewrite Ht, lookup_singleton_eq in En. cbn [t_due] in En.
      destruct (Z.leb_spec due t) as [Hle|]; [|done].
      destruct (firings_due_tick w ws due t Hw Ht Hle) as (w' & Htk & Ef).
      assert (Hi' : stage_inv w') by (eapply stage_inv_step; [exact Hi | by econstructor]).
      assert (Hn : firings_due t w' = n).
      { unfold firings_due at 1 in Ef. rewrite Hw, Ht, lookup_singleton_eq in Ef. cbn [t_due] in Ef.
        rewrite (proj2 (Z.leb_le _ _) Hle) in Ef. rewrite En in Ef. by injection Ef. }
      cbn [run_until]. rewrite Hw, Ht, lookup_singleton_eq. cbn [t_due].
      rewrite (proj2 (Z.leb_le _ _) Hle), Htk. rewrite <- Hn. apply IH; [exact Hi'|lia].
Qed.

(** ** Theorems *)

(** C10. Resource invariant: in every world reachable from an empty host by
    mounts, unmounts and timer firings, a mounted widget is in one of the
    four stages and owns the host's only timer, which calls its arrow
    function every 2000ms; once unmounted, no timer is left. *)
Theorem stage_timer_owned t0 w :
  reachable t0 w ->
  match w_widget w with
  | Some ws => 0 <= step ws <= 3 /\ dom (h_timers (w_host w)) = {[interval ws]} /\
               exists tm, h_timers (w_host w) !! interval ws = Some tm /\
                          t_cb tm = StageTick /\ t_delay tm = 2000
  | None => h_timers (w_host w) = ∅
  end.
Proof.
  intros H. destruct (stage_inv_reachable t0 w H) as [_ Hinv].
  destruct (w_widget w) as [ws|]; [|done].
  destruct Hinv as (Hs & due & _ & Ht). rewrite Ht. split; [lia|]. split.
  - apply dom_singleton_L.
  - eexists. split; [apply lookup_singleton_eq|done].
Qed.

Lemma stage_timer_owned_witness : reachable 0 (mount (initial_world 0)) /\ w_widget (mount (initial_world 0)) <> None.
Proof.
  assert (H : reachable 0 (mount (initial_world 0))) by (apply star_one; by constructor).
  split; [exact H|].
  pose proof (stage_timer_owned 0 _ H) as Hc. discriminate.
Defined.

(** C11. The cycle: after mounting, [k] firings of the interval leave the
    widget at stage [k mod 4]; in particular four firings return to stage 0
    and no stage is skipped. *)
Theorem ticks_after_mount t0 k :
  w_widget (ticks k (mount (initial_world t0))) = Some {| step := Z.of_nat k mod 4; interval := 1 |}.
Proof. by rewrite mount_initial, ticks_world_after. Qed.

(** C12. Unmounting releases the timer: in a reachable world where the
    widget is unmounted no timer can fire, and the only step left is a new
    mount, so the stage never changes after unmount. *)
Theorem no_change_after_unmount t0 w :
  reachable t0 w -> w_widget w = None ->
  (forall id, tick id w = None) /\ (forall w', stage_step w w' -> w' = mount w).
Proof.
  intros H Hw. pose proof (stage_inv_reachable t0 w H) as Hinv.
  assert (Hn : forall id, tick id w = None) by (intros id; by apply tick_unmounted).
  split; [done|]. intros w' Hs. destruct Hs as [w _ | w [ws Hws] | w id w' Ht]; [done| |].
  - by rewrite Hw in Hws.
  - by rewrite Hn in Ht.
Qed.

Lemma no_change_after_unmount_witness :
  reachable 0 (unmount (ticks 3 (mount (initial_world 0)))) /\
  tick 1 (unmount (ticks 3 (mount (initial_world 0)))) = None.
Proof.
  assert (H : reachable 0 (unmount (ticks 3 (mount (initial_world 0))))).
  { rewrite mount_initial, ticks_world_after. eapply star_trans; [apply reachable_world_after|].
    apply star_one. constructor. by eexists. }
  split; [exact H|]. exact (proj1 (no_change_after_unmount 0 _ H eq_refl) 1).
Defined.

(** C13. Timing: when the host runs the timers due by time [t0 + d] after a
    mount at [t0], the interval has fired [d / 2000] times, the clock stands
    at the last firing and the widget shows stage [(d / 2000) mod 4];
    [d / 2000 + 1] rounds of the host loop are enough. *)
Theorem run_until_stage t0 d fuel :
  0 <= d -> (Z.to_nat (d / 2000) < fuel)%nat ->
  let w := run_until fuel (t0 + d) (mount (initial_world t0)) in
  option_map step (w_widget w) = Some ((d / 2000) mod 4) /\
  h_now (w_host w) = t0 + (d / 2000) * 2000.
Proof.
  intros Hd Hf. rewrite mount_initial, run_until_world_after by (unfold period in *; lia).
  cbn. rewrite Z2Nat.id by (apply Z.div_pos; unfold period; lia). done.
Qed.

Lemma run_until_stage_witness :
  option_map step (w_widget (run_until 10 (0 + 9000) (mount (initial_world 0)))) = Some 0.
Proof. exact (proj1 (run_until_stage 0 9000 10 ltac:(lia) ltac:(vm_compute; lia))). Defined.

(** C14. Visual treatment: in each of the four stages exactly one of the
    three boxes is highlighted, exactly one progress dot is wide, the core
    box reads "Processing" in stage 1 and "Optimizing" in stage 2, and the
    arrows light up in order (the second only in stage 3). *)
Theorem stage_view s :
  0 <= s <= 3 ->
  length (List.filter id [input_active s; core_active s; output_active s]) = 1%nat /\
  length (List.filter id (dots s)) = 1%nat /\ nth (Z.to_nat s) (dots s) false = true /\
  core_label s = (if s =? 1 then Some "Processing"%string
                  else if s =? 2 then Some "Optimizing"%string else None) /\
  arrow1_lit s = negb (input_active s) /\ arrow2_lit s = output_active s.
Proof.
  intros Hs. assert (s = 0 \/ s = 1 \/ s = 2 \/ s = 3) as Hc by lia.
  destruct_or! Hc; subst; vm_compute; repeat split.
Qed.

Lemma stage_view_witness : length (List.filter id (dots 2)) = 1%nat.
Proof. exact (proj1 (proj2 (stage_view 2 ltac:(lia)))). Defined.

(** C17. Unmounting at any point silences the widget's interval: the
    cleanup is the [clearInterval] of the [interval_effect] instance of
    [ScopedEffect], which releases the timer, and a released timer never
    fires; this holds of every world, reachable or not. *)
Theorem unmount_interval_silent w ws :
  w_widget w = Some ws -> tick (interval ws) (unmount w) = None.
Proof.
  intros Hw. unfold tick, unmount. rewrite Hw. cbn [w_host].
  rewrite (released_timer_silent StageTick period (interval ws)); [done|].
  apply (eff_cleanup_releases (ScopedEffect := interval_effect StageTick period)).
Qed.

Lemma unmount_interval_silent_witness :
  w_widget (mount (initial_world 0)) = Some {| step := 0; interval := 1 |} /\
  tick 1 (unmount (mount (initial_world 0))) = None.
Proof.
  assert (H : w_widget (mount (initial_world 0)) = Some {| step := 0; interval := 1 |}) by reflexivity.
  split; [exact H|]. exact (unmount_interval_silent _ _ H).
Defined.

(** C27. Termination of the event loop's catch-up: from every reachable
    world, running the timers due by any time [t] stops after exactly
    [firings_due t w] firings (once per period elapsed since the interval
    was due), whatever larger fuel it is given; the world it stops in has
    nothing due by [t] and still satisfies the invariant. *)
Theorem run_until_terminates t0 w t fuel :
  reachable t0 w -> (firings_due t w <= fuel)%nat ->
  caught_up t (run_until fuel t w) /\ stage_inv (run_until fuel t w) /\
  run_until fuel t w = run_until (firings_due t w) t w.
Proof.
  intros Hr Hf. destruct (run_until_enough fuel t w (stage_inv_reachable t0 w Hr) Hf) as (Hi & Hc & E).
  done.
Qed.

Lemma run_until_terminates_witness :
  reachable 0 (mount (initial_world 0)) /\ firings_due 5000 (mount (initial_world 0)) = 2%nat /\
  run_until 10 5000 (mount (initial_world 0)) = run_until 2 5000 (mount (initial_world 0)).
Proof.
  assert (Hr : reachable 0 (mount (initial_world 0))) by (apply star_one; by constructor).
  assert (Hn : firings_due 5000 (mount (initial_world 0)) = 2%nat) by reflexivity.
  split; [exact Hr|]. split; [exact Hn|].
  rewrite <- Hn at 2. exact (proj2 (proj2 (run_until_terminates 0 _ 5000 10 Hr ltac:(rewrite Hn; lia)))).
Defined.

End Stage.
