(* ===== verification/Page.v ===== *)
(** * The page: navigation state and the scroll listener ([App])

    [src/App.tsx], lines 21-82.  [App] keeps [scrolled] and [menuOpen]
    ([useState(false)] each).  An effect with an empty dependency list
    registers [handleScroll] for the window's [scroll] event, which sets
    [scrolled] to [window.scrollY > 50], and its cleanup removes it.  The
    menu button toggles [menuOpen]; a navigation link runs
    [scrollToSection(id)], which closes the menu and, when the element
    exists, asks the window to scroll to
    [element.getBoundingClientRect().top + window.pageYOffset - 80]; the logo
    asks to scroll to the top.

    Module [Nav] models the component's state, the window (its scroll
    position, the document position of each section and the last scroll
    request) and the host's listener table, with the page's events as the
    step relation [page_step], with the browser carrying out a requested
    [scrollTo] ([settle]): the target is clamped to the scrollable range
    and, as CSSOM View's "scroll a viewport" aborts when the position does
    not change, a [scroll] event is dispatched only when it does.  The
    listener effect is the [listener_effect] instance of
    [Host.ScopedEffect].  The theorems show where a navigation click
    scrolls to, the listener discipline (registered exactly once while
    mounted, gone after unmount), that [scrolled] follows every scroll
    event, and that it is not read at mount and stays stale through every
    step that leaves the window where it is. *)

From S2P Require Import Prelude Host.
From stdpp Require Import gmap strings.

Local Open Scope Z_scope.

Module Nav.

(** The only listener the page registers. *)
Inductive page_cb := HandleScroll.

#[export] Instance page_cb_eq_dec : EqDecision page_cb.
Proof. solve_decision. Defined.

(** The component's state. *)
Record app := { scrolled : bool; menuOpen : bool }.

(** The window as the page sees it: [window.scrollY] (= [pageYOffset]),
    the document offset of each section by id, the target of the last
    [window.scrollTo] call, and the largest scroll position (the document's
    height less the viewport's). *)
Record window := { scrollY : Z; sections : list (string * Z); scroll_request : option Z; max_scroll : Z }.

Record page := { p_app : option app; p_win : window; p_host : host page_cb }.

(** The fixed header's height subtracted from every target. *)
Definition headerOffset : Z := 80.

(** [useState(false)] twice. *)
Definition initial_app : app := {| scrolled := false; menuOpen := false |}.

(** [handleScroll]: [setScrolled(window.scrollY > 50)]. *)
Definition handleScroll (w : window) (a : app) : app :=
  {| scrolled := 50 <? scrollY w; menuOpen := menuOpen a |}.

(** Running the listeners a [scroll] event reaches. *)
Definition run_listener (w : window) (cb : page_cb) (a : option app) : option app :=
  match cb, a with
  | HandleScroll, Some a => Some (handleScroll w a)
  | HandleScroll, None => None
  end.

(** The effect's setup and cleanup. *)
Definition scroll_setup (h : host page_cb) : unit * host page_cb :=
  (tt, addEventListener "scroll" HandleScroll h).

Definition scroll_cleanup (_ : unit) (h : host page_cb) : host page_cb :=
  removeEventListener "scroll" HandleScroll h.

Definition mount (p : page) : page :=
  {| p_app := Some initial_app; p_win := p_win p; p_host := snd (scroll_setup (p_host p)) |}.

Definition unmount (p : page) : page :=
  {| p_app := None; p_win := p_win p; p_host := scroll_cleanup tt (p_host p) |}.

(** The window scrolls to [y] and dispatches [scroll]. *)
Definition scroll_event (y : Z) (p : page) : page :=
  let w := {| scrollY := y; sections := sections (p_win p); scroll_request := scroll_request (p_win p);
              max_scroll := max_scroll (p_win p) |} in
  {| p_app := fold_right (run_listener w) (p_app p) (listeners_for "scroll" (p_host p));
     p_win := w; p_host := p_host p |}.

(** The menu button: [setMenuOpen(!menuOpen)]. *)
Definition toggle_menu (a : app) : app := {| scrolled := scrolled a; menuOpen := negb (menuOpen a) |}.

(** [document.getElementById(id)]: the section's document offset. *)
Definition getElementById (w : window) (id : string) : option Z :=
  match List.find (fun '(k, _) => bool_decide (k = id)) (sections w) with
  | Some (_, top) => Some top
  | None => None
  end.

(** [scrollToSection(id)]: close the menu; if the element exists, scroll
    to its viewport top plus [pageYOffset] minus the header offset. *)
Definition scrollToSection (id : string) (a : app) (w : window) : app * window :=
  let a' := {| scrolled := scrolled a; menuOpen := false |} in
  match getElementById w id with
  | Some top =>
      let elementPosition := top - scrollY w in
      let offsetPosition := elementPosition + scrollY w - headerOffset in
      (a', {| scrollY := scrollY w; sections := sections w; scroll_request := Some offsetPosition;
              max_scroll := max_scroll w |})
  | None => (a', w)
  end.

(** The logo: [window.scrollTo({ top: 0 })]. *)
Definition scroll_to_top (w : window) : window :=
  {| scrollY := scrollY w; sections := sections w; scroll_request := Some 0; max_scroll := max_scroll w |}.

(** Replacing the mounted state (events only reach a mounted page). *)
Definition on_app (f : app -> window -> app * window) (p : page) : page :=
  match p_app p with
  | Some a => let '(a', w') := f a (p_win p) in {| p_app := Some a'; p_win := w'; p_host := p_host p |}
  | None => p
  end.

(** Where a [scrollTo] target leaves the window: the browser keeps the
    scroll position between the top of the document and [max_scroll]. *)
Definition clamp_scroll (w : window) (y : Z) : Z := Z.max 0 (Z.min y (max_scroll w)).

(** The browser carries out the last [scrollTo] request: the request is
    consumed and the window goes to the target, clamped; a [scroll] event
    is dispatched only if the position changes (CSSOM View: a scroll to the
    current position is aborted and fires no event). *)
Definition settle (p : page) : option page :=
  match scroll_request (p_win p) with
  | Some y =>
      let y' := clamp_scroll (p_win p) y in
      let p0 := {| p_app := p_app p;
                   p_win := {| scrollY := scrollY (p_win p); sections := sections (p_win p);
                               scroll_request := None; max_scroll := max_scroll (p_win p) |};
                   p_host := p_host p |} in
      Some (if y' =? scrollY (p_win p) then p0 else scroll_event y' p0)
  | None => None
  end.

Inductive page_step : page -> page -> Prop :=
| pg_mount p : p_app p = None -> page_step p (mount p)
| pg_unmount p : is_Some (p_app p) -> page_step p (unmount p)
| pg_scroll p y : page_step p (scroll_event y p)
| pg_menu p : page_step p (on_app (fun a w => (toggle_menu a, w)) p)
| pg_nav p id : page_step p (on_app (scrollToSection id) p)
| pg_logo p : page_step p (on_app (fun a w => (a, scroll_to_top w)) p)
| pg_settle p p' : settle p = Some p' -> page_step p p'.

(** The page's steps that leave the window where it is: mount, unmount,
    the menu button, navigation clicks and the logo (which only request a
    scroll), and the browser carrying out a request whose clamped target
    is the current position (no [scroll] event). *)
Inductive still_step : page -> page -> Prop :=
| st_mount p : p_app p = None -> still_step p (mount p)
| st_unmount p : is_Some (p_app p) -> still_step p (unmount p)
| st_menu p : still_step p (on_app (fun a w => (toggle_menu a, w)) p)
| st_nav p id : still_step p (on_app (scrollToSection id) p)
| st_logo p : still_step p (on_app (fun a w => (a, scroll_to_top w)) p)
| st_settle p p' : settle p = Some p' -> scrollY (p_win p') = scrollY (p_win p) -> still_step p p'.

Definition initial_page (w : window) (t0 : Z) : page :=
  {| p_app := None; p_win := w; p_host := empty_host t0 |}.

Definition reachable (w0 : window) (t0 : Z) (p : page) : Prop := star page_step (initial_page w0 t0) p.

(** ** Views *)

(** The navigation bar is opaque once [scrolled]; the mobile menu is shown
    and the button shows the close icon while [menuOpen]. *)
Definition nav_opaque (a : app) : bool := scrolled a.
Definition mobile_menu_shown (a : app) : bool := menuOpen a.

(** ** Invariant *)

(** The page's listener is registered exactly once while mounted and not
    at all otherwise. *)
Definition page_inv (p : page) : Prop :=
  h_listeners (p_host p) = match p_app p with Some _ => [("scroll"%string, HandleScroll)] | None => [] end.

Lemma page_inv_scroll p y : page_inv p -> page_inv (scroll_event y p).
Proof.
  unfold page_inv. intros Hi. cbn. rewrite Hi. unfold listeners_for. rewrite Hi.
  destruct (p_app p); cbn; reflexivity.
Qed.

Lemma page_inv_step p p' : page_inv p -> page_step p p' -> page_inv p'.
Proof.
  intros Hi Hs. destruct Hs as [p Hp|p [a Hp]|p y|p|p id|p|p p' Hp].
  1: (unfold page_inv in *; rewrite Hp in Hi; cbn; rewrite Hi; reflexivity).
  1: (unfold page_inv in *; rewrite Hp in Hi; cbn; rewrite Hi; cbn; by rewrite bool_decide_true).
  1: by apply page_inv_scroll.
  4: (unfold settle in Hp; destruct (scroll_request (p_win p)); [|done]; injection Hp as <-;
      try destruct (_ =? _); first [exact Hi | apply page_inv_scroll; exact Hi]).
  all: unfold page_inv, on_app in *; destruct (p_app p) as [a|] eqn:E; rewrite ?E; [|exact Hi].
  all: try destruct (scrollToSection id a (p_win p)); exact Hi.
Qed.

Lemma page_inv_reachable w0 t0 p : reachable w0 t0 p -> page_inv p.
Proof. intros H. eapply star_invariant; [exact page_inv_step | exact H | reflexivity]. Qed.

(** The mounted page's [scroll] listeners. *)
Lemma listeners_for_mounted p a :
  page_inv p -> p_app p = Some a -> listeners_for "scroll" (p_host p) = [HandleScroll].
Proof. unfold page_inv. intros Hi Ha. rewrite Ha in Hi. unfold listeners_for. by rewrite Hi. Qed.

(** ** Theorems *)

(** C18. Navigation: a click on a link to a section at document offset
    [top] closes the menu, keeps [scrolled], and asks the window to scroll
    to [top - 80] whatever the current scroll position; a link to a missing
    section only closes the menu. *)
Theorem nav_click_target p a id :
  p_app p = Some a ->
  let p' := on_app (scrollToSection id) p in
  p_app p' = Some {| scrolled := scrolled a; menuOpen := false |} /\
  scroll_request (p_win p') =
    match getElementById (p_win p) id with
    | Some top => Some (top - headerOffset)
    | None => scroll_request (p_win p)
    end.
Proof.
  intros Ha. unfold on_app. rewrite Ha. unfold scrollToSection.
  destruct (getElementById (p_win p) id) as [top|]; cbn; split; try done.
  do 2 f_equal. lia.
Qed.

Lemma nav_click_target_witness :
  let p := {| p_app := Some initial_app;
              p_win := {| scrollY := 300; sections := [("about"%string, 900)]; scroll_request := None;
                          max_scroll := 4000 |};
              p_host := empty_host 0 |} in
  p_app p = Some initial_app /\ scroll_request (p_win (on_app (scrollToSection "about"%string) p)) = Some 820.
Proof.
  intros p. split; [reflexivity|].
  exact (proj2 (nav_click_target p initial_app "about"%string eq_refl)).
Defined.

(** C19. Listener discipline: in every reachable page the [scroll]
    listener is registered exactly once while the page is mounted and no
    listener remains after unmount. *)
Theorem scroll_listener_scoped w0 t0 p :
  reachable w0 t0 p ->
  (forall a, p_app p = Some a -> h_listeners (p_host p) = [("scroll"%string, HandleScroll)]) /\
  (p_app p = None -> h_listeners (p_host p) = []).
Proof.
  intros H. pose proof (page_inv_reachable w0 t0 p H) as Hi. unfold page_inv in Hi.
  split; [intros a Ha|intros Ha]; by rewrite Ha in Hi.
Qed.

Lemma scroll_listener_scoped_witness :
  let w0 := {| scrollY := 0; sections := []; scroll_request := None; max_scroll := 0 |} in
  reachable w0 0 (unmount (mount (initial_page w0 0))) /\
  h_listeners (p_host (unmount (mount (initial_page w0 0)))) = [].
Proof.
  intros w0. assert (H : reachable w0 0 (unmount (mount (initial_page w0 0)))).
  { eapply star_step; [by constructor|]. apply star_one. constructor. by eexists. }
  split; [exact H|]. exact (proj2 (scroll_listener_scoped w0 0 _ H) eq_refl).
Defined.

(** C20. [scrolled] follows every scroll event of a mounted page: after the
    window scrolls to [y], [scrolled = (y > 50)] and the menu is unchanged. *)
Theorem scrolled_after_scroll w0 t0 p a y :
  reachable w0 t0 p -> p_app p = Some a ->
  p_app (scroll_event y p) = Some {| scrolled := 50 <? y; menuOpen := menuOpen a |}.
Proof.
  intros H Ha. unfold scroll_event. cbn [p_app].
  rewrite (listeners_for_mounted p a (page_inv_reachable w0 t0 p H) Ha), Ha. reflexivity.
Qed.

Lemma scrolled_after_scroll_witness :
  let w0 := {| scrollY := 0; sections := []; scroll_request := None; max_scroll := 0 |} in
  reachable w0 0 (mount (initial_page w0 0)) /\
  p_app (scroll_event 120 (mount (initial_page w0 0))) = Some {| scrolled := true; menuOpen := false |}.
Proof.
  intros w0. assert (H : reachable w0 0 (mount (initial_page w0 0))) by (apply star_one; by constructor).
  split; [exact H|]. exact (scrolled_after_scroll w0 0 _ initial_app 120 H eq_refl).
Defined.

Lemma still_step_page_step p p' : still_step p p' -> page_step p p'.
Proof. destruct 1; econstructor; eauto. Qed.

(** Along the steps that do not move the window, the window keeps its
    position and the mounted state keeps [scrolled = false]. *)
Lemma still_step_stale q q' :
  still_step q q' -> scrollY (p_win q) = scrollY (p_win q') /\
  ((forall a, p_app q = Some a -> scrolled a = false) -> forall a', p_app q' = Some a' -> scrolled a' = false).
Proof.
  destruct 1 as [p Hp|p Hp|p|p i|p|p p' Hs Hy].
  1,2: split; [done|]; cbn; by intros _ a' [= <-].
  1-3: unfold on_app; destruct (p_app p) as [a|] eqn:E; [|split; [done|intros _ a' Ha'; congruence]].
  - cbn. split; [done|]. intros H a' [= <-]. cbn. by apply H.
  - unfold scrollToSection. destruct (getElementById (p_win p) i); cbn;
      (split; [done|]); intros H a' [= <-]; cbn; by apply H.
  - cbn. split; [done|]. intros H a' [= <-]. by apply H.
  - unfold settle in Hs. destruct (scroll_request (p_win p)) as [y|]; [|done].
    injection Hs as <-. destruct (Z.eqb_spec (clamp_scroll (p_win p) y) (scrollY (p_win p))) as [_|Hn].
    + split; [done|auto].
    + cbn in Hy. contradiction.
Qed.

(** C21. [scrolled] is not read at mount and follows only scroll events: a
    page mounted while the window is more than 50px down (a reload in the
    middle or at the bottom of the page, or a remount) keeps the
    transparent navigation bar along every run of steps that does not move
    the window, although [handleScroll] would make it opaque: opening the
    menu, navigation clicks, the logo, remounts, and a navigation whose
    target the window is already at (a link to the last section from the
    bottom of the page fires no [scroll] event). *)
Theorem scrolled_stale_until_scroll w0 t0 p :
  50 < scrollY w0 -> star still_step (mount (initial_page w0 t0)) p ->
  reachable w0 t0 p /\ 50 < scrollY (p_win p) /\
  forall a, p_app p = Some a -> nav_opaque a = false.
Proof.
  intros Hy Hr. split.
  - eapply star_step; [by constructor|]. exact (star_mono _ _ still_step_page_step _ _ Hr).
  - cut (scrollY (p_win p) = scrollY w0 /\ forall a, p_app p = Some a -> scrolled a = false);
      [intros [-> H]; split; [done|exact H]|].
    refine (star_invariant still_step
              (fun q => scrollY (p_win q) = scrollY w0 /\ forall a, p_app q = Some a -> scrolled a = false)
              _ _ _ Hr _); [|split; [done|by intros a [= <-]]].
    intros q q' [Hq Ha] Hs. destruct (still_step_stale q q' Hs) as [Hy' Hs']. split; [congruence|auto].
Qed.

(** A reload at the bottom of the page, then a click on the link to the
    last section: its target is the bottom, the window does not move and
    the bar stays transparent. *)
Lemma scrolled_stale_until_scroll_witness :
  let w0 := {| scrollY := 400; sections := [("contact"%string, 480)]; scroll_request := None;
               max_scroll := 400 |} in
  let p1 := on_app (scrollToSection "contact"%string) (mount (initial_page w0 0)) in
  exists p2, settle p1 = Some p2 /\ 50 < scrollY (p_win p2) /\ p_app p2 = Some initial_app /\
    reachable w0 0 p2 /\ nav_opaque initial_app = false.
Proof.
  intros w0 p1. eexists. split; [reflexivity|].
  assert (Hr : star still_step (mount (initial_page w0 0))
                 {| p_app := Some initial_app; p_win := {| scrollY := 400; sections := [("contact"%string, 480)];
                                                           scroll_request := None; max_scroll := 400 |};
                    p_host := p_host (mount (initial_page w0 0)) |}).
  { eapply star_step; [apply (st_nav _ "contact"%string)|].
    eapply star_step; [apply st_settle; [reflexivity|reflexivity]|]. apply star_refl. }
  destruct (scrolled_stale_until_scroll w0 0 _ ltac:(cbn; lia) Hr) as (H1 & H2 & H3).
  split; [exact H2|]. split; [reflexivity|]. split; [exact H1|]. exact (H3 initial_app eq_refl).
Defined.

End Nav.
