(* ===== verification/App.v ===== *)
(** * The page document: what [App] renders

    [src/App.tsx], lines 11-19 and 48-333.  [App] returns one JSX tree: the
    fixed navigation bar, the mobile menu (only while [menuOpen]), the hero
    header, the seven sections of [<main>] and the footer; [SkillCard]
    renders one card of the skills section.  Module [Doc] models that tree
    as a value of [elem]: elements with their tag, the attributes that carry
    behaviour or identity ([id], [href], [style.animationDelay] and the
    [className]s that depend on the state), the click handler they attach,
    their children, the text they show, and the widgets, 3D scenes and
    icons they mount; [Empty] is the place of a child that renders nothing
    ([false] or [null]), which React keeps.  The classes that never change and the icons' sizes
    are styling and are left out; the text is kept (JSX white space
    collapsed to single spaces).

    A click handler is a [handler] value, and [dispatch] runs it as the
    event of [Page.Nav] it triggers ([scrollToSection], the logo's
    [scrollTo], the menu button).  The theorems show that the in-page links
    of every rendered state name a section that exists exactly once and
    agree with their [href]; that a click on any of them, on a window laid
    out from the document, scrolls to that section under the header; that
    the mobile menu repeats the desktop links exactly while it is open; that
    each widget is mounted once, in the sections the page assigns it; and
    which links lead nowhere. *)

From S2P Require Import Prelude Host Page.
From stdpp Require Import strings.

Module Doc.
Import Nav.

Local Open Scope string_scope.

(** The widgets of [Diagrams.tsx], the scenes of [QuantumScene] (not in the
    repository) and the [lucide-react] icons the page shows. *)
Inductive widget := SurfaceCodeDiagram | TransformerDecoderDiagram | PerformanceMetricDiagram.
Inductive scene := HeroScene | QuantumComputerScene.
Inductive icon := ArrowDown | Menu | X | BookOpen | Send | Github | Linkedin | Mail.

#[export] Instance widget_eq_dec : EqDecision widget.
Proof. solve_decision. Defined.

(** The click handlers the page attaches: [scrollToSection(id)], the logo's
    [window.scrollTo({ top: 0 })] and [setMenuOpen(!menuOpen)]. *)
Inductive handler := ScrollTo (id : string) | ScrollTop | ToggleMenu.

#[export] Instance handler_eq_dec : EqDecision handler.
Proof. solve_decision. Defined.

Inductive elem :=
| El (tag : string) (attrs : list (string * string)) (on : option handler) (children : list elem)
| Txt (s : string)
| Widget (w : widget)
| Scene (s : scene)
| Icon (i : icon)
| Empty.

(** Shorthands for elements without attributes or handler. *)
Definition div (cs : list elem) : elem := El "div" [] None cs.
Definition tagged (tag s : string) : elem := El tag [] None [Txt s].

(** A double quote inside JSX text. *)
Definition dq : string := String (Ascii.ascii_of_nat 34) EmptyString.

(** [SkillCard({ name, category, delay })], lines 11-19. *)
Definition SkillCard (name category delay : string) : elem :=
  El "div" [("style.animationDelay", delay)] None
    [tagged "h3" name; div []; tagged "p" category].

(** The class names of the bar and of the brand that depend on [scrolled]
    (lines 52 and 56). *)
Definition nav_class (scrolled : bool) : string :=
  "fixed top-0 left-0 right-0 z-50 transition-all duration-300 " ++
  (if scrolled then "bg-[#F9F8F4]/90 backdrop-blur-md shadow-sm py-4" else "bg-transparent py-6").

Definition brand_class (scrolled : bool) : string :=
  "font-serif font-bold text-lg tracking-wide transition-opacity " ++
  (if scrolled then "opacity-100" else "opacity-0 md:opacity-100").

(** An in-page link: [<a href="#id" onClick={scrollToSection('id')}>]. *)
Definition section_link (id label : string) : elem :=
  El "a" [("href", "#" ++ id)] (Some (ScrollTo id)) [Txt label].

(** The four links, shared by the bar (lines 61-66) and the mobile menu
    (lines 76-81). *)
Definition nav_links : list elem :=
  [section_link "about" "Tentang Saya"; section_link "projects" "Proyek";
   section_link "skills" "Keahlian"; section_link "contact" "Kontak"].

(** The navigation bar, lines 51-72. *)
Definition navigation (a : app) : elem :=
  El "nav" [("className", nav_class (scrolled a))] None
    [div [El "div" [] (Some ScrollTop)
            [tagged "div" "F";
             El "span" [("className", brand_class (scrolled a))] None
               [Txt "FAJAR WIJAYA "; tagged "span" "DEV"]];
          div nav_links;
          El "button" [] (Some ToggleMenu) [Icon (if menuOpen a then X else Menu)]]].

(** [{menuOpen && (<div> ... </div>)}], lines 74-82: [false] renders
    nothing but keeps its place among the children ([Empty]). *)
Definition mobile_menu (a : app) : elem :=
  if menuOpen a then div nav_links else Empty.

(** The hero header, lines 84-111. *)
Definition hero : elem :=
  El "header" [] None
    [Scene HeroScene; div [];
     div [tagged "div" "Portfolio 2024";
          El "h1" [] None [Txt "Halo, Saya Fajar "; El "br" [] None [];
                           tagged "span" "Creative Technologist & Full Stack Developer"];
          tagged "p" "Menggabungkan logika manusia dengan imajinasi komputer untuk menciptakan pengalaman digital yang bermakna.";
          div [El "a" [("href", "#about")] (Some (ScrollTo "about"))
                 [tagged "span" "JELAJAHI KARYA SAYA"; El "span" [] None [Icon ArrowDown]]]]].

(** The section [id="about"], lines 114-131. *)
Definition about_section : elem :=
  El "section" [("id", "about")] None
    [div [div [tagged "div" "Tentang Saya"; tagged "h2" "Membangun Solusi Digital"; div []];
          div [El "p" [] None
                 [tagged "span" "S";
                  Txt "aya adalah seorang pengembang perangkat lunak yang berfokus pada performa dan pengalaman pengguna. Dengan latar belakang di teknik informatika dan kecintaan pada seni visual, saya percaya bahwa kode yang baik haruslah seindah hasil akhirnya."];
               El "p" [] None
                 [Txt "Saya memiliki spesialisasi dalam membangun aplikasi web modern yang responsif, sistem backend yang skalabel, dan visualisasi data interaktif. Portofolio ini sendiri adalah demonstrasi dari filosofi desain saya: ";
                  tagged "strong" "bersih, fungsional, dan elegan"; Txt "."]]]].

(** A row of technology tags. *)
Definition tags (ts : list string) : elem := div (map (tagged "span") ts).

(** The section [id="projects"] with the parity diagram, lines 133-161. *)
Definition projects_section : elem :=
  El "section" [("id", "projects")] None
    [div [div [div [El "div" [] None [Icon BookOpen; Txt " STUDI KASUS #1"];
                    tagged "h2" "Sistem Monitoring Jaringan";
                    tagged "p" ("Sebuah dashboard real-time yang dirancang untuk memantau kesehatan server dalam arsitektur mikroservis. Sistem ini secara otomatis mendeteksi anomali dan " ++ dq ++ "load balancing" ++ dq ++ " secara cerdas.");
                    El "p" [] None
                      [tagged "strong" "Tantangan:"; Txt " Menangani ribuan request per detik tanpa lag UI."; El "br" [] None [];
                       tagged "strong" "Solusi:"; Txt " Menggunakan WebSocket dan algoritma deteksi pola terdistribusi untuk memvisualisasikan status node secara instan."];
                    tags ["React"; "TypeScript"; "Node.js"]];
               div [Widget SurfaceCodeDiagram]]]].

(** The pipeline section (no id) with the stage animator, lines 163-195. *)
Definition pipeline_section : elem :=
  El "section" [] None
    [div [div []; div []];
     div [div [div [Widget TransformerDecoderDiagram];
               div [tagged "div" "STUDI KASUS #2";
                    tagged "h2" "Otomatisasi Pipeline Data";
                    El "p" [] None
                      [Txt "Merancang arsitektur pipeline data yang memproses input mentah menjadi insight bisnis yang berharga. Menggunakan pendekatan ";
                       tagged "strong" "Event-Driven Architecture"; Txt "."];
                    tagged "p" "Sistem ini mengelola alur data dari berbagai sumber, melakukan transformasi kompleks, dan menyimpannya dengan aman, mengurangi waktu pemrosesan manual hingga 80%.";
                    tags ["Python"; "Kafka"; "AWS"]]]]].

(** The results section (no id) with the metric chart, lines 197-210. *)
Definition results_section : elem :=
  El "section" [] None
    [div [div [tagged "h2" "Hasil Nyata & Optimasi";
               tagged "p" "Saya tidak hanya menulis kode, saya memberikan hasil. Berikut adalah perbandingan metrik performa dari proyek e-commerce klien sebelum dan sesudah optimasi sistem yang saya lakukan."];
          div [Widget PerformanceMetricDiagram]]].

(** One job of the experience list. *)
Definition job (title place text : string) : elem :=
  div [tagged "h3" title; tagged "p" place; tagged "p" text].

(** The experience section (no id), lines 212-249. *)
Definition experience_section : elem :=
  El "section" [] None
    [div [div [div [Scene QuantumComputerScene;
                    tagged "div" "Simulasi Server Room & Hardware Integration"]];
          div [tagged "div" "PENGALAMAN"; tagged "h2" "Perjalanan Karir";
               div [job "Senior Frontend Engineer" "Tech Startup Unicorn • 2022 - Sekarang"
                      "Memimpin tim frontend dalam mengembangkan dashboard analitik yang digunakan oleh lebih dari 500 perusahaan enterprise.";
                    job "Full Stack Developer" "Digital Agency Jakarta • 2020 - 2022"
                      "Mengerjakan berbagai proyek klien mulai dari e-commerce hingga company profile dengan fokus pada SEO dan performa."];
               div [tagged "p" (dq ++ "Fajar memiliki kemampuan unik untuk menerjemahkan kebutuhan bisnis yang kompleks menjadi solusi teknis yang sederhana dan elegan." ++ dq);
                    tagged "span" "— Klien E-Commerce, 2023"]]]].

(** The six cards of the skills section, lines 260-291, in order. *)
Definition skill_cards : list (string * string * string) :=
  [("React & Next.js", "Frontend Development", "0s");
   ("TypeScript", "Language", "0.1s");
   ("Node.js & Go", "Backend Systems", "0.2s");
   ("Three.js / WebGL", "Creative Coding", "0.3s");
   ("AWS & Docker", "DevOps & Cloud", "0.4s");
   ("UI/UX Design", "Figma & Prototyping", "0.5s")].

(** The section [id="skills"], lines 251-293. *)
Definition skills_section : elem :=
  El "section" [("id", "skills")] None
    [div [div [tagged "div" "KEAHLIAN"; tagged "h2" "Tech Stack";
               tagged "p" "Teknologi yang saya gunakan untuk membangun masa depan digital."];
          div (map (fun '(n, c, d) => SkillCard n c d) skill_cards)]].

(** A link without handler. *)
Definition plain_link (href : string) (cs : list elem) : elem := El "a" [("href", href)] None cs.

(** The section [id="contact"], lines 295-315. *)
Definition contact_section : elem :=
  El "section" [("id", "contact")] None
    [div [tagged "h2" "Mari Bekerja Sama";
          tagged "p" "Apakah Anda memiliki proyek menarik atau ingin mendiskusikan ide? Saya selalu terbuka untuk tantangan baru.";
          plain_link "mailto:hello@fajar.dev" [Icon Send; Txt " KIRIM EMAIL"];
          div [plain_link "#" [Icon Github]; plain_link "#" [Icon Linkedin]; plain_link "#" [Icon Mail]]]].

(** The footer, lines 319-330. *)
Definition footer : elem :=
  El "footer" [] None
    [div [div [tagged "div" "Fajar.dev"; tagged "p" "© 2024 Fajar Portofolio. All rights reserved."];
          div [plain_link "#" [Txt "Privacy"]; plain_link "#" [Txt "Terms"]]]].

(** [App]'s render, lines 48-333, for the state [a]. *)
Definition App (a : app) : elem :=
  El "div" [] None
    [navigation a; mobile_menu a; hero;
      El "main" [] None
        [about_section; projects_section; pipeline_section; results_section;
         experience_section; skills_section; contact_section];
      footer].

(** ** Reading the document *)

(** Every element of the tree, in document order (pre-order). *)
Fixpoint elems (e : elem) : list elem :=
  e :: match e with
       | El _ _ _ cs => (fix go (cs : list elem) : list elem :=
                           match cs with [] => [] | c :: cs' => (elems c ++ go cs')%list end) cs
       | _ => []
       end.

(** An attribute of an element. *)
Definition attr (k : string) (e : elem) : option string :=
  match e with
  | El _ attrs _ _ => snd <$> List.find (fun '(k', _) => bool_decide (k' = k)) attrs
  | _ => None
  end.

(** The [id]s of the document, in order. *)
Definition doc_ids (d : elem) : list string := omap (attr "id") (elems d).

(** The links of the document: [href] and click handler. *)
Definition anchors (d : elem) : list (string * option handler) :=
  omap (fun e => match e with
                 | El tag _ on _ => if bool_decide (tag = "a") then (fun h => (h, on)) <$> attr "href" e else None
                 | _ => None
                 end) (elems d).

(** The widgets mounted, in document order. *)
Definition widgets (d : elem) : list widget :=
  omap (fun e => match e with Widget w => Some w | _ => None end) (elems d).

(** The widgets with the path that leads to them: for each ancestor its tag
    and the position of the next child.  React keeps a component instance
    (and its state and effects) across renders exactly while this path
    stays the same. *)
Fixpoint widget_paths (e : elem) : list (list (string * nat) * widget) :=
  match e with
  | Widget w => [([], w)]
  | El tag _ _ cs =>
      (fix go (i : nat) (cs : list elem) : list (list (string * nat) * widget) :=
         match cs with
         | [] => []
         | c :: cs' => (map (fun '(path, w) => ((tag, i) :: path, w)) (widget_paths c) ++ go (S i) cs')%list
         end) 0 cs
  | _ => []
  end.

(** A click runs the handler as the event of [Page.Nav] it triggers. *)
Definition dispatch (h : handler) (p : page) : page :=
  match h with
  | ScrollTo id => on_app (scrollToSection id) p
  | ScrollTop => on_app (fun a w => (a, scroll_to_top w)) p
  | ToggleMenu => on_app (fun a w => (toggle_menu a, w)) p
  end.

(** A window whose sections are the document's, the section [id] at the
    document offset [top id], scrollable down to [ymax]. *)
Definition layout (d : elem) (top : string -> Z) (y : Z) (req : option Z) (ymax : Z) : window :=
  {| scrollY := y; sections := map (fun id => (id, top id)) (doc_ids d); scroll_request := req;
     max_scroll := ymax |}.

(** How many elements carry the [id]. *)
Definition count_id (id : string) (ids : list string) : nat :=
  length (List.filter (fun x => bool_decide (x = id)) ids).

(** Every link with [scrollToSection(id)] has [href="#id"] and [id] names
    exactly one element. *)
Definition links_resolve (d : elem) : bool :=
  forallb (fun '(href, on) =>
             match on with
             | Some (ScrollTo id) => bool_decide (href = "#" ++ id) && Nat.eqb (count_id id (doc_ids d)) 1
             | _ => true
             end) (anchors d).

(** ** Lemmas *)

Lemma links_resolve_spec d href id :
  links_resolve d = true -> (href, Some (ScrollTo id)) ∈ anchors d ->
  href = "#" ++ id /\ count_id id (doc_ids d) = 1.
Proof.
  unfold links_resolve. rewrite forallb_forall. intros H Hin%list_elem_of_In.
  apply H, andb_prop in Hin as [H1 H2]. split; [exact (bool_decide_eq_true_1 _ H1) | exact (proj1 (Nat.eqb_eq _ _) H2)].
Qed.

Lemma count_id_elem id ids : count_id id ids = 1 -> id ∈ ids.
Proof.
  unfold count_id. induction ids as [|x ids IH]; cbn; [done|].
  case_bool_decide as E; [subst; left|]. intros H. right. by apply IH.
Qed.

(** [getElementById] on a window laid out from a list of ids. *)
Lemma getElementById_layout (w : window) (top : string -> Z) ids id :
  sections w = map (fun i => (i, top i)) ids -> id ∈ ids -> getElementById w id = Some (top id).
Proof.
  unfold getElementById. intros -> Hin. induction ids as [|i ids IH]; [by apply elem_of_nil in Hin|].
  cbn. case_bool_decide as E; [by subst|]. apply elem_of_cons in Hin as [->|Hin]; [done|]. by apply IH.
Qed.

(** The check on every rendered state (the document depends on the state
    only through [scrolled] and [menuOpen]). *)
Lemma App_links_resolve a : links_resolve (App a) = true.
Proof. destruct a as [[] []]; vm_compute; reflexivity. Qed.

Lemma widget_paths_App a : widget_paths (App a) = widget_paths (App initial_app).
Proof. destruct a as [[] []]; vm_compute; reflexivity. Qed.

(** ** Theorems *)

(** C22. Link integrity: in every rendered state of the page, a link whose
    click runs [scrollToSection(id)] has [href="#id"], and [id] is the
    [id] of exactly one element of the document, so the handler and the
    fallback [href] lead to the same, unambiguous section. *)
Theorem in_page_links_resolve a href id :
  (href, Some (ScrollTo id)) ∈ anchors (App a) ->
  href = "#" ++ id /\ count_id id (doc_ids (App a)) = 1.
Proof. apply links_resolve_spec, App_links_resolve. Qed.

Lemma in_page_links_resolve_witness :
  let a := {| scrolled := true; menuOpen := true |} in
  ("#contact", Some (ScrollTo "contact")) ∈ anchors (App a) /\
  count_id "contact" (doc_ids (App a)) = 1.
Proof.
  intros a. assert (H : ("#contact", Some (ScrollTo "contact")) ∈ anchors (App a)) by decide_by_compute.
  split; [exact H|]. exact (proj2 (in_page_links_resolve a _ _ H)).
Defined.

(** C23. The rendered page and [scrollToSection] together: on a mounted page
    whose window lays out the document's sections (section [id] at document
    offset [top id]), a click on any in-page link of the rendered page
    closes the menu, keeps [scrolled], and asks the window to scroll to
    [top id - 80], wherever the window is scrolled. *)
Theorem link_click_scrolls p a top href id :
  p_app p = Some a ->
  sections (p_win p) = map (fun i => (i, top i)) (doc_ids (App a)) ->
  (href, Some (ScrollTo id)) ∈ anchors (App a) ->
  p_app (dispatch (ScrollTo id) p) = Some {| scrolled := scrolled a; menuOpen := false |} /\
  scroll_request (p_win (dispatch (ScrollTo id) p)) = Some (top id - headerOffset)%Z.
Proof.
  intros Ha Hs Hl. destruct (links_resolve_spec _ _ _ (App_links_resolve a) Hl) as [_ Hc].
  cbn [dispatch]. unfold on_app, scrollToSection. rewrite Ha.
  rewrite (getElementById_layout _ _ _ _ Hs (count_id_elem _ _ Hc)). cbn. split; [done|]. do 2 f_equal. lia.
Qed.

Lemma link_click_scrolls_witness :
  let top := fun id : string => if bool_decide (id = "skills") then 2400%Z else 0%Z in
  let p := {| p_app := Some initial_app; p_win := layout (App initial_app) top 300 None 6000;
              p_host := empty_host 0 |} in
  p_app p = Some initial_app /\
  sections (p_win p) = map (fun i => (i, top i)) (doc_ids (App initial_app)) /\
  ("#skills", Some (ScrollTo "skills")) ∈ anchors (App initial_app) /\
  scroll_request (p_win (dispatch (ScrollTo "skills") p)) = Some 2320%Z.
Proof.
  intros top p.
  assert (H1 : p_app p = Some initial_app) by reflexivity.
  assert (H2 : sections (p_win p) = map (fun i => (i, top i)) (doc_ids (App initial_app))) by reflexivity.
  assert (H3 : ("#skills", Some (ScrollTo "skills")) ∈ anchors (App initial_app)) by decide_by_compute.
  split; [exact H1|]. split; [exact H2|]. split; [exact H3|].
  rewrite (proj2 (link_click_scrolls p initial_app top _ _ H1 H2 H3)). reflexivity.
Defined.

(** C24. The links of the page, in every state: the four section links of
    the bar, the same four again exactly while the mobile menu is open, the
    hero's link to [about], the [mailto:] link, and five links with
    [href="#"] and no handler (the three social icons and the footer's
    Privacy and Terms), which lead back to the top of the page. *)
Theorem page_links a :
  let nav := map (fun id => ("#" ++ id, Some (ScrollTo id))) ["about"; "projects"; "skills"; "contact"] in
  anchors (App a) =
    (nav ++ (if menuOpen a then nav else []) ++
     [("#about", Some (ScrollTo "about")); ("mailto:hello@fajar.dev", None)] ++
     repeat ("#", None) 5)%list.
Proof. destruct a as [[] []]; vm_compute; reflexivity. Qed.

(** C25. The widgets survive every change of the page's state: each of the
    three widgets is mounted exactly once, in the order parity diagram,
    stage animator, metric chart, and at the same position (same ancestors,
    same child indices) in every rendered state, so scrolling, opening the
    menu or navigating never remounts a widget: its state and its interval
    persist. *)
Theorem widgets_kept a a' :
  widget_paths (App a) = widget_paths (App a') /\
  map snd (widget_paths (App a)) = [SurfaceCodeDiagram; TransformerDecoderDiagram; PerformanceMetricDiagram].
Proof. rewrite (widget_paths_App a), (widget_paths_App a'). split; reflexivity. Qed.

End Doc.
