(* ===== verification/Composition.v ===== *)
(** * The whole page: [App] and its widgets in one browser host

    [src/App.tsx] mounts the three widgets of [src/components/Diagrams.tsx]
    inside its own tree (lines 157, 174 and 207), so the page is one React
    root whose parts mount and unmount together and share one browser
    host: the interval of [TransformerDecoderDiagram] (Diagrams.tsx lines
    103-108) and the scroll listener of [App] (App.tsx lines 25-29) are
    registered in the same timer and listener tables.  Module [Site] models
    that whole: the state of [App], the window, the state of each widget
    and one host whose callbacks are those of the stage or of the page
    ([app_cb]).

    Mounting runs the effects children first (React runs a child's
    [useEffect] before its parent's): the stage's [setInterval], then
    [App]'s [addEventListener]; unmounting runs the cleanups parent first.
    The events are those of the components: scroll, the page's click
    handlers (only those of the rendered document, [Doc.App]), clicks on
    the parity diagram's nodes and on the chart's buttons, and the host
    firing a timer.

    [stage_of] is the stage animator's view of the whole page: its state
    and the part of the host it owns ([Host.host_map]).  The theorems show
    that this projection is a stuttering simulation of [Stage.stage_step]
    (every step of the page is a step of the animator or leaves its view
    unchanged), so every reachable page projects to a reachable animator
    and the animator's invariant holds inside the page; that [page_of],
    [App]'s view, likewise refines [Nav.page_step] up to [page_equiv]
    (equality except for the host's clock and id counter, which [App] never
    reads); that the page as a whole owns exactly the interval and the
    scroll listener while mounted and nothing after unmount; that a link
    click followed by the scroll it requests updates [scrolled] when the
    window moves; and that the parity diagram's and the chart's states
    exist exactly while mounted and are reachable by each widget alone. *)

From S2P Require Import Prelude Host Parity StageCycle MetricChart Page App.
From stdpp Require Import gmap strings.

Local Open Scope Z_scope.

Module Site.

#[local] Existing Instance Doc.handler_eq_dec.
#[local] Existing Instance Nav.page_cb_eq_dec.

(** The callbacks the page registers in the host. *)
Inductive app_cb := CbStage (c : Stage.stage_cb) | CbPage (c : Nav.page_cb).

#[export] Instance app_cb_eq_dec : EqDecision app_cb.
Proof. intros [[]|[]] [[]|[]]; [left|right|right|left]; congruence. Defined.

Definition to_stage (c : app_cb) : option Stage.stage_cb :=
  match c with CbStage s => Some s | CbPage _ => None end.

Definition to_page (c : app_cb) : option Nav.page_cb :=
  match c with CbPage s => Some s | CbStage _ => None end.

(** The mounted page: [App]'s state and window, the [errors] of the parity
    diagram, the stage animator and the selected metric ([None] while
    unmounted), and the shared host. *)
Record world := {
  a_app : option Nav.app;
  a_win : Nav.window;
  a_errors : option (list Z);
  a_stage : option Stage.widget;
  a_metric : option Chart.metric;
  a_host : host app_cb
}.

Definition initial_world (win : Nav.window) (t0 : Z) : world :=
  {| a_app := None; a_win := win; a_errors := None; a_stage := None; a_metric := None;
     a_host := empty_host t0 |}.

(** Mounting the root: every [useState] initialiser, then the effects,
    children first: the stage's [setInterval], then [App]'s
    [addEventListener('scroll', handleScroll)]. *)
Definition mount_all (w : world) : world :=
  let '(id, h1) := setInterval (CbStage Stage.StageTick) Stage.period (a_host w) in
  {| a_app := Some Nav.initial_app; a_win := a_win w; a_errors := Some [];
     a_stage := Some {| Stage.step := 0; Stage.interval := id |};
     a_metric := Some Chart.initial_metric;
     a_host := addEventListener "scroll" (CbPage Nav.HandleScroll) h1 |}.

(** Unmounting the root: the cleanups, parent first: [App]'s
    [removeEventListener], then the stage's [clearInterval(interval)]. *)
Definition unmount_all (w : world) : world :=
  let h1 := removeEventListener "scroll" (CbPage Nav.HandleScroll) (a_host w) in
  {| a_app := None; a_win := a_win w; a_errors := None; a_stage := None; a_metric := None;
     a_host := match a_stage w with Some ws => clearInterval (Stage.interval ws) h1 | None => h1 end |}.

(** A listener of the shared host run on [App]'s state. *)
Definition run_app_cb (win : Nav.window) (cb : app_cb) (a : option Nav.app) : option Nav.app :=
  match cb with CbPage c => Nav.run_listener win c a | CbStage _ => a end.

(** The window scrolls to [y] and dispatches [scroll] to the host's
    listeners. *)
Definition scroll_event (y : Z) (w : world) : world :=
  let win := {| Nav.scrollY := y; Nav.sections := Nav.sections (a_win w);
                Nav.scroll_request := Nav.scroll_request (a_win w); Nav.max_scroll := Nav.max_scroll (a_win w) |} in
  {| a_app := fold_right (run_app_cb win) (a_app w) (listeners_for "scroll" (a_host w));
     a_win := win; a_errors := a_errors w; a_stage := a_stage w; a_metric := a_metric w;
     a_host := a_host w |}.

(** [App]'s part of the page, and writing it back (its click handlers do
    not touch the host). *)
Definition page_of (w : world) : Nav.page :=
  {| Nav.p_app := a_app w; Nav.p_win := a_win w; Nav.p_host := host_map to_page (a_host w) |}.

Definition with_page (w : world) (p : Nav.page) : world :=
  {| a_app := Nav.p_app p; a_win := Nav.p_win p; a_errors := a_errors w; a_stage := a_stage w;
     a_metric := a_metric w; a_host := a_host w |}.

(** The click handlers present in a rendered document. *)
Definition rendered_handlers (d : Doc.elem) : list Doc.handler :=
  omap (fun e => match e with Doc.El _ _ on _ => on | _ => None end) (Doc.elems d).

(** The host fires timer [id]; a stage callback runs [setStep]. *)
Definition fire_app (id : Z) (w : world) : option world :=
  match fire id (a_host w) with
  | Some (cb, h) =>
      Some {| a_app := a_app w; a_win := a_win w; a_errors := a_errors w;
              a_stage := match cb with CbStage c => Stage.run_callback c (a_stage w) | CbPage _ => a_stage w end;
              a_metric := a_metric w; a_host := h |}
  | None => None
  end.

(** The browser carries out a requested [window.scrollTo]: the request is
    consumed, the window goes to the target clamped to the scrollable range
    and dispatches [scroll] if its position changed (the smooth animation
    is not modelled). *)
Definition settle_scroll (w : world) : option world :=
  match Nav.scroll_request (a_win w) with
  | Some y =>
      let y' := Nav.clamp_scroll (a_win w) y in
      let w0 := {| a_app := a_app w;
                   a_win := {| Nav.scrollY := Nav.scrollY (a_win w); Nav.sections := Nav.sections (a_win w);
                               Nav.scroll_request := None; Nav.max_scroll := Nav.max_scroll (a_win w) |};
                   a_errors := a_errors w; a_stage := a_stage w; a_metric := a_metric w;
                   a_host := a_host w |} in
      Some (if y' =? Nav.scrollY (a_win w) then w0 else scroll_event y' w0)
  | None => None
  end.

Definition set_errors (e : list Z) (w : world) : world :=
  {| a_app := a_app w; a_win := a_win w; a_errors := Some e; a_stage := a_stage w;
     a_metric := a_metric w; a_host := a_host w |}.

Definition set_metric (m : Chart.metric) (w : world) : world :=
  {| a_app := a_app w; a_win := a_win w; a_errors := a_errors w; a_stage := a_stage w;
     a_metric := Some m; a_host := a_host w |}.

Inductive site_step : world -> world -> Prop :=
| site_mount w : a_app w = None -> site_step w (mount_all w)
| site_unmount w : is_Some (a_app w) -> site_step w (unmount_all w)
| site_scroll w y : site_step w (scroll_event y w)
| site_click w a h : a_app w = Some a -> h ∈ rendered_handlers (Doc.App a) ->
    site_step w (with_page w (Doc.dispatch h (page_of w)))
| site_node w e q : a_errors w = Some e -> q ∈ SurfaceCode.nodes ->
    site_step w (set_errors (SurfaceCode.toggleError (SurfaceCode.node_id q) e) w)
| site_metric w m k label : a_metric w = Some m -> (k, label) ∈ Chart.buttons ->
    site_step w (set_metric k w)
| site_fire w id w' : fire_app id w = Some w' -> site_step w w'
| site_settle w w' : settle_scroll w = Some w' -> site_step w w'.

Definition reachable (win : Nav.window) (t0 : Z) (w : world) : Prop :=
  star site_step (initial_world win t0) w.

(** The stage animator's view of the page. *)
Definition stage_of (w : world) : Stage.world :=
  {| Stage.w_widget := a_stage w; Stage.w_host := host_map to_stage (a_host w) |}.

(** ** Invariant *)

(** Every timer of the host is the stage's. *)
Definition timers_stage_only (h : host app_cb) : Prop :=
  map_Forall (fun _ t => is_Some (to_stage (t_cb t))) (h_timers h).

(** The page's parts are mounted together, all timers are the stage's, and
    the scroll listener is registered exactly while mounted. *)
Definition site_inv (w : world) : Prop :=
  timers_stage_only (a_host w) /\
  (a_app w = None <-> a_stage w = None) /\
  h_listeners (a_host w) =
    match a_app w with Some _ => [("scroll"%string, CbPage Nav.HandleScroll)] | None => [] end.

(** ** Lemmas *)

Lemma fire_lookup {C} `{EqDecision C} id (h : host C) cb h' :
  fire id h = Some (cb, h') -> exists t, h_timers h !! id = Some t /\ cb = t_cb t /\
    h_timers h' = <[id := {| t_delay := t_delay t; t_due := t_due t + t_delay t; t_cb := t_cb t |}]> (h_timers h) /\
    h_listeners h' = h_listeners h.
Proof. unfold fire. destruct (h_timers h !! id) as [t|]; [|done]. intros [= <- <-]. by exists t. Qed.

(** Running the scroll listeners keeps [App] mounted or unmounted. *)
Lemma fold_run_app_cb_none win l a :
  fold_right (run_app_cb win) a l = None <-> a = None.
Proof.
  induction l as [|[[]|[]] l IH]; cbn [fold_right run_app_cb]; [done|exact IH|].
  unfold Nav.run_listener. destruct (fold_right (run_app_cb win) a l) eqn:E.
  - split; [done|]. intros Ha%IH. congruence.
  - split; [intros _; by apply IH|done].
Qed.

(** A click handler keeps [App] mounted or unmounted. *)
Lemma dispatch_none h p : Nav.p_app (Doc.dispatch h p) = None <-> Nav.p_app p = None.
Proof.
  destruct h; cbn [Doc.dispatch]; unfold Nav.on_app; destruct (Nav.p_app p) as [a|] eqn:E; rewrite ?E; try done.
  destruct (Nav.scrollToSection id a (Nav.p_win p)). done.
Qed.

(** The listeners follow [App]'s mount state; the other events keep it. *)
Lemma listeners_same_mount (w w' : world) :
  site_inv w -> a_host w' = a_host w -> (a_app w' = None <-> a_app w = None) ->
  h_listeners (a_host w') =
    match a_app w' with Some _ => [("scroll"%string, CbPage Nav.HandleScroll)] | None => [] end.
Proof.
  intros (_ & _ & Hl) -> Hn. rewrite Hl. destruct (a_app w), (a_app w'); naive_solver.
Qed.

Lemma site_inv_initial win t0 : site_inv (initial_world win t0).
Proof. split; [apply map_Forall_empty|]. split; done. Qed.

Lemma site_inv_scroll w y : site_inv w -> site_inv (scroll_event y w).
Proof.
  intros Hi. pose proof Hi as (Ht & Hm & _). split; [exact Ht|]. split.
  - cbn [scroll_event a_app a_stage]. rewrite fold_run_app_cb_none. exact Hm.
  - exact (listeners_same_mount w (scroll_event y w) Hi eq_refl (fold_run_app_cb_none _ _ _)).
Qed.

Lemma site_inv_step w w' : site_inv w -> site_step w w' -> site_inv w'.
Proof.
  intros Hi Hs. pose proof Hi as (Ht & Hm & Hl).
  destruct Hs as [w Ha|w [a Ha]|w y|w a h Ha _|w e q _ _|w m k label _ _|w id w' Hf|w w' Hf].
  - rewrite Ha in Hl. unfold mount_all, setInterval. cbn. split; [|split; [done|]].
    + apply map_Forall_insert_2; [by eexists|exact Ht].
    + unfold addEventListener. cbn. by rewrite Hl.
  - destruct (a_stage w) as [ws|] eqn:Hst; [|rewrite Ha in Hm; by destruct Hm as [_ Hm]; specialize (Hm eq_refl)].
    rewrite Ha in Hl. unfold unmount_all. rewrite Hst. split; [|split; [done|]].
    + apply map_Forall_delete, Ht.
    + cbn. rewrite Hl. cbn. by rewrite bool_decide_true.
  - by apply site_inv_scroll.
  - split; [exact Ht|]. cbn. rewrite dispatch_none. split; [exact Hm|].
    exact (listeners_same_mount w (with_page w (Doc.dispatch h (page_of w))) Hi eq_refl (dispatch_none _ _)).
  - done.
  - done.
  - unfold fire_app in Hf. destruct (fire id (a_host w)) as [[cb h]|] eqn:F; [|done]. injection Hf as <-.
    destruct (fire_lookup id _ _ _ F) as (t & Hid & -> & Hth & Hlh).
    split; [|split]; cbn [a_host a_app a_stage].
    + unfold timers_stage_only. rewrite Hth. apply map_Forall_insert_2; [exact (Ht id t Hid)|exact Ht].
    + destruct (t_cb t) as [[]|]; [|exact Hm]. destruct (a_stage w); cbn; naive_solver.
    + by rewrite Hlh.
  - unfold settle_scroll in Hf. destruct (Nav.scroll_request (a_win w)) as [y|]; [|done].
    injection Hf as <-. destruct (_ =? _); [exact Hi|by apply site_inv_scroll].
Qed.

Lemma site_inv_reachable win t0 w : reachable win t0 w -> site_inv w.
Proof. intros H. eapply star_invariant; [exact site_inv_step | exact H | apply site_inv_initial]. Qed.




Lemma stage_of_initial win t0 : stage_of (initial_world win t0) = Stage.initial_world t0.
Proof. unfold stage_of, host_map. cbn. by rewrite omap_empty. Qed.

(** Each step of the page is a step of the stage animator's view, or leaves
    it unchanged. *)
Lemma stage_sim w w' :
  site_inv w -> site_step w w' -> Stage.stage_step (stage_of w) (stage_of w') \/ stage_of w = stage_of w'.
Proof.
  intros (Ht & Hm & _) Hs.
  destruct Hs as [w Ha|w [a Ha]|w y|w a h _ _|w e q _ _|w m k label _ _|w id w' Hf|w w' Hf];
    try (right; reflexivity).
  - left. replace (stage_of (mount_all w)) with (Stage.mount (stage_of w)).
    + constructor. cbn. by apply Hm.
    + unfold Stage.mount, stage_of, mount_all. cbn [Stage.w_host].
      rewrite (host_map_setInterval to_stage (CbStage Stage.StageTick)) by done.
      destruct (setInterval (CbStage Stage.StageTick) Stage.period (a_host w)) as [id h1]. cbn.
      by rewrite host_map_addEventListener_other.
  - left. destruct (a_stage w) as [ws|] eqn:Hst; [|rewrite Ha in Hm; by destruct Hm as [_ Hm]; specialize (Hm eq_refl)].
    replace (stage_of (unmount_all w)) with (Stage.unmount (stage_of w)).
    + constructor. cbn. by rewrite Hst.
    + unfold Stage.unmount, stage_of, unmount_all. cbn [Stage.w_widget]. rewrite Hst. cbn.
      by rewrite host_map_clearInterval, host_map_removeEventListener_other.
  - left. unfold fire_app in Hf. destruct (fire id (a_host w)) as [[cb h]|] eqn:F; [|done]. injection Hf as <-.
    destruct (fire_lookup id _ _ _ F) as (t & Hid & Hcb & _). destruct (Ht id t Hid) as [c Hc].
    destruct cb as [c'|]; [|by rewrite Hcb in F; rewrite <- Hcb in Hc].
    apply (Stage.st_fire _ id). unfold Stage.tick. cbn [stage_of Stage.w_host].
    by rewrite (host_map_fire to_stage id _ _ _ c' F).
  - right. unfold settle_scroll in Hf. destruct (Nav.scroll_request (a_win w)); [|done].
    injection Hf as <-. by destruct (_ =? _).
Qed.

(** The page's timers are the stage's, with the page's callback. *)
Lemma timers_unproject h :
  timers_stage_only h ->
  h_timers h = (fun t => {| t_delay := t_delay t; t_due := t_due t; t_cb := CbStage (t_cb t) |})
                 <$> h_timers (host_map to_stage h).
Proof.
  intros Hs. apply map_eq. intros i. rewrite lookup_fmap. cbn [host_map h_timers]. rewrite lookup_omap.
  destruct (h_timers h !! i) as [t|] eqn:E; [|done]. cbn. destruct (Hs i t E) as [c Hc].
  unfold retag_timer. rewrite Hc. cbn. destruct t as [dl du [c'|c']]; cbn in Hc; [|done].
  by destruct c, c'.
Qed.

Lemma mount_all_app w : a_app (mount_all w) = Some Nav.initial_app.
Proof. reflexivity. Qed.

(** *** The page's view *)

(** Two states of the page that agree on [App]'s state, the window and the
    host's tables; they may differ in the clock and the id counter, which
    the page never reads. *)
Definition page_equiv (p q : Nav.page) : Prop :=
  Nav.p_app p = Nav.p_app q /\ Nav.p_win p = Nav.p_win q /\
  h_timers (Nav.p_host p) = h_timers (Nav.p_host q) /\ h_listeners (Nav.p_host p) = h_listeners (Nav.p_host q).

Infix "≈ₚ" := page_equiv (at level 70).

#[export] Instance page_equiv_equiv : Equivalence page_equiv.
Proof.
  split; [intros p; repeat split | intros p q (?&?&?&?); repeat split; congruence |].
  intros p q r (?&?&?&?) (?&?&?&?). repeat split; congruence.
Qed.

#[export] Instance page_inv_proper : Proper (page_equiv ==> iff) Nav.page_inv.
Proof. intros p q (Ha & _ & _ & Hl). unfold Nav.page_inv. by rewrite Ha, Hl. Qed.

Lemma on_app_equiv f p q : p ≈ₚ q -> Nav.on_app f p ≈ₚ Nav.on_app f q.
Proof.
  intros (Ha & Hw & Ht & Hl). unfold Nav.on_app. rewrite Ha, Hw.
  destruct (Nav.p_app q) as [a|] eqn:Eq; [|repeat split; congruence].
  destruct (f a (Nav.p_win q)). repeat split; cbn; congruence.
Qed.

Lemma scroll_event_equiv y p q : p ≈ₚ q -> Nav.scroll_event y p ≈ₚ Nav.scroll_event y q.
Proof.
  intros (Ha & Hw & Ht & Hl). unfold page_equiv, Nav.scroll_event, listeners_for. cbn.
  rewrite Ha, Hw, Hl. done.
Qed.

(** [Nav.page_step] does not see the clock and the id counter. *)
Lemma page_step_equiv p q p' :
  p ≈ₚ q -> Nav.page_step p p' -> exists q', Nav.page_step q q' /\ p' ≈ₚ q'.
Proof.
  intros He Hs. pose proof He as (Ha & Hw & Ht & Hl).
  destruct Hs as [p Hp|p Hp|p y|p|p id|p|p p' Hp].
  - exists (Nav.mount q). split; [constructor; congruence|]. unfold page_equiv, addEventListener. cbn.
    by rewrite Hw, Ht, Hl.
  - exists (Nav.unmount q). split; [constructor; by rewrite <- Ha|]. unfold page_equiv. cbn. by rewrite Hw, Ht, Hl.
  - exists (Nav.scroll_event y q). split; [constructor|]. by apply scroll_event_equiv.
  - eexists. split; [apply Nav.pg_menu|]. by apply on_app_equiv.
  - eexists. split; [apply Nav.pg_nav|]. by apply on_app_equiv.
  - eexists. split; [apply Nav.pg_logo|]. by apply on_app_equiv.
  - unfold Nav.settle in Hp. rewrite Hw in Hp. destruct (Nav.scroll_request (Nav.p_win q)) as [y|] eqn:E; [|done].
    injection Hp as <-. eexists. split; [apply Nav.pg_settle; unfold Nav.settle; rewrite E; reflexivity|].
    cbv zeta. destruct (_ =? _); [repeat split; cbn; congruence|].
    apply scroll_event_equiv. repeat split; cbn; congruence.
Qed.

Lemma timers_page_empty h : timers_stage_only h -> h_timers (host_map to_page h) = ∅.
Proof.
  intros Hs. apply map_eq. intros i. cbn [host_map h_timers]. rewrite lookup_omap, lookup_empty.
  destruct (h_timers h !! i) as [t|] eqn:E; [|done]. cbn. destruct (Hs i t E) as [c Hc].
  unfold retag_timer. destruct (t_cb t); [done|discriminate].
Qed.

(** The scroll listeners of the shared host, run on [App]'s state, are the
    page's. *)
Lemma fold_listeners_page win ty h a :
  fold_right (run_app_cb win) a (listeners_for ty h) =
  fold_right (Nav.run_listener win) a (listeners_for ty (host_map to_page h)).
Proof.
  unfold listeners_for. cbn [host_map h_listeners]. induction (h_listeners h) as [|[t c] l IH]; [done|].
  rewrite omap_retag_listener_cons. unfold retag_listener at 1. cbn [fst snd].
  destruct c as [c|c]; cbn [to_page fmap option_fmap option_map]; cbn [List.filter];
    destruct (bool_decide (t = ty)); cbn [map fold_right run_app_cb]; by rewrite IH.
Qed.

Lemma page_of_scroll y w : page_of (scroll_event y w) = Nav.scroll_event y (page_of w).
Proof. unfold page_of, scroll_event, Nav.scroll_event. cbn. by rewrite fold_listeners_page. Qed.

Lemma dispatch_host h p : Nav.p_host (Doc.dispatch h p) = Nav.p_host p.
Proof.
  destruct h; cbn [Doc.dispatch]; unfold Nav.on_app; destruct (Nav.p_app p) as [a|]; try done.
  destruct (Nav.scrollToSection id a (Nav.p_win p)). done.
Qed.

Lemma page_of_with_page w q : Nav.p_host q = host_map to_page (a_host w) -> page_of (with_page w q) = q.
Proof. destruct q as [a win h]. cbn. intros ->. reflexivity. Qed.

(** Each step of the whole page is a step of [App]'s view (up to the clock
    and the id counter), or leaves it unchanged. *)
Lemma page_sim w w' :
  site_inv w -> site_step w w' ->
  (exists q, Nav.page_step (page_of w) q /\ q ≈ₚ page_of w') \/ page_of w ≈ₚ page_of w'.
Proof.
  intros Hi Hs. pose proof (site_inv_step _ _ Hi Hs) as (Ht' & _ & Hl').
  destruct Hi as (Ht & Hm & Hl).
  destruct Hs as [w Ha|w [a Ha]|w y|w a h Ha _|w e q _ _|w m k label _ _|w id w' Hf|w w' Hf].
  - left. exists (Nav.mount (page_of w)). split; [by constructor|].
    rewrite Ha in Hl. rewrite mount_all_app in Hl'. split; [done|]. split; [done|]. split.
    + transitivity (∅ : gmap Z (timer Nav.page_cb)); [exact (timers_page_empty _ Ht)|].
      symmetry. exact (timers_page_empty _ Ht').
    + change (h_listeners (addEventListener "scroll" Nav.HandleScroll (host_map to_page (a_host w))) =
              h_listeners (host_map to_page (a_host (mount_all w)))).
      unfold addEventListener, host_map. cbn [h_listeners]. rewrite Hl, Hl'. reflexivity.
  - left. exists (Nav.unmount (page_of w)). split; [constructor; cbn [page_of Nav.p_app]; by rewrite Ha|].
    rewrite Ha in Hl. change (a_app (unmount_all w)) with (@None Nav.app) in Hl'. split; [done|]. split; [done|]. split.
    + transitivity (∅ : gmap Z (timer Nav.page_cb)); [exact (timers_page_empty _ Ht)|].
      symmetry. exact (timers_page_empty _ Ht').
    + change (h_listeners (removeEventListener "scroll" Nav.HandleScroll (host_map to_page (a_host w))) =
              h_listeners (host_map to_page (a_host (unmount_all w)))).
      unfold removeEventListener, host_map. cbn [h_listeners]. rewrite Hl, Hl'. reflexivity.
  - left. eexists. split; [apply Nav.pg_scroll|]. by rewrite page_of_scroll.
  - left. exists (Doc.dispatch h (page_of w)). split; [destruct h; constructor|].
    rewrite page_of_with_page; [reflexivity | exact (dispatch_host h (page_of w))].
  - right. reflexivity.
  - right. reflexivity.
  - right. unfold fire_app in Hf. destruct (fire id (a_host w)) as [[cb h]|] eqn:F; [|done]. injection Hf as <-.
    destruct (fire_lookup id _ _ _ F) as (t & _ & _ & _ & Hlh). split; [done|]. split; [done|]. split.
    + transitivity (∅ : gmap Z (timer Nav.page_cb)); [exact (timers_page_empty _ Ht)|].
      symmetry. exact (timers_page_empty _ Ht').
    + cbn. by rewrite Hlh.
  - left. unfold settle_scroll in Hf. destruct (Nav.scroll_request (a_win w)) as [y|] eqn:E; [|done].
    injection Hf as <-. eexists. split; [apply Nav.pg_settle; unfold Nav.settle; cbn; rewrite E; reflexivity|].
    cbv zeta. destruct (_ =? _); [reflexivity|]. by rewrite page_of_scroll.
Qed.

(** Every reachable state of the whole page has a view equivalent to a
    reachable state of [App] alone. *)
Lemma page_of_reachable win t0 w :
  reachable win t0 w -> exists p, Nav.reachable win t0 p /\ page_of w ≈ₚ p.
Proof.
  intros Hr. cut (site_inv w /\ exists p, Nav.reachable win t0 p /\ page_of w ≈ₚ p); [by intros [_ ?]|].
  refine (star_invariant site_step (fun s => site_inv s /\ exists p, Nav.reachable win t0 p /\ page_of s ≈ₚ p)
            _ _ _ Hr _).
  - intros s s' [Hi (p & Hp & He)] Hs. split; [exact (site_inv_step _ _ Hi Hs)|].
    destruct (page_sim s s' Hi Hs) as [(q & Hq & Hqe)|He'].
    + destruct (page_step_equiv _ _ _ He Hq) as (q' & Hq' & Hqq').
      exists q'. split; [eapply star_trans; [exact Hp | exact (star_one _ _ _ Hq')]|].
      by rewrite <- Hqe.
    + exists p. split; [exact Hp|]. by rewrite <- He'.
  - split; [apply site_inv_initial|]. exists (Nav.initial_page win t0). split; [apply star_refl|].
    unfold page_equiv; cbn; repeat split; by rewrite ?omap_empty.
Qed.

(** Every reachable page projects to a reachable animator. *)
Lemma stage_of_reachable win t0 w : reachable win t0 w -> Stage.reachable t0 (stage_of w).
Proof.
  intros Hr. unfold Stage.reachable. rewrite <- (stage_of_initial win t0).
  eapply star_simulation; [exact site_inv_step | exact stage_sim | apply site_inv_initial | exact Hr].
Qed.



(** ** Theorems *)

(** C29. Refinement: the whole page refines the stage animator.  In every
    reachable state of the page, each event (mount, unmount, scroll, a click
    on the page, on a parity node or on a chart button, a timer firing) is
    seen by the animator, through its state and the part of the shared host
    it owns, either as one of its own steps (mount, unmount, firing of its
    interval) or as no change at all. *)
Theorem site_refines_stage win t0 w w' :
  reachable win t0 w -> site_step w w' ->
  Stage.stage_step (stage_of w) (stage_of w') \/ stage_of w = stage_of w'.
Proof. intros Hr. apply stage_sim, (site_inv_reachable win t0 w Hr). Qed.

Lemma site_refines_stage_witness :
  let win := {| Nav.scrollY := 0; Nav.sections := []; Nav.scroll_request := None; Nav.max_scroll := 0 |} in
  reachable win 0 (initial_world win 0) /\ site_step (initial_world win 0) (mount_all (initial_world win 0)) /\
  (Stage.stage_step (stage_of (initial_world win 0)) (stage_of (mount_all (initial_world win 0))) \/
   stage_of (initial_world win 0) = stage_of (mount_all (initial_world win 0))).
Proof.
  intros win. assert (Hr : reachable win 0 (initial_world win 0)) by apply star_refl.
  assert (Hs : site_step (initial_world win 0) (mount_all (initial_world win 0))) by (by constructor).
  split; [exact Hr|]. split; [exact Hs|]. exact (site_refines_stage win 0 _ _ Hr Hs).
Defined.

(** C30. The animator inside the page: every reachable state of the page
    projects to a state of the stage animator reachable on its own (from
    the empty host at the same time), so the animator's invariant holds
    inside the page whatever the user does: while mounted its stage is one
    of 0..3 and it owns exactly one 2000ms timer. *)
Theorem site_stage_reachable win t0 w :
  reachable win t0 w ->
  Stage.reachable t0 (stage_of w) /\
  (forall ws, a_stage w = Some ws -> 0 <= Stage.step ws < 4 /\
     exists due, h_timers (Stage.w_host (stage_of w)) =
       {[Stage.interval ws := {| t_delay := Stage.period; t_due := due; t_cb := Stage.StageTick |}]}).
Proof.
  intros Hr. pose proof (stage_of_reachable win t0 w Hr) as Hs.
  split; [exact Hs|]. intros ws Hws. destruct (Stage.stage_inv_reachable t0 _ Hs) as [_ Hi].
  cbn [stage_of Stage.w_widget] in Hi. rewrite Hws in Hi. destruct Hi as (Hb & due & _ & Htm).
  split; [exact Hb|]. by exists due.
Qed.

Lemma site_stage_reachable_witness :
  let win := {| Nav.scrollY := 0; Nav.sections := []; Nav.scroll_request := None; Nav.max_scroll := 0 |} in
  reachable win 0 (mount_all (initial_world win 0)) /\
  Stage.reachable 0 (stage_of (mount_all (initial_world win 0))).
Proof.
  intros win. assert (Hr : reachable win 0 (mount_all (initial_world win 0))) by (apply star_one; by constructor).
  split; [exact Hr|]. exact (proj1 (site_stage_reachable win 0 _ Hr)).
Defined.

(** C31. Resources of the whole page: in every reachable state, while the
    page is mounted the shared host holds exactly the scroll listener of
    [App] and exactly one timer, the stage's 2000ms interval under the id
    its cleanup holds; after unmount the host holds no timer and no
    listener: nothing leaks, whatever the interleaving of the
    components' events. *)
Theorem site_resources win t0 w :
  reachable win t0 w ->
  (a_app w = None -> h_timers (a_host w) = ∅ /\ h_listeners (a_host w) = []) /\
  (forall a, a_app w = Some a ->
     h_listeners (a_host w) = [("scroll"%string, CbPage Nav.HandleScroll)] /\
     exists ws due, a_stage w = Some ws /\
       h_timers (a_host w) =
         {[Stage.interval ws := {| t_delay := Stage.period; t_due := due; t_cb := CbStage Stage.StageTick |}]}).
Proof.
  intros Hr. destruct (site_inv_reachable win t0 w Hr) as (Ht & Hm & Hl).
  destruct (Stage.stage_inv_reachable t0 _ (stage_of_reachable win t0 w Hr)) as [_ Hi].
  cbn [stage_of Stage.w_widget Stage.w_host] in Hi. rewrite (timers_unproject _ Ht).
  split; [intros Ha | intros a Ha]; rewrite Ha in Hl; split; try exact Hl.
  - apply Hm in Ha. rewrite Ha in Hi. by rewrite Hi, fmap_empty.
  - destruct (a_stage w) as [ws|] eqn:Hst; [|by rewrite (proj2 Hm eq_refl) in Ha].
    destruct Hi as (_ & due & _ & ->). exists ws, due. split; [done|]. by rewrite map_fmap_singleton.
Qed.

Lemma site_resources_witness :
  let win := {| Nav.scrollY := 0; Nav.sections := []; Nav.scroll_request := None; Nav.max_scroll := 0 |} in
  let w := unmount_all (mount_all (initial_world win 0)) in
  reachable win 0 w /\ a_app w = None /\ h_timers (a_host w) = ∅ /\ h_listeners (a_host w) = [].
Proof.
  intros win w. assert (Hr : reachable win 0 w).
  { eapply star_step; [by constructor|]. apply star_one. constructor. by eexists. }
  split; [exact Hr|]. split; [reflexivity|]. exact (proj1 (site_resources win 0 w Hr) eq_refl).
Defined.



(** C33. Refinement, the page's side: every reachable state of the whole
    page has a view of [App] (its state, the window and the part of the
    shared host it owns) that agrees, up to the host's clock and id
    counter, with a state [App] reaches on its own through [Nav.page_step];
    so [App]'s listener discipline holds inside the whole page. *)
Theorem site_refines_page win t0 w :
  reachable win t0 w ->
  exists p, Nav.reachable win t0 p /\ page_of w ≈ₚ p /\ Nav.page_inv (page_of w).
Proof.
  intros Hr. destruct (page_of_reachable win t0 w Hr) as (p & Hp & He).
  exists p. split; [exact Hp|]. split; [exact He|]. rewrite He. exact (Nav.page_inv_reachable win t0 p Hp).
Qed.

Lemma site_refines_page_witness :
  let win := {| Nav.scrollY := 0; Nav.sections := []; Nav.scroll_request := None; Nav.max_scroll := 0 |} in
  reachable win 0 (mount_all (initial_world win 0)) /\
  Nav.page_inv (page_of (mount_all (initial_world win 0))).
Proof.
  intros win. assert (Hr : reachable win 0 (mount_all (initial_world win 0))) by (apply star_one; by constructor).
  split; [exact Hr|]. destruct (site_refines_page win 0 _ Hr) as (p & _ & _ & Hi). exact Hi.
Defined.



End Site.
